(** * Traffic analytics dashboard: the seven SQL views and their driver

    A shallow embedding of [generated2.py]: the seven entries of [QUERIES]
    are written as list programs over the two tables they read
    ([raw_traffic_readings] and [sensors]), and the driver loop body
    ([load_data], the [df.empty] test and the branch on the title) as a
    function from a snapshot to what the page shows.

    Conventions of the embedding.
    - A table is a list of rows; a query result is a list of rows in
      output order.
    - [speed] is a numeric, an exact rational [Q], and so are the sums,
      differences and quotients of numerics; the quotient of [AVG] and of
      [/] is the exact one, where the database carries it to a scale of at
      least 16 digits.  [ROUND(x, 2)] is modelled exactly (half away from
      zero).
    - [PERCENTILE_CONT] and the comparisons of query 2, and the correlation
      coefficient of the page script, work in double precision: they are
      modelled on binary64 values with the operations of IEEE 754
      ([Float8.query2], [corr]).  [query2] is the same statement over exact
      numbers.
    - [record_time] is a number of seconds since the epoch, so that
      [DATE_TRUNC('hour', t)] is [3600 * (t / 3600)] and
      [EXTRACT(HOUR FROM t)] is [(t / 3600) mod 24].
    - Columns hold no NULL in the input tables.  A NULL that a query itself
      produces ([LAG] on the first row, [STDDEV] of one value) is [None]. *)

From Stdlib Require Import String Ascii Bool ZArith QArith Qround Qabs List.
From Stdlib Require Import SpecFloat Lia Lqa Permutation Sorted.
Import ListNotations.

Local Open Scope Z_scope.

(** ** Data model: the two input tables *)

(** A row of [raw_traffic_readings]. *)
Record SensorReading := mkReading {
  r_sensor_id : Z;
  vehicle_id : Z;
  speed : Q;
  record_time : Z
}.

(** A row of [sensors]. *)
Record Sensor := mkSensor {
  s_sensor_id : Z;
  location_name : string;
  road_type : string
}.

(** A row of [raw_traffic_readings r JOIN sensors s]. *)
Definition Joined : Type := SensorReading * Sensor.

Definition r_ (j : Joined) : SensorReading := fst j.
Definition s_ (j : Joined) : Sensor := snd j.

(** ** Relational primitives *)

(** [FROM raw_traffic_readings r JOIN sensors s ON s.sensor_id = r.sensor_id]:
    an inner join, every reading paired with every sensor row of its id. *)
Definition join_sensors (readings : list SensorReading) (sensors : list Sensor)
  : list Joined :=
  flat_map
    (fun r => map (fun s => (r, s))
                  (filter (fun s => s_sensor_id s =? r_sensor_id r) sensors))
    readings.

Section GroupBy.
Context {A K : Type}.
Variable K_dec : forall x y : K, {x = y} + {x <> y}.
Variable key : A -> K.

Definition has_key (k : K) (a : A) : bool :=
  if K_dec (key a) k then true else false.

(** [GROUP BY key]: one group per distinct key, holding the rows of that
    key in input order. *)
Definition group_by (l : list A) : list (K * list A) :=
  map (fun k => (k, filter (has_key k) l)) (nodup K_dec (map key l)).
End GroupBy.

Section OrderBy.
Context {A : Type}.

(** A sort key compares two rows. *)
Definition ordering := A -> A -> comparison.

(** [ORDER BY k1, k2]: the second key decides among rows the first one
    holds equal. *)
Definition then_by (c1 c2 : ordering) : ordering :=
  fun x y => match c1 x y with Eq => c2 x y | o => o end.

(** [ORDER BY k DESC]. *)
Definition desc (c : ordering) : ordering := fun x y => c y x.

Definition leb_of (c : ordering) (x y : A) : bool :=
  match c x y with Gt => false | _ => true end.

(** [x] does not come after [y] in the order [c]. *)
Definition le_of (c : ordering) (x y : A) : Prop := leb_of c x y = true.

Variable c : ordering.

Fixpoint insert_by (x : A) (l : list A) : list A :=
  match l with
  | [] => [x]
  | y :: t => if leb_of c x y then x :: l else y :: insert_by x t
  end.

(** [ORDER BY c]: a stable insertion sort. *)
Definition order_by (l : list A) : list A := fold_right insert_by [] l.
End OrderBy.

Definition by_Z {A} (f : A -> Z) : @ordering A := fun x y => Z.compare (f x) (f y).
Definition by_string {A} (f : A -> string) : @ordering A :=
  fun x y => String.compare (f x) (f y).
Definition by_Q {A} (f : A -> Q) : @ordering A := fun x y => Qcompare (f x) (f y).

(** ** Aggregates and scalar functions *)

(** [COUNT(DISTINCT v)]. *)
Definition count_distinct (vs : list Z) : Z :=
  Z.of_nat (length (nodup Z.eq_dec vs)).

Definition Qsum (l : list Q) : Q := fold_right Qplus 0%Q l.

(** [AVG(x)] over a group (a group is never empty). *)
Definition avg (l : list Q) : Q :=
  (Qsum l / inject_Z (Z.of_nat (length l)))%Q.

(** [DATE_TRUNC('hour', t)]. *)
Definition date_trunc_hour (t : Z) : Z := 3600 * (t / 3600).

(** [EXTRACT(HOUR FROM t)]. *)
Definition extract_hour (t : Z) : Z := (t / 3600) mod 24.

(** [ROUND(x, 2)] on a numeric: to the nearest hundredth, ties away from
    zero. *)
Definition round2 (x : Q) : Q :=
  let n := Qfloor (Qabs x * 100 + (1 # 2))%Q in
  if Qle_bool 0 x then (n # 100)%Q else ((- n) # 100)%Q.

(** ** Query 1: traffic peaks and flow intensity *)

(** A row of the [hourly_flow] common table expression. *)
Record HourlyFlow := mkFlow {
  hf_location_name : string;
  hour_slot : Z;
  vehicle_count : Z
}.

(** A row of query 1: [SELECT *, RANK() OVER (...) AS rank_within_location]. *)
Record HourlyFlowRecord := mkFlowRecord {
  flow : HourlyFlow;
  rank_within_location : Z
}.

Definition string_Z_dec (x y : string * Z) : {x = y} + {x <> y}.
Proof. decide equality; [apply Z.eq_dec | apply string_dec]. Defined.

Definition flow_key (j : Joined) : string * Z :=
  (location_name (s_ j), date_trunc_hour (record_time (r_ j))).

(** [WITH hourly_flow AS (SELECT s.location_name, DATE_TRUNC(...) AS hour_slot,
    COUNT(DISTINCT r.vehicle_id) ... GROUP BY s.location_name, hour_slot)]. *)
Definition hourly_flow (readings : list SensorReading) (sensors : list Sensor)
  : list HourlyFlow :=
  map (fun g : (string * Z) * list Joined =>
         mkFlow (fst (fst g)) (snd (fst g))
                (count_distinct (map (fun j => vehicle_id (r_ j)) (snd g))))
      (group_by string_Z_dec flow_key (join_sensors readings sensors)).

(** The row number, counted from 1, of the first row of [l] whose
    [vehicle_count] is [c]: the first row of the peer group of [c]. *)
Fixpoint first_peer (c : Z) (l : list HourlyFlow) : Z :=
  match l with
  | [] => 1
  | y :: t => if vehicle_count y =? c then 1 else 1 + first_peer c t
  end.

(** [RANK() OVER (... ORDER BY vehicle_count DESC)] on one partition: the
    partition is sorted, and a row's rank is the row number of the first
    row of its peer group. *)
Definition rank_partition (p : list HourlyFlow) : list HourlyFlowRecord :=
  let sorted := order_by (desc (by_Z vehicle_count)) p in
  map (fun x => mkFlowRecord x (first_peer (vehicle_count x) sorted)) sorted.

(** [RANK() OVER (PARTITION BY location_name ORDER BY vehicle_count DESC)]. *)
Definition rank_over_location (hf : list HourlyFlow) : list HourlyFlowRecord :=
  flat_map (fun g => rank_partition (snd g))
           (group_by string_dec hf_location_name hf).

Definition query1_order : @ordering HourlyFlowRecord :=
  then_by (by_string (fun x => hf_location_name (flow x)))
    (then_by (by_Z rank_within_location) (by_Z (fun x => hour_slot (flow x)))).

Definition query1 (readings : list SensorReading) (sensors : list Sensor)
  : list HourlyFlowRecord :=
  order_by query1_order (rank_over_location (hourly_flow readings sensors)).

(** [y] is a row of the location of [x] with more vehicles than [x]. *)
Definition outranks (x y : HourlyFlow) : bool :=
  String.eqb (hf_location_name y) (hf_location_name x)
  && (vehicle_count x <? vehicle_count y).

(** [y] is a row of the location of [x] with as many vehicles as [x]. *)
Definition ties (x y : HourlyFlow) : bool :=
  String.eqb (hf_location_name y) (hf_location_name x)
  && (vehicle_count y =? vehicle_count x).

(** ** Query 2: movement efficiency assessment with slowdown detection *)

(** The statement over exact numbers: percentiles and comparisons as the
    arithmetic of rationals gives them.  The statement as the database
    evaluates it, in double precision, is [Float8.query2] below. *)

Definition Qlt_bool (x y : Q) : bool := negb (Qle_bool y x).

(** [PERCENTILE_CONT(p) WITHIN GROUP (ORDER BY v)]: the value at position
    [p * (N - 1)] of the sorted group, interpolated linearly between the
    two neighbouring rows when the position is not a whole number. *)
Definition percentile_cont (p : Q) (vals : list Q) : Q :=
  let sorted := order_by (by_Q (fun v => v)) vals in
  let pos := (p * inject_Z (Z.of_nat (length vals) - 1))%Q in
  let first_row := Qfloor pos in
  let second_row := Qceiling pos in
  let first_val := nth (Z.to_nat first_row) sorted 0%Q in
  if first_row =? second_row then first_val
  else
    let second_val := nth (Z.to_nat second_row) sorted 0%Q in
    (first_val + (pos - inject_Z first_row) * (second_val - first_val))%Q.

(** A row of the [speed_stats] common table expression. *)
Record SpeedStats := mkSpeedStats {
  ss_sensor_id : Z;
  ss_location_name : string;
  q1 : Q;
  q3 : Q
}.

Inductive traffic_status := Possible_slowdown | Abnormal_high_speed | Normal.

(** A row of query 2. *)
Record OutlierClassification := mkOutlier {
  oc_sensor_id : Z;
  oc_location_name : string;
  oc_record_time : Z;
  oc_speed : Q;
  oc_traffic_status : traffic_status
}.

Definition Z_string_dec (x y : Z * string) : {x = y} + {x <> y}.
Proof. decide equality; [apply string_dec | apply Z.eq_dec]. Defined.

Definition speeds (g : list Joined) : list Q := map (fun j => speed (r_ j)) g.

(** [GROUP BY s.sensor_id, s.location_name] with the two percentiles. *)
Definition speed_stats (readings : list SensorReading) (sensors : list Sensor)
  : list SpeedStats :=
  map (fun g : (Z * string) * list Joined =>
         mkSpeedStats (fst (fst g)) (snd (fst g))
                      (percentile_cont (25 # 100) (speeds (snd g)))
                      (percentile_cont (75 # 100) (speeds (snd g))))
      (group_by Z_string_dec (fun j => (s_sensor_id (s_ j), location_name (s_ j)))
                (join_sensors readings sensors)).

(** The [CASE] expression of query 2; [1.5] is [3 # 2]. *)
Definition classify (v lo hi : Q) : traffic_status :=
  if Qlt_bool v (lo - (3 # 2) * (hi - lo))%Q then Possible_slowdown
  else if Qlt_bool (hi + (3 # 2) * (hi - lo))%Q v then Abnormal_high_speed
  else Normal.

(** [... JOIN speed_stats q ON q.sensor_id = s.sensor_id] and the select
    list, before the final [ORDER BY]. *)
Definition classified (readings : list SensorReading) (sensors : list Sensor)
  : list OutlierClassification :=
  let stats := speed_stats readings sensors in
  flat_map
    (fun j : Joined =>
       map (fun q => mkOutlier (r_sensor_id (r_ j)) (location_name (s_ j))
                               (record_time (r_ j)) (speed (r_ j))
                               (classify (speed (r_ j)) (q1 q) (q3 q)))
           (filter (fun q => ss_sensor_id q =? s_sensor_id (s_ j)) stats))
    (join_sensors readings sensors).

Definition query2 (readings : list SensorReading) (sensors : list Sensor)
  : list OutlierClassification :=
  order_by (then_by (by_string oc_location_name) (by_Z oc_record_time))
           (classified readings sensors).

(** The speed history of sensor [sid]: the speeds of its joined rows. *)
Definition sensor_history (sid : Z) (readings : list SensorReading)
           (sensors : list Sensor) : list Q :=
  speeds (filter (fun j => s_sensor_id (s_ j) =? sid) (join_sensors readings sensors)).

(** The speeds of all readings of sensor [sid]. *)
Definition reading_speeds (sid : Z) (readings : list SensorReading) : list Q :=
  map speed (filter (fun r => r_sensor_id r =? sid) readings).

(** The row that the classifier is specified to give a joined reading: the
    [CASE] expression on the reading's speed and the two quartiles of all
    readings of its sensor. *)
Definition classified_by_history (readings : list SensorReading) (j : Joined)
  : OutlierClassification :=
  mkOutlier (r_sensor_id (r_ j)) (location_name (s_ j))
            (record_time (r_ j)) (speed (r_ j))
            (classify (speed (r_ j))
               (percentile_cont (25 # 100) (reading_speeds (s_sensor_id (s_ j)) readings))
               (percentile_cont (75 # 100) (reading_speeds (s_sensor_id (s_ j)) readings))).

(** ** Query 3: dynamic evaluation of traffic conditions *)

(** A row of query 3. *)
Record RollingAverageRecord := mkRolling {
  ra_location_name : string;
  ra_record_time : Z;
  rolling_avg_speed : Q
}.

(** [ROWS BETWEEN n PRECEDING AND CURRENT ROW] for the row at index [i]
    (from 0) of an ordered partition: the rows at indices [i - n] to [i],
    cut at the start of the partition. *)
Definition frame_rows {A} (n i : nat) (partition : list A) : list A :=
  skipn (i - n) (firstn (S i) partition).

Fixpoint window_avg (sorted : list Joined) (i : nat) (rest : list Joined)
  : list RollingAverageRecord :=
  match rest with
  | [] => []
  | j :: t =>
      mkRolling (location_name (s_ j)) (record_time (r_ j))
                (avg (speeds (frame_rows 5 i sorted)))
      :: window_avg sorted (S i) t
  end.

(** [AVG(r.speed) OVER (... ORDER BY r.record_time ROWS BETWEEN 5 PRECEDING
    AND CURRENT ROW)] on one partition. *)
Definition rolling_partition (p : list Joined) : list RollingAverageRecord :=
  let sorted := order_by (by_Z (fun j => record_time (r_ j))) p in
  window_avg sorted 0 sorted.

Definition query3 (readings : list SensorReading) (sensors : list Sensor)
  : list RollingAverageRecord :=
  order_by (then_by (by_string ra_location_name) (by_Z ra_record_time))
    (flat_map (fun g => rolling_partition (snd g))
       (group_by Z.eq_dec (fun j => s_sensor_id (s_ j))
                 (join_sensors readings sensors))).

(** The window partition of sensor [sid] in its window order: its joined
    rows by ascending [record_time]. *)
Definition sensor_partition (sid : Z) (joined : list Joined) : list Joined :=
  order_by (by_Z (fun j => record_time (r_ j)))
           (filter (fun j => s_sensor_id (s_ j) =? sid) joined).

(** ** Query 4: density-speed correlation *)

(** A row of query 4. *)
Record DensitySpeedSummary := mkDensity {
  ds_location_name : string;
  ds_vehicle_count : Z;
  ds_avg_speed : Q
}.

Definition query4 (readings : list SensorReading) (sensors : list Sensor)
  : list DensitySpeedSummary :=
  order_by (desc (by_Z ds_vehicle_count))
    (map (fun g : string * list Joined =>
            mkDensity (fst g)
                      (count_distinct (map (fun j => vehicle_id (r_ j)) (snd g)))
                      (avg (speeds (snd g))))
         (group_by string_dec (fun j => location_name (s_ j))
                   (join_sensors readings sensors))).

(** ** Query 5: daily traffic trend *)

(** A row of query 5; a NULL is [None]. *)
Record HourlyTrendRecord := mkTrend {
  hour_of_day : Z;
  avg_speed : Q;
  prev_hour_speed : option Q;
  delta_speed : option Q
}.

(** [WITH hourly AS (SELECT EXTRACT(HOUR FROM record_time) AS hour_of_day,
    AVG(speed) ... GROUP BY hour_of_day)]: no join with [sensors]. *)
Definition hourly (readings : list SensorReading) : list (Z * Q) :=
  map (fun g : Z * list SensorReading => (fst g, avg (map speed (snd g))))
      (group_by Z.eq_dec (fun r => extract_hour (record_time r)) readings).

(** [LAG(avg_speed) OVER (ORDER BY hour_of_day)] along the sorted rows:
    [prev] is the [avg_speed] of the row before, NULL on the first row. *)
Fixpoint lag_scan (prev : option Q) (l : list (Z * Q)) : list HourlyTrendRecord :=
  match l with
  | [] => []
  | (h, a) :: t =>
      mkTrend h a prev (option_map (fun p => round2 (a - p)) prev)
      :: lag_scan (Some a) t
  end.

Definition query5 (readings : list SensorReading) : list HourlyTrendRecord :=
  order_by (by_Z hour_of_day)
           (lag_scan None (order_by (by_Z fst) (hourly readings))).

(** The outer [SELECT ... FROM hourly ORDER BY hour_of_day] on any rows of
    [hourly], whatever scale [AVG] has carried their averages to. *)
Definition trend_select (hourly_rows : list (Z * Q)) : list HourlyTrendRecord :=
  order_by (by_Z hour_of_day)
           (lag_scan None (order_by (by_Z fst) hourly_rows)).

(** ** Query 7: comparison of speed and time by road type *)

(** A row of query 7. *)
Record RoadTypeHourlyRecord := mkRoadType {
  rt_road_type : string;
  rt_hour_of_day : Z;
  rt_avg_speed : Q
}.

Definition query7 (readings : list SensorReading) (sensors : list Sensor)
  : list RoadTypeHourlyRecord :=
  order_by (then_by (by_string rt_road_type) (by_Z rt_hour_of_day))
    (map (fun g : (string * Z) * list Joined =>
            mkRoadType (fst (fst g)) (snd (fst g)) (avg (speeds (snd g))))
         (group_by string_Z_dec
                   (fun j => (road_type (s_ j), extract_hour (record_time (r_ j))))
                   (join_sensors readings sensors))).

(** ** Failure: what a query or the page script can raise *)

Inductive exception :=
| division_by_zero          (* the database: ERROR: division by zero *)
| key_error (k : string)    (* Python: a missing dictionary key or column *)
| type_error (msg : string). (* Python: an operand of the wrong type *)

Inductive outcome (A : Type) :=
| Ok (a : A)
| Raised (e : exception).
Arguments Ok {A} a.
Arguments Raised {A} e.

Definition bind {A B} (m : outcome A) (f : A -> outcome B) : outcome B :=
  match m with
  | Ok a => f a
  | Raised e => Raised e
  end.

Notation "x <- m ;; k" := (bind m (fun x => k))
  (at level 61, m at next level, right associativity).

(** Every row is evaluated; the first failure aborts the whole statement. *)
Fixpoint for_each {A B} (f : A -> outcome B) (l : list A) : outcome (list B) :=
  match l with
  | [] => Ok []
  | a :: t => b <- f a ;; bs <- for_each f t ;; Ok (b :: bs)
  end.

(** [x / y] on numerics. *)
Definition numeric_div (x y : Q) : outcome Q :=
  if Qeq_bool y 0 then Raised division_by_zero else Ok (x / y)%Q.

(** ** Query 6: irregular patterns and possible incidents *)

Inductive anomaly_status := Irregular | Regular.

(** A row of the [stats] common table expression; [std_speed] is NULL for a
    sensor with one reading. *)
Record SensorStats := mkStats {
  st_sensor_id : Z;
  mean_speed : Q;
  std_speed : option Q
}.

(** A row of query 6. *)
Record AnomalyScoreRecord := mkAnomaly {
  as_sensor_id : Z;
  as_location_name : string;
  as_record_time : Z;
  as_speed : Q;
  z_score : option Q;
  as_traffic_status : anomaly_status
}.

(** NULL sorts as larger than every value. *)
Definition by_nullable {A} (f : A -> option Q) : @ordering A :=
  fun x y =>
    match f x, f y with
    | None, None => Eq
    | None, Some _ => Gt
    | Some _, None => Lt
    | Some a, Some b => Qcompare a b
    end.

Section Anomaly.
(** The square root of the database on numerics; it is only ever applied
    to a positive variance. *)
Variable numeric_sqrt : Q -> Q.

(** [STDDEV(x)], the sample standard deviation: NULL for fewer than two
    values, 0 when [N * sum(x^2) - sum(x)^2] is not positive. *)
Definition stddev (l : list Q) : option Q :=
  let n := inject_Z (Z.of_nat (length l)) in
  if (length l <=? 1)%nat then None
  else
    let numerator := (n * Qsum (map (fun x => x * x) l) - Qsum l * Qsum l)%Q in
    if Qle_bool numerator 0 then Some 0%Q
    else Some (numeric_sqrt (numerator / (n * (n - 1))))%Q.

Definition stats (readings : list SensorReading) (sensors : list Sensor)
  : list SensorStats :=
  map (fun g : Z * list Joined =>
         mkStats (fst g) (avg (speeds (snd g))) (stddev (speeds (snd g))))
      (group_by Z.eq_dec (fun j => s_sensor_id (s_ j))
                (join_sensors readings sensors)).

(** [(r.speed - st.mean_speed) / st.std_speed]: NULL when the divisor is
    NULL, an error when it is zero. *)
Definition deviation (v : Q) (st : SensorStats) : outcome (option Q) :=
  match std_speed st with
  | None => Ok None
  | Some d => z <- numeric_div (v - mean_speed st) d ;; Ok (Some z)
  end.

(** The select list of query 6 for one joined row, with its sort key
    [ABS(...)]. *)
Definition anomaly_row (j : Joined) (st : SensorStats)
  : outcome (AnomalyScoreRecord * option Q) :=
  z <- deviation (speed (r_ j)) st ;;
  Ok (mkAnomaly (r_sensor_id (r_ j)) (location_name (s_ j))
                (record_time (r_ j)) (speed (r_ j))
                (option_map round2 z)
                match z with
                | Some x => if Qlt_bool 2 (Qabs x) then Irregular else Regular
                | None => Regular
                end,
      option_map Qabs z).

Definition query6 (readings : list SensorReading) (sensors : list Sensor)
  : outcome (list AnomalyScoreRecord) :=
  let st := stats readings sensors in
  rows <- for_each (fun js : Joined * SensorStats => anomaly_row (fst js) (snd js))
            (flat_map
               (fun j : Joined =>
                  map (fun q => (j, q))
                      (filter (fun q => st_sensor_id q =? s_sensor_id (s_ j)) st))
               (join_sensors readings sensors)) ;;
  Ok (map fst (order_by (desc (by_nullable snd)) rows)).
End Anomaly.

Definition is_nil {A} (l : list A) : bool :=
  match l with [] => true | _ => false end.

(** ** Double precision *)

(** A binary64 value: the [double precision] of the database and the
    [float64] of the page script, with the operations of IEEE 754 (round to
    nearest, ties to even). *)
Definition float8 : Type := spec_float.

Definition float8pl : float8 -> float8 -> float8 := SFadd 53 1024.
Definition float8mi : float8 -> float8 -> float8 := SFsub 53 1024.
Definition float8mul : float8 -> float8 -> float8 := SFmul 53 1024.
Definition float8div : float8 -> float8 -> float8 := SFdiv 53 1024.
Definition dsqrt : float8 -> float8 := SFsqrt 53 1024.

Definition isnan (x : float8) : bool :=
  match x with S754_nan => true | _ => false end.

(** An integer as a double: the nearest one. *)
Definition float8_of_Z (z : Z) : float8 := binary_normalize 53 1024 z 0 false.

(** The cast of a numeric to [double precision], and Python's [float] of a
    [Decimal]: the double nearest to the quotient of numerator and
    denominator. *)
Definition float8_of_numeric (x : Q) : float8 :=
  match Qnum x with
  | Z0 => S754_zero false
  | Zpos n => float8div (S754_finite false n 0) (S754_finite false (Qden x) 0)
  | Zneg n => float8div (S754_finite true n 0) (S754_finite false (Qden x) 0)
  end.

(** The numbers the cast takes without an "out of range" error and on which
    no operation of query 2 leaves the range of the doubles: zero, and the
    numbers between 1e-300 and 1e300 in magnitude. *)
Definition in_float8_range (x : Q) : bool :=
  Qeq_bool x 0
  || (Qle_bool (1 # 10 ^ 300) (Qabs x) && Qle_bool (Qabs x) (inject_Z (10 ^ 300))).

(** [a < b] and [a > b] on [float8]: NaN counts as above every number. *)
Definition float8lt (a b : float8) : bool :=
  negb (isnan a) && (isnan b || SFltb a b).
Definition float8gt (a b : float8) : bool := float8lt b a.

(** [ORDER BY] on [float8]: by value, NaN last. *)
Definition float8_cmp : @ordering float8 :=
  fun a b =>
    match SFcompare a b with
    | Some o => o
    | None => if isnan a then (if isnan b then Eq else Gt) else Lt
    end.

(** ** Query 2 as the database evaluates it *)

(** [PERCENTILE_CONT] takes and returns [double precision]: the speeds are
    cast before they are sorted, the quartiles are doubles, and the [CASE]
    expression compares the cast speed with bounds computed in double
    precision. *)
Module Float8.

(** The interpolation [lo + pct * (hi - lo)]. *)
Definition lerp (lo hi pct : float8) : float8 :=
  float8pl lo (float8mul pct (float8mi hi lo)).

(** [PERCENTILE_CONT(quarters / 4) WITHIN GROUP (ORDER BY v)]: the value at
    position [quarters / 4 * (N - 1)] of the sorted group.  The position,
    its floor and the proportion beyond the floor are whole numbers of
    quarters, which double precision holds exactly for any number of rows
    below 2^50. *)
Definition percentile_cont (quarters : Z) (vals : list float8) : float8 :=
  let sorted := order_by float8_cmp vals in
  let fours := quarters * (Z.of_nat (length vals) - 1) in
  let first_row := fours / 4 in
  let first_val := nth (Z.to_nat first_row) sorted S754_nan in
  if fours mod 4 =? 0 then first_val
  else
    let second_val := nth (Z.to_nat (first_row + 1)) sorted S754_nan in
    lerp first_val second_val (float8_of_numeric (fours mod 4 # 4)).

(** A row of the [speed_stats] common table expression. *)
Record SpeedStats := mkSpeedStats {
  ss_sensor_id : Z;
  ss_location_name : string;
  q1 : float8;
  q3 : float8
}.

Definition speeds (g : list Joined) : list float8 :=
  map (fun j => float8_of_numeric (speed (r_ j))) g.

Definition speed_stats (readings : list SensorReading) (sensors : list Sensor)
  : list SpeedStats :=
  map (fun g : (Z * string) * list Joined =>
         mkSpeedStats (fst (fst g)) (snd (fst g))
                      (percentile_cont 1 (speeds (snd g)))
                      (percentile_cont 3 (speeds (snd g))))
      (group_by Z_string_dec (fun j => (s_sensor_id (s_ j), location_name (s_ j)))
                (join_sensors readings sensors)).

(** The two bounds of the [CASE] expression. *)
Definition lower_bound (lo hi : float8) : float8 :=
  float8mi lo (float8mul (float8_of_numeric 1.5) (float8mi hi lo)).
Definition upper_bound (lo hi : float8) : float8 :=
  float8pl hi (float8mul (float8_of_numeric 1.5) (float8mi hi lo)).

(** The [CASE] expression on the cast speed [v]. *)
Definition classify (v lo hi : float8) : traffic_status :=
  if float8lt v (lower_bound lo hi) then Possible_slowdown
  else if float8gt v (upper_bound lo hi) then Abnormal_high_speed
  else Normal.

Definition classified (readings : list SensorReading) (sensors : list Sensor)
  : list OutlierClassification :=
  let stats := speed_stats readings sensors in
  flat_map
    (fun j : Joined =>
       map (fun q => mkOutlier (r_sensor_id (r_ j)) (location_name (s_ j))
                               (record_time (r_ j)) (speed (r_ j))
                               (classify (float8_of_numeric (speed (r_ j))) (q1 q) (q3 q)))
           (filter (fun q => ss_sensor_id q =? s_sensor_id (s_ j)) stats))
    (join_sensors readings sensors).

Definition query2 (readings : list SensorReading) (sensors : list Sensor)
  : list OutlierClassification :=
  order_by (then_by (by_string oc_location_name) (by_Z oc_record_time))
           (classified readings sensors).

(** The speeds of all readings of sensor [sid], cast. *)
Definition reading_speeds (sid : Z) (readings : list SensorReading) : list float8 :=
  map (fun r => float8_of_numeric (speed r))
      (filter (fun r => r_sensor_id r =? sid) readings).

(** The row of a joined reading: the [CASE] expression on its cast speed and
    the two quartiles of all readings of its sensor. *)
Definition classified_by_history (readings : list SensorReading) (j : Joined)
  : OutlierClassification :=
  mkOutlier (r_sensor_id (r_ j)) (location_name (s_ j))
            (record_time (r_ j)) (speed (r_ j))
            (classify (float8_of_numeric (speed (r_ j)))
               (percentile_cont 1 (reading_speeds (s_sensor_id (s_ j)) readings))
               (percentile_cont 3 (reading_speeds (s_sensor_id (s_ j)) readings))).
End Float8.

(** ** The correlation of query 4's two columns *)

(** [Series.corr] hands the two columns, as arrays of [float64], to
    [numpy.corrcoef].  The order in which numpy and the linear algebra
    library behind it add up a sum is theirs to choose: the sum of an array
    and the dot product of two arrays are parameters here. *)
Section Corrcoef.
Variable add_reduce : list float8 -> float8.
Variable dot : list float8 -> list float8 -> float8.

Definition one : float8 := Eval vm_compute in float8_of_Z 1.
Definition minus_one : float8 := Eval vm_compute in float8_of_Z (-1).

(** [a.mean()]. *)
Definition mean (a : list float8) : float8 :=
  float8div (add_reduce a) (float8_of_Z (Z.of_nat (length a))).

(** [numpy.clip(x, -1, 1)], as [minimum(maximum(x, -1), 1)]; NaN stays. *)
Definition clip (x : float8) : float8 :=
  let m := if isnan x || SFleb minus_one x then x else minus_one in
  if isnan m || SFleb m one then m else one.

(** [numpy.corrcoef(a, b)[0, 1]]: the covariance matrix of the two rows with
    their means taken off, scaled by [1 / (N - 1)] (by [1 / 0.0] for one
    observation), divided by the two standard deviations and clipped. *)
Definition corrcoef (a b : list float8) : float8 :=
  let x := map (fun v => float8mi v (mean a)) a in
  let y := map (fun v => float8mi v (mean b)) b in
  let fact := Z.max 0 (Z.of_nat (length a) - 1) in
  let scale := float8div one (float8_of_Z fact) in
  let c_xx := float8mul (dot x x) scale in
  let c_xy := float8mul (dot x y) scale in
  let c_yy := float8mul (dot y y) scale in
  clip (float8div (float8div c_xy (dsqrt c_xx)) (dsqrt c_yy)).

(** [a.corr(b)] for two columns without NULL: NaN for columns without a
    row. *)
Definition corr_with (a b : list float8) : float8 :=
  if is_nil a then S754_nan else corrcoef a b.
End Corrcoef.

(** Sums taken from left to right, as numpy takes them for an array of fewer
    than eight elements. *)
Definition add_reduce (a : list float8) : float8 :=
  match a with
  | [] => S754_zero false
  | x :: t => fold_left float8pl t x
  end.

Definition dot (a b : list float8) : float8 :=
  add_reduce (map (fun p => float8mul (fst p) (snd p)) (combine a b)).

Definition corr : list float8 -> list float8 -> float8 := corr_with add_reduce dot.

(** ** The page script *)

(** What [load_data] returns: the rows of one of the seven queries. *)
Inductive DataFrame :=
| FlowFrame (rows : list HourlyFlowRecord)
| OutlierFrame (rows : list OutlierClassification)
| RollingFrame (rows : list RollingAverageRecord)
| DensityFrame (rows : list DensitySpeedSummary)
| TrendFrame (rows : list HourlyTrendRecord)
| AnomalyFrame (rows : list AnomalyScoreRecord)
| RoadTypeFrame (rows : list RoadTypeHourlyRecord).

(** [df.empty]. *)
Definition empty (df : DataFrame) : bool :=
  match df with
  | FlowFrame rows => is_nil rows
  | OutlierFrame rows => is_nil rows
  | RollingFrame rows => is_nil rows
  | DensityFrame rows => is_nil rows
  | TrendFrame rows => is_nil rows
  | AnomalyFrame rows => is_nil rows
  | RoadTypeFrame rows => is_nil rows
  end.

(** What one pass of the loop puts on the page under the subheader: the
    warning, or the data that the script hands to the call that draws the
    chart of a view.  What the plotting library does with them is not
    modelled. *)
Inductive page :=
| st_warning (msg : string)
| flow_chart (lines peaks : list HourlyFlowRecord)
| outlier_chart (points : list OutlierClassification)
| rolling_chart (lines : list RollingAverageRecord)
| density_metric (correlation : float8) (table : list DensitySpeedSummary)
| trend_chart (lines : list HourlyTrendRecord)
| anomaly_chart (points : list AnomalyScoreRecord)
| road_type_chart (lines : list RoadTypeHourlyRecord)
| nothing.

Definition lower_ascii (c : ascii) : ascii :=
  let n := nat_of_ascii c in
  if ((65 <=? n) && (n <=? 90))%nat then ascii_of_nat (n + 32) else c.

(** [s.lower()]. *)
Fixpoint lower (s : string) : string :=
  match s with
  | EmptyString => EmptyString
  | String c t => String (lower_ascii c) (lower t)
  end.

(** [sub in s]. *)
Fixpoint contains (sub s : string) : bool :=
  if String.prefix sub s then true
  else match s with
       | EmptyString => false
       | String _ t => contains sub t
       end.

Fixpoint lookup {V} (k : string) (d : list (string * V)) : option V :=
  match d with
  | [] => None
  | (k', v) :: t => if String.eqb k k' then Some v else lookup k t
  end.

Section Dashboard.
Variable numeric_sqrt : Q -> Q.

Definition query := list SensorReading -> list Sensor -> outcome DataFrame.

(** The dictionary [QUERIES], each statement as the function it computes. *)
Definition QUERIES : list (string * query) :=
  [ ("1. Identification of traffic peaks and flow intensity"%string,
     fun rs ss => Ok (FlowFrame (query1 rs ss)));
    ("2. Movement efficiency assessment with slowdown detection"%string,
     fun rs ss => Ok (OutlierFrame (Float8.query2 rs ss)));
    ("3. Dynamic evaluation of traffic conditions"%string,
     fun rs ss => Ok (RollingFrame (query3 rs ss)));
    ("4. Density-speed correlation"%string,
     fun rs ss => Ok (DensityFrame (query4 rs ss)));
    ("5. Daily traffic trend"%string,
     fun rs _ => Ok (TrendFrame (query5 rs)));
    ("6. Irregular patterns and possible incidents"%string,
     fun rs ss => rows <- query6 numeric_sqrt rs ss ;; Ok (AnomalyFrame rows));
    ("7. Comparison of speed and time by road type"%string,
     fun rs ss => Ok (RoadTypeFrame (query7 rs ss))) ].

(** [df["location_name"].unique()]: the values in the order of their first
    appearance. *)
Fixpoint unique (l : list string) : list string :=
  match l with
  | [] => []
  | x :: t => x :: filter (fun y => negb (String.eqb y x)) (unique t)
  end.

(** [df["location_name"].isin(selected_locations)] on one row. *)
Definition isin (selected_locations : list string) (x : HourlyFlowRecord) : bool :=
  existsb (String.eqb (hf_location_name (flow x))) selected_locations.

(** The flow branch from the sort on, for the locations that the
    multiselect returns: the lines drawn and the peaks marked. *)
Definition flow_view (selected_locations : list string) (rows : list HourlyFlowRecord)
  : page :=
  let df := order_by (then_by (by_string (fun x => hf_location_name (flow x)))
                              (by_Z (fun x => hour_slot (flow x)))) rows in
  let filtered_df := filter (isin selected_locations) df in
  flow_chart filtered_df (filter (fun x => rank_within_location x =? 1) filtered_df).

(** The locations the multiselect offers and, until the user changes the
    selection, returns. *)
Definition all_locations (rows : list HourlyFlowRecord) : list string :=
  unique (map (fun x => hf_location_name (flow x))
              (order_by (then_by (by_string (fun x => hf_location_name (flow x)))
                                 (by_Z (fun x => hour_slot (flow x)))) rows)).

Definition is_null {A} (v : option A) : bool :=
  match v with None => true | Some _ => false end.

(** The [else] branch of the loop body: the chain of tests on the lowered
    title.  In the flow branch the multiselect holds its default, every
    location; [flow_view] is the branch for any selection.  In the
    irregular branch a [z_score] column of NULLs only is a column of
    objects, on which [abs] raises [TypeError].  A frame without the columns
    a branch reads raises [KeyError]. *)
Definition render (title : string) (df : DataFrame) : outcome page :=
  let t := lower title in
  if contains "flow" t then
    match df with
    | FlowFrame rows => Ok (flow_view (all_locations rows) rows)
    | _ => Raised (key_error "hour_slot")
    end
  else if contains "slowdown" t then
    match df with
    | OutlierFrame rows => Ok (outlier_chart rows)
    | _ => Raised (key_error "traffic_status")
    end
  else if contains "dynamic" t then
    match df with
    | RollingFrame rows => Ok (rolling_chart rows)
    | _ => Raised (key_error "rolling_avg_speed")
    end
  else if contains "density" t then
    match df with
    | DensityFrame rows =>
        Ok (density_metric
              (corr (map (fun x => float8_of_Z (ds_vehicle_count x)) rows)
                    (map (fun x => float8_of_numeric (ds_avg_speed x)) rows))
              rows)
    | _ => Raised (key_error "vehicle_count")
    end
  else if contains "trend" t then
    match df with
    | TrendFrame rows => Ok (trend_chart rows)
    | _ => Raised (key_error "hour_of_day")
    end
  else if contains "irregular" t then
    match df with
    | AnomalyFrame rows =>
        if negb (is_nil rows) && forallb (fun x => is_null (z_score x)) rows
        then Raised (type_error "bad operand type for abs(): 'NoneType'")
        else Ok (anomaly_chart rows)
    | _ => Raised (key_error "z_score")
    end
  else if contains "road type" t then
    match df with
    | RoadTypeFrame rows => Ok (road_type_chart rows)
    | _ => Raised (key_error "road_type")
    end
  else Ok nothing.

(** One pass of the [while True] body for the selected title: look the
    statement up, load its rows, warn when there are none, otherwise
    draw. *)
Definition cycle (selected_query : string)
           (readings : list SensorReading) (sensors : list Sensor)
  : outcome page :=
  match lookup selected_query QUERIES with
  | None => Raised (key_error selected_query)
  | Some load_data =>
      df <- load_data readings sensors ;;
      if empty df then Ok (st_warning "No data returned.")
      else render selected_query df
  end.
End Dashboard.

(** ** The status summary of the slowdown branch *)

(** A row of the table under the scatter plot: a location and its numbers
    of rows per status, in the column order of [desired_order]. *)
Record StatusSummary := mkSummary {
  sm_location_name : string;
  sm_possible_slowdown : Z;
  sm_abnormal_high_speed : Z;
  sm_normal : Z
}.

Definition status_eqb (a b : traffic_status) : bool :=
  match a, b with
  | Possible_slowdown, Possible_slowdown => true
  | Abnormal_high_speed, Abnormal_high_speed => true
  | Normal, Normal => true
  | _, _ => false
  end.

(** [value_counts()] for one status within one group; a status that does
    not occur counts 0 ([fill_value=0]). *)
Definition value_count (status : traffic_status) (rows : list OutlierClassification) : Z :=
  Z.of_nat (length (filter (fun r => status_eqb (oc_traffic_status r) status) rows)).

(** [df.groupby("location_name")["traffic_status"].value_counts()
    .unstack(fill_value=0).reindex(columns=desired_order, fill_value=0)
    .reset_index()]: one row per location, the locations in ascending order
    (the group keys are sorted). *)
Definition status_summary (df : list OutlierClassification) : list StatusSummary :=
  map (fun g : string * list OutlierClassification =>
         mkSummary (fst g)
                   (value_count Possible_slowdown (snd g))
                   (value_count Abnormal_high_speed (snd g))
                   (value_count Normal (snd g)))
      (order_by (by_string fst) (group_by string_dec oc_location_name df)).

(** The view a chart belongs to, by the title of its statement. *)
Definition view_of_page (p : page) : option string :=
  match p with
  | st_warning _ => None
  | flow_chart _ _ => Some "1. Identification of traffic peaks and flow intensity"%string
  | outlier_chart _ =>
      Some "2. Movement efficiency assessment with slowdown detection"%string
  | rolling_chart _ => Some "3. Dynamic evaluation of traffic conditions"%string
  | density_metric _ _ => Some "4. Density-speed correlation"%string
  | trend_chart _ => Some "5. Daily traffic trend"%string
  | anomaly_chart _ => Some "6. Irregular patterns and possible incidents"%string
  | road_type_chart _ => Some "7. Comparison of speed and time by road type"%string
  | nothing => None
  end.

(** ** Sample data *)

(** A square root to 16 decimal places, to run query 6 on sample data. *)
Definition sqrt16 (x : Q) : Q :=
  (Z.sqrt (Qfloor (x * inject_Z (10 ^ 32))) # (10 ^ 16))%Q.

Definition main_street : Sensor := mkSensor 1 "Main Street" "urban".
Definition ring_road : Sensor := mkSensor 2 "Ring Road" "highway".
Definition two_sensors : list Sensor := [main_street; ring_road].

(** [n] vehicles, numbered from [first], seen by sensor [sid] during hour
    [h] of day 0, one per second, all at speed [v]. *)
Definition vehicles (sid : Z) (h : Z) (first : nat) (n : nat) (v : Q)
  : list SensorReading :=
  map (fun k => mkReading sid (Z.of_nat k) v (3600 * h + Z.of_nat k))
      (seq first n).

(** One reading per listed speed at sensor [sid], a minute apart, each of a
    different vehicle. *)
Fixpoint timed (sid : Z) (t : Z) (vs : list Q) : list SensorReading :=
  match vs with
  | [] => []
  | v :: rest => mkReading sid t v t :: timed sid (t + 60) rest
  end.

(** Seven readings of sensor 1 at speeds 10 to 70, a minute apart, and two
    readings of sensor 2 falling between them in time. *)
Definition rolling_sample : list SensorReading :=
  timed 1 0 [10; 20; 30; 40; 50; 60; 70]%Q ++ timed 2 30 [200; 300]%Q.

(** Sensor 1 sees 10 vehicles between 00:00 and 01:00, 50 between 01:00 and
    02:00 and 20 between 02:00 and 03:00. *)
Definition three_hours : list SensorReading :=
  vehicles 1 0 0 10 50 ++ vehicles 1 1 0 50 50 ++ vehicles 1 2 0 20 50.

(** Hour 0 of day 0 has one reading at 50; hour 1 has seven at 50 and one
    at 51, so its average is 50.125. *)
Definition trend_sample : list SensorReading :=
  vehicles 1 0 0 1 50 ++ vehicles 1 1 0 7 50 ++ vehicles 1 1 7 1 51.

(** Two rows of [hourly] with averages as the database returns them, at
    scale 16. *)
Definition hourly_at_scale_16 : list (Z * Q) :=
  [(0, 50.3333333333333333%Q); (1, 50.3383333333333333%Q)].

(** Four readings of sensor 1 whose least and greatest speeds are, in exact
    arithmetic, the two bounds of the [CASE] expression of query 2: the
    quartiles are 5.5 and 6.1, the bounds 4.6 and 7.0. *)
Definition fence_sample : list SensorReading := timed 1 0 [5.8; 4.6; 5.8; 7.0]%Q.

(** One reading at each of the two sensors: two locations, one vehicle
    each. *)
Definition two_locations : list SensorReading :=
  timed 1 0 [50%Q] ++ timed 2 0 [70%Q].


(** A square root to 16 decimal places, rounded up: positive on every
    positive number. *)
Definition sqrt16_up (x : Q) : Q :=
  (Z.sqrt_up (Qceiling (x * inject_Z (10 ^ 32))) # (10 ^ 16))%Q.

(** Speeds 10 to 15 and one reading at 100 at sensor 1. *)
Definition anomaly_sample : list SensorReading :=
  timed 1 0 [10; 11; 12; 13; 14; 15; 100]%Q ++ timed 2 30 [90%Q].

(** The order of query 6 as the rows show it: rows without a score first,
    then by descending absolute score. *)
Definition score_order (a b : AnomalyScoreRecord) : Prop :=
  match z_score a, z_score b with
  | None, _ => True
  | Some _, None => False
  | Some x, Some y => (Qabs y <= Qabs x)%Q
  end.

(** What query 6 keeps of a joined reading. *)
Definition anomaly_key (row : AnomalyScoreRecord) : Z * string * Z * Q :=
  (as_sensor_id row, as_location_name row, as_record_time row, as_speed row).

Definition joined_key (j : Joined) : Z * string * Z * Q :=
  (r_sensor_id (r_ j), location_name (s_ j), record_time (r_ j), speed (r_ j)).

(** ** Auxiliary definitions for the proofs *)

(** The warning of the page script on an empty frame. *)
Definition no_data : outcome page := Ok (st_warning "No data returned.").

(** The titles of the six views whose statement joins the readings with
    [sensors]. *)
Definition joined_views : list string :=
  [ "1. Identification of traffic peaks and flow intensity";
    "2. Movement efficiency assessment with slowdown detection";
    "3. Dynamic evaluation of traffic conditions";
    "4. Density-speed correlation";
    "6. Irregular patterns and possible incidents";
    "7. Comparison of speed and time by road type" ]%string.

(** The order and the sort of [ORDER BY] on speeds. *)
Definition leQ (x y : Q) : bool := leb_of (by_Q (fun v : Q => v)) x y.


(** The order of [float8] as an order on three whole numbers: the class of
    the double (negative infinity, negative numbers, zeros, positive
    numbers, positive infinity, NaN), then the exponent, then the
    mantissa, the last two with the sign of the double. *)
Definition float8_class (x : float8) : Z :=
  match x with
  | S754_nan => 3
  | S754_infinity false => 2
  | S754_finite false _ _ => 1
  | S754_zero _ => 0
  | S754_finite true _ _ => -1
  | S754_infinity true => -2
  end.

Definition float8_exponent (x : float8) : Z :=
  match x with
  | S754_finite false _ e => e
  | S754_finite true _ e => - e
  | _ => 0
  end.

Definition float8_mantissa (x : float8) : Z :=
  match x with
  | S754_finite false m _ => Zpos m
  | S754_finite true m _ => Zneg m
  | _ => 0
  end.

Definition float8_key : @ordering float8 :=
  then_by (by_Z float8_class) (then_by (by_Z float8_exponent) (by_Z float8_mantissa)).

Definition is_zero (x : float8) : bool :=
  match x with S754_zero _ => true | _ => false end.

(** A number or a zero: not an infinity, not NaN. *)
Definition is_finite (x : float8) : bool :=
  match x with
  | S754_zero _ | S754_finite _ _ _ => true
  | _ => false
  end.

(** The same double, or two zeros: what the order of [float8] holds
    equal. *)
Definition same_float8 (a b : float8) : Prop :=
  a = b \/ (is_zero a = true /\ is_zero b = true).

(** Rows a sort key holds equal, place by place. *)
Definition alike {A} (c : @ordering A) (l l' : list A) : Prop :=
  Forall2 (fun a b => c a b = Eq) l l'.

(** [floor(x)] and [ceil(x)] of a double, as whole numbers. *)
Definition float8_floor (x : float8) : Z :=
  match x with
  | S754_finite false m e => Z.shiftl (Zpos m) e
  | S754_finite true m e => Z.shiftl (Zneg m) e
  | _ => 0
  end.

Definition float8_ceil (x : float8) : Z := - float8_floor (SFopp x).

(** The position [percentile * (N - 1)], its floor, its ceiling and the
    proportion beyond the floor as the database computes them, in double
    precision, checked against the whole numbers of quarters that
    [Float8.percentile_cont] uses. *)
Definition position_agrees (quarters N : Z) : bool :=
  let position := float8mul (float8_of_numeric (quarters # 4)) (float8_of_Z (N - 1)) in
  let first_row := float8_floor position in
  let second_row := float8_ceil position in
  let fours := quarters * (N - 1) in
  (first_row =? fours / 4)
  && ((first_row =? second_row) || (second_row =? fours / 4 + 1))
  && Bool.eqb (first_row =? second_row) (fours mod 4 =? 0)
  && match SFcompare (float8mi position (float8_of_Z first_row))
                     (float8_of_numeric (fours mod 4 # 4)) with
     | Some Eq => true
     | _ => false
     end.

(** ** Orderings that [ORDER BY] can rely on *)

(** A sort key is lawful when swapping its arguments swaps the answer, when
    "before" is transitive, and when rows it holds equal compare alike with
    every other row. *)
Class Lawful {A} (c : @ordering A) : Prop := {
  lawful_swap : forall x y, c y x = CompOpp (c x y);
  lawful_trans : forall x y z, c x y = Lt -> c y z = Lt -> c x z = Lt;
  lawful_eq : forall x y z, c x y = Eq -> c x z = c y z
}.

(** Rows sorted by a text column and then a number: an earlier row has a
    smaller text, or the same text and no larger number. *)
Definition text_then_number {A} (text : A -> string) (number : A -> Z) (a b : A) : Prop :=
  String.compare (text a) (text b) = Lt \/ (text a = text b /\ number a <= number b).

(** The order of query 1: by location, then by rank, then by hour slot. *)
Definition flow_order (a b : HourlyFlowRecord) : Prop :=
  String.compare (hf_location_name (flow a)) (hf_location_name (flow b)) = Lt
  \/ (hf_location_name (flow a) = hf_location_name (flow b)
      /\ (rank_within_location a < rank_within_location b
          \/ (rank_within_location a = rank_within_location b
              /\ hour_slot (flow a) <= hour_slot (flow b)))).

(** [y] is a row of the location of [x]. *)
Definition same_location (x y : HourlyFlowRecord) : bool :=
  String.eqb (hf_location_name (flow y)) (hf_location_name (flow x)).

(** * Properties *)

(** ** Sorting *)

Section OrderByFacts.
Context {A : Type} (c : @ordering A).

Lemma insert_by_perm (x : A) (l : list A) :
  Permutation (insert_by c x l) (x :: l).
Proof.
  induction l as [|y t IH]; simpl; [reflexivity|].
  destruct (leb_of c x y); [reflexivity|].
  rewrite IH. apply perm_swap.
Qed.

Lemma order_by_perm (l : list A) : Permutation (order_by c l) l.
Proof.
  induction l as [|x t IH]; simpl; [constructor|].
  rewrite insert_by_perm. now constructor.
Qed.

Lemma order_by_In (l : list A) (x : A) : In x (order_by c l) <-> In x l.
Proof.
  split; apply Permutation_in; [|symmetry]; apply order_by_perm.
Qed.

Lemma order_by_length (l : list A) : length (order_by c l) = length l.
Proof. apply Permutation_length, order_by_perm. Qed.

Lemma order_by_nil_inv (l : list A) : order_by c l = [] -> l = [].
Proof.
  intros H. apply Permutation_nil. rewrite <- H. apply order_by_perm.
Qed.

Hypothesis le_total : forall x y, leb_of c x y = false -> leb_of c y x = true.
Hypothesis le_trans : forall x y z, le_of c x y -> le_of c y z -> le_of c x z.

Lemma insert_by_sorted (x : A) (l : list A) :
  StronglySorted (le_of c) l -> StronglySorted (le_of c) (insert_by c x l).
Proof.
  induction 1 as [|y t Ht IH Hy]; simpl.
  - repeat constructor.
  - destruct (leb_of c x y) eqn:E.
    + constructor; [now constructor|].
      constructor; [exact E|].
      eapply Forall_impl; [|exact Hy]. intros z Hz. now apply le_trans with y.
    + constructor; [exact IH|].
      apply (Permutation_Forall (x := x :: t)).
      * symmetry. apply insert_by_perm.
      * constructor; [now apply le_total | exact Hy].
Qed.

Lemma order_by_sorted (l : list A) : StronglySorted (le_of c) (order_by c l).
Proof.
  induction l as [|x t IH]; simpl; [constructor|].
  now apply insert_by_sorted.
Qed.
End OrderByFacts.

Lemma leb_by_Z {A} (f : A -> Z) (x y : A) :
  leb_of (by_Z f) x y = true <-> f x <= f y.
Proof.
  unfold leb_of, by_Z. destruct (Z.compare_spec (f x) (f y)); split; intros; try lia; try reflexivity; discriminate.
Qed.

Lemma leb_by_Z_desc {A} (f : A -> Z) (x y : A) :
  leb_of (desc (by_Z f)) x y = true <-> f y <= f x.
Proof. unfold desc. apply (leb_by_Z f y x). Qed.

Lemma leb_by_Q {A} (f : A -> Q) (x y : A) :
  leb_of (by_Q f) x y = true <-> (f x <= f y)%Q.
Proof.
  unfold leb_of, by_Q. destruct (Qcompare_spec (f x) (f y)) as [H|H|H]; split; intros H'; try reflexivity; try discriminate.
  - rewrite H. apply Qle_refl.
  - now apply Qlt_le_weak.
  - exfalso. apply (Qlt_irrefl (f x)). now apply Qle_lt_trans with (f y).
Qed.

Lemma order_by_Z_sorted {A} (f : A -> Z) (l : list A) :
  StronglySorted (fun x y => f x <= f y) (order_by (by_Z f) l).
Proof.
  assert (H : StronglySorted (le_of (by_Z f)) (order_by (by_Z f) l)).
  { apply order_by_sorted.
    - intros x y H. apply leb_by_Z.
      destruct (Z.le_gt_cases (f y) (f x)) as [G|G]; [exact G|].
      assert (leb_of (by_Z f) x y = true) by (apply leb_by_Z; lia). congruence.
    - unfold le_of. intros x y z. rewrite !leb_by_Z. lia. }
  induction H as [|a0 t0 Hs IH Hf]; constructor; auto.
  eapply Forall_impl; [|exact Hf]. intros b. unfold le_of. now rewrite leb_by_Z.
Qed.

Lemma order_by_Z_desc_sorted {A} (f : A -> Z) (l : list A) :
  StronglySorted (fun x y => f y <= f x) (order_by (desc (by_Z f)) l).
Proof.
  assert (H : StronglySorted (le_of (desc (by_Z f))) (order_by (desc (by_Z f)) l)).
  { apply order_by_sorted.
    - intros x y H. apply leb_by_Z_desc.
      destruct (Z.le_gt_cases (f x) (f y)) as [G|G]; [exact G|].
      assert (leb_of (desc (by_Z f)) x y = true) by (apply leb_by_Z_desc; lia). congruence.
    - unfold le_of. intros x y z. rewrite !leb_by_Z_desc. lia. }
  induction H as [|a0 t0 Hs IH Hf]; constructor; auto.
  eapply Forall_impl; [|exact Hf]. intros b. unfold le_of. now rewrite leb_by_Z_desc.
Qed.


Lemma filter_perm_length {A} (f : A -> bool) (l l' : list A) :
  Permutation l l' -> length (filter f l) = length (filter f l').
Proof.
  induction 1 as [|x l l' _ IH|x y l|l l' l'' _ IH1 _ IH2]; simpl.
  - reflexivity.
  - destruct (f x); simpl; congruence.
  - destruct (f x), (f y); reflexivity.
  - congruence.
Qed.

(** ** Grouping *)

Section GroupByFacts.
Context {A K : Type}.
Variable K_dec : forall x y : K, {x = y} + {x <> y}.
Variable key : A -> K.

Lemma has_key_true (k : K) (a : A) : has_key K_dec key k a = true <-> key a = k.
Proof. unfold has_key. destruct (K_dec (key a) k); split; congruence. Qed.

Lemma group_by_In (l : list A) (g : K * list A) :
  In g (group_by K_dec key l) <->
  In (fst g) (map key l) /\ snd g = filter (has_key K_dec key (fst g)) l.
Proof.
  unfold group_by. rewrite in_map_iff. split.
  - intros [k [<- Hk]]. cbn [fst snd]. split; [|reflexivity].
    exact (proj1 (nodup_In K_dec _ _) Hk).
  - intros [Hk Hg]. exists (fst g). split.
    + rewrite <- Hg. now destruct g.
    + exact (proj2 (nodup_In K_dec _ _) Hk).
Qed.

Lemma group_by_keys (l : list A) :
  map fst (group_by K_dec key l) = nodup K_dec (map key l).
Proof. unfold group_by. rewrite map_map. simpl. apply map_id. Qed.

Lemma group_by_NoDup (l : list A) : NoDup (map fst (group_by K_dec key l)).
Proof. rewrite group_by_keys. apply NoDup_nodup. Qed.

(** A group is never empty. *)
Lemma group_by_nonempty (l : list A) (g : K * list A) :
  In g (group_by K_dec key l) -> snd g <> [].
Proof.
  intros H. apply group_by_In in H. destruct H as [Hk ->].
  apply in_map_iff in Hk. destruct Hk as [a [Ha Hin]].
  intros E. assert (Hf : In a (filter (has_key K_dec key (fst g)) l)).
  { apply filter_In. split; [exact Hin | now apply has_key_true]. }
  rewrite E in Hf. exact Hf.
Qed.

Lemma partition_cons (a : A) (l : list A) (ks : list K) :
  NoDup ks ->
  Permutation (flat_map (fun k => filter (has_key K_dec key k) (a :: l)) ks)
    (if in_dec K_dec (key a) ks
     then a :: flat_map (fun k => filter (has_key K_dec key k) l) ks
     else flat_map (fun k => filter (has_key K_dec key k) l) ks).
Proof.
  induction 1 as [|k ks Hk Hnd IH]; [reflexivity|].
  cbn [flat_map filter]. unfold has_key at 1.
  destruct (K_dec (key a) k) as [E|E].
  - destruct (in_dec K_dec (key a) (k :: ks)) as [_|N]; [|exfalso; apply N; now left].
    destruct (in_dec K_dec (key a) ks) as [I|_]; [exfalso; apply Hk; now rewrite <- E|].
    simpl. constructor. now apply Permutation_app_head.
  - destruct (in_dec K_dec (key a) (k :: ks)) as [I|N];
      destruct (in_dec K_dec (key a) ks) as [I'|N'].
    + rewrite IH. symmetry. apply Permutation_middle.
    + exfalso. destruct I as [I|I]; [now apply E | now apply N'].
    + exfalso. apply N. now right.
    + now apply Permutation_app_head.
Qed.

(** The groups partition the rows. *)
Lemma group_by_partition (l : list A) :
  Permutation (flat_map snd (group_by K_dec key l)) l.
Proof.
  unfold group_by. rewrite flat_map_concat_map, map_map. cbn [snd].
  rewrite <- flat_map_concat_map.
  assert (G : forall ks, NoDup ks -> incl (map key l) ks ->
              Permutation (flat_map (fun k => filter (has_key K_dec key k) l) ks) l).
  { induction l as [|a t IH]; intros ks Hnd Hincl.
    - clear. induction ks; simpl; auto.
    - rewrite partition_cons by exact Hnd.
      destruct (in_dec K_dec (key a) ks) as [_|N].
      + constructor. apply IH; [exact Hnd|]. intros k Hk. apply Hincl. now right.
      + exfalso. apply N, Hincl. now left. }
  apply G; [apply NoDup_nodup|]. intros k Hk. now apply (nodup_In K_dec).
Qed.
End GroupByFacts.

(** ** The join *)

Lemma join_sensors_In (readings : list SensorReading) (sensors : list Sensor) (j : Joined) :
  In j (join_sensors readings sensors) <->
  In (r_ j) readings /\ In (s_ j) sensors /\ s_sensor_id (s_ j) = r_sensor_id (r_ j).
Proof.
  unfold join_sensors. rewrite in_flat_map. split.
  - intros [r [Hr Hj]]. apply in_map_iff in Hj. destruct Hj as [s [<- Hs]].
    apply filter_In in Hs. destruct Hs as [Hs E]. simpl. repeat split; auto.
    now apply Z.eqb_eq.
  - intros [Hr [Hs E]]. exists (r_ j). split; [exact Hr|].
    apply in_map_iff. exists (s_ j). split; [now destruct j|].
    apply filter_In. split; [exact Hs | now apply Z.eqb_eq].
Qed.

Lemma join_sensors_app (a b : list SensorReading) (sensors : list Sensor) :
  join_sensors (a ++ b) sensors = join_sensors a sensors ++ join_sensors b sensors.
Proof. apply flat_map_app. Qed.

(** A reading without a sensor row joins with nothing. *)
Lemma join_sensors_unmatched (before after : list SensorReading) (r : SensorReading)
      (sensors : list Sensor) :
  (forall s, In s sensors -> s_sensor_id s <> r_sensor_id r) ->
  join_sensors (before ++ r :: after) sensors = join_sensors (before ++ after) sensors.
Proof.
  intros H. rewrite !join_sensors_app. f_equal.
  change (r :: after) with ([r] ++ after). rewrite join_sensors_app.
  replace (join_sensors [r] sensors) with (@nil Joined); [reflexivity|].
  unfold join_sensors. simpl. rewrite app_nil_r.
  replace (filter (fun s => s_sensor_id s =? r_sensor_id r) sensors) with (@nil Sensor);
    [reflexivity|].
  symmetry. induction sensors as [|s t IH]; [reflexivity|]. simpl.
  destruct (Z.eqb_spec (s_sensor_id s) (r_sensor_id r)) as [E|_].
  - exfalso. apply (H s); [now left | exact E].
  - apply IH. intros s' Hs'. apply H. now right.
Qed.

(** ** The page script on each title *)

Section CycleFacts.
Variable numeric_sqrt : Q -> Q.

Lemma cycle_flow rs ss :
  cycle numeric_sqrt "1. Identification of traffic peaks and flow intensity" rs ss
  = if is_nil (query1 rs ss) then no_data
    else render "1. Identification of traffic peaks and flow intensity"
                (FlowFrame (query1 rs ss)).
Proof. reflexivity. Qed.

Lemma cycle_outlier rs ss :
  cycle numeric_sqrt "2. Movement efficiency assessment with slowdown detection" rs ss
  = if is_nil (Float8.query2 rs ss) then no_data
    else Ok (outlier_chart (Float8.query2 rs ss)).
Proof. reflexivity. Qed.

Lemma cycle_rolling rs ss :
  cycle numeric_sqrt "3. Dynamic evaluation of traffic conditions" rs ss
  = if is_nil (query3 rs ss) then no_data
    else Ok (rolling_chart (query3 rs ss)).
Proof. reflexivity. Qed.

Lemma cycle_density rs ss :
  cycle numeric_sqrt "4. Density-speed correlation" rs ss
  = if is_nil (query4 rs ss) then no_data
    else Ok (density_metric
               (corr (map (fun x => float8_of_Z (ds_vehicle_count x)) (query4 rs ss))
                     (map (fun x => float8_of_numeric (ds_avg_speed x)) (query4 rs ss)))
               (query4 rs ss)).
Proof. reflexivity. Qed.

Lemma cycle_trend rs ss :
  cycle numeric_sqrt "5. Daily traffic trend" rs ss
  = if is_nil (query5 rs) then no_data else Ok (trend_chart (query5 rs)).
Proof. reflexivity. Qed.

Lemma cycle_anomaly rs ss :
  cycle numeric_sqrt "6. Irregular patterns and possible incidents" rs ss
  = rows <- query6 numeric_sqrt rs ss ;;
    if is_nil rows then no_data
    else if forallb (fun x => is_null (z_score x)) rows
         then Raised (type_error "bad operand type for abs(): 'NoneType'")
         else Ok (anomaly_chart rows).
Proof.
  unfold cycle. cbn [lookup QUERIES String.eqb Ascii.eqb Bool.eqb].
  destruct (query6 numeric_sqrt rs ss) as [[|row rows]|e]; reflexivity.
Qed.

Lemma cycle_road_type rs ss :
  cycle numeric_sqrt "7. Comparison of speed and time by road type" rs ss
  = if is_nil (query7 rs ss) then no_data
    else Ok (road_type_chart (query7 rs ss)).
Proof. reflexivity. Qed.
End CycleFacts.

(** ** Readings without a sensor row (C9) *)

(** C9.  A reading whose [sensor_id] has no row in [sensors], wherever it
    stands among the readings, changes nothing in the six views that join
    readings with sensors: each query returns the rows it returns without
    that reading (hourly flow and its ranks, outlier classification, rolling
    average, density/speed summary, anomaly scores, road-type breakdown), and
    the page shows the same thing, so the reading raises no error either. *)
Theorem unmatched_reading_is_excluded
        (numeric_sqrt : Q -> Q) (before after : list SensorReading)
        (r : SensorReading) (sensors : list Sensor) :
  (forall s, In s sensors -> s_sensor_id s <> r_sensor_id r) ->
  let present := before ++ r :: after in
  let absent := before ++ after in
  hourly_flow present sensors = hourly_flow absent sensors
  /\ query1 present sensors = query1 absent sensors
  /\ query2 present sensors = query2 absent sensors
  /\ query3 present sensors = query3 absent sensors
  /\ query4 present sensors = query4 absent sensors
  /\ query6 numeric_sqrt present sensors = query6 numeric_sqrt absent sensors
  /\ query7 present sensors = query7 absent sensors
  /\ forall title, In title joined_views ->
       cycle numeric_sqrt title present sensors
       = cycle numeric_sqrt title absent sensors.
Proof.
  intros H present absent.
  assert (J : join_sensors present sensors = join_sensors absent sensors)
    by now apply join_sensors_unmatched.
  assert (E1 : query1 present sensors = query1 absent sensors)
    by (unfold query1, hourly_flow; now rewrite J).
  assert (E2 : query2 present sensors = query2 absent sensors)
    by (unfold query2, classified, speed_stats; now rewrite J).
  assert (F2 : Float8.query2 present sensors = Float8.query2 absent sensors)
    by (unfold Float8.query2, Float8.classified, Float8.speed_stats; now rewrite J).
  assert (E3 : query3 present sensors = query3 absent sensors)
    by (unfold query3; now rewrite J).
  assert (E4 : query4 present sensors = query4 absent sensors)
    by (unfold query4; now rewrite J).
  assert (E6 : query6 numeric_sqrt present sensors = query6 numeric_sqrt absent sensors)
    by (unfold query6, stats; now rewrite J).
  assert (E7 : query7 present sensors = query7 absent sensors)
    by (unfold query7; now rewrite J).
  repeat split; try assumption.
  - unfold hourly_flow. now rewrite J.
  - intros title Ht. unfold joined_views in Ht. simpl in Ht.
    destruct Ht as [<-|[<-|[<-|[<-|[<-|[<-|[]]]]]]].
    + now rewrite !cycle_flow, E1.
    + now rewrite !cycle_outlier, F2.
    + now rewrite !cycle_rolling, E3.
    + now rewrite !cycle_density, E4.
    + now rewrite !cycle_anomaly, E6.
    + now rewrite !cycle_road_type, E7.
Qed.

(** A reading of an unknown sensor 9 between two readings of sensor 1. *)
Lemma unmatched_reading_is_excluded_witness :
  let present := timed 1 0 [50%Q] ++ mkReading 9 7 (120 # 1) 30 :: timed 1 60 [60%Q] in
  let absent := timed 1 0 [50%Q] ++ timed 1 60 [60%Q] in
  hourly_flow present two_sensors = hourly_flow absent two_sensors
  /\ query1 present two_sensors = query1 absent two_sensors
  /\ query2 present two_sensors = query2 absent two_sensors
  /\ query3 present two_sensors = query3 absent two_sensors
  /\ query4 present two_sensors = query4 absent two_sensors
  /\ query6 sqrt16 present two_sensors = query6 sqrt16 absent two_sensors
  /\ query7 present two_sensors = query7 absent two_sensors
  /\ forall title, In title joined_views ->
       cycle sqrt16 title present two_sensors = cycle sqrt16 title absent two_sensors.
Proof.
  apply (unmatched_reading_is_excluded sqrt16 (timed 1 0 [50%Q])
           (timed 1 60 [60%Q]) (mkReading 9 7 (120 # 1) 30) two_sensors).
  intros s [<-|[<-|[]]]; simpl; discriminate.
Defined.

(** ** The empty snapshot (C8) *)

(** C8.  [QUERIES] has seven entries.  On a snapshot without readings each
    of the seven statements returns no row at all, and for each of the seven
    titles the page shows the warning "No data returned.": nothing is
    raised, and no chart or table of default values is drawn. *)
Theorem empty_snapshot_shows_no_data (numeric_sqrt : Q -> Q) (sensors : list Sensor) :
  length (QUERIES numeric_sqrt) = 7%nat
  /\ query1 [] sensors = []
  /\ query2 [] sensors = []
  /\ query3 [] sensors = []
  /\ query4 [] sensors = []
  /\ query5 [] = []
  /\ query6 numeric_sqrt [] sensors = Ok []
  /\ query7 [] sensors = []
  /\ Forall (fun title =>
               cycle numeric_sqrt title [] sensors
               = Ok (st_warning "No data returned."))
            (map fst (QUERIES numeric_sqrt)).
Proof.
  repeat split. repeat constructor.
Qed.

(** ** The hourly flow (C5) *)

Lemma date_trunc_hour_spec (t : Z) :
  date_trunc_hour (date_trunc_hour t) = date_trunc_hour t
  /\ date_trunc_hour t mod 3600 = 0
  /\ date_trunc_hour t <= t < date_trunc_hour t + 3600.
Proof.
  unfold date_trunc_hour.
  assert (E : 3600 * (t / 3600) / 3600 = t / 3600)
    by (rewrite Z.mul_comm; apply Z.div_mul; lia).
  assert (M : (3600 * (t / 3600)) mod 3600 = 0)
    by (rewrite Z.mul_comm; apply Z.mod_mul; lia).
  pose proof (Z.div_mod t 3600). pose proof (Z.mod_pos_bound t 3600).
  rewrite E. repeat split; lia.
Qed.

Lemma hourly_flow_key (readings : list SensorReading) (sensors : list Sensor) :
  map (fun f => (hf_location_name f, hour_slot f)) (hourly_flow readings sensors)
  = nodup string_Z_dec (map flow_key (join_sensors readings sensors)).
Proof.
  unfold hourly_flow. rewrite map_map. cbn [hf_location_name hour_slot].
  rewrite <- (group_by_keys string_Z_dec flow_key). apply map_ext.
  now intros [[loc slot] g].
Qed.

(** C5.  The hourly-flow view has exactly one row for each pair of a
    location and an hour slot that some joined reading falls in, the hour
    slot being the reading's time truncated to the hour (a multiple of 3600
    seconds, at most the time and less than an hour before it), and the
    [vehicle_count] of a row is the number of distinct vehicle ids among
    the readings of that location and hour: it is the length of a
    duplicate-free list of exactly those ids, so a vehicle seen several
    times there counts once. *)
Theorem hourly_flow_counts_distinct_vehicles
        (readings : list SensorReading) (sensors : list Sensor) :
  let joined := join_sensors readings sensors in
  let view := hourly_flow readings sensors in
  NoDup (map (fun f => (hf_location_name f, hour_slot f)) view)
  /\ (forall j, In j joined ->
        exists f, In f view
                  /\ hf_location_name f = location_name (s_ j)
                  /\ hour_slot f = date_trunc_hour (record_time (r_ j)))
  /\ (forall f, In f view ->
        exists ids, NoDup ids /\ ids <> []
          /\ (forall v, In v ids <->
                exists j, In j joined
                          /\ location_name (s_ j) = hf_location_name f
                          /\ date_trunc_hour (record_time (r_ j)) = hour_slot f
                          /\ vehicle_id (r_ j) = v)
          /\ vehicle_count f = Z.of_nat (length ids))
  /\ (forall t, date_trunc_hour t mod 3600 = 0
                /\ date_trunc_hour t <= t < date_trunc_hour t + 3600).
Proof.
  intros joined view. repeat split.
  - unfold view. rewrite hourly_flow_key. apply NoDup_nodup.
  - intros j Hj.
    assert (Hk : In (flow_key j) (map (fun f => (hf_location_name f, hour_slot f)) view)).
    { unfold view. rewrite hourly_flow_key. apply nodup_In. now apply in_map. }
    apply in_map_iff in Hk. destruct Hk as [f [E Hf]]. exists f.
    unfold flow_key in E. inversion E. auto.
  - intros f Hf. unfold view, hourly_flow in Hf. apply in_map_iff in Hf.
    destruct Hf as [[[loc slot] g] [<- Hg]]. cbn [fst snd] in *.
    pose proof (group_by_nonempty _ _ _ _ Hg) as Hne.
    apply group_by_In in Hg. cbn [fst snd] in Hg. destruct Hg as [_ ->].
    fold joined in Hne |- *. cbn [snd] in Hne.
    exists (nodup Z.eq_dec (map (fun j => vehicle_id (r_ j))
                              (filter (has_key string_Z_dec flow_key (loc, slot)) joined))).
    cbn [hf_location_name hour_slot vehicle_count]. repeat split.
    + apply NoDup_nodup.
    + destruct (filter (has_key string_Z_dec flow_key (loc, slot)) joined) as [|j t] eqn:E;
        [congruence|].
      intros N. assert (I : In (vehicle_id (r_ j)) []); [|exact I].
      rewrite <- N. apply nodup_In. now left.
    + intros Hv. apply nodup_In, in_map_iff in Hv. destruct Hv as [j [<- Hj]].
      apply filter_In in Hj. destruct Hj as [Hj Hk]. apply has_key_true in Hk.
      unfold flow_key in Hk. inversion Hk. exists j. auto.
    + intros [j [Hj [El [Es <-]]]]. apply nodup_In.
      apply (in_map (fun j => vehicle_id (r_ j))).
      apply filter_In. split; [exact Hj|]. apply has_key_true.
      unfold flow_key. now rewrite El, Es.
  - apply date_trunc_hour_spec.
  - apply date_trunc_hour_spec.
  - apply date_trunc_hour_spec.
Qed.

(** Vehicle 7 passes sensor 1 three times between 01:00 and 02:00 and
    vehicle 8 once: the row of that hour counts 2 vehicles. *)
Lemma hourly_flow_counts_distinct_vehicles_witness :
  hourly_flow [mkReading 1 7 50 3600; mkReading 1 7 52 3700; mkReading 1 8 49 3800;
               mkReading 1 7 51 7199] two_sensors
  = [mkFlow "Main Street" 3600 2]
  /\ exists ids, NoDup ids /\ ids <> []
       /\ (forall v, In v ids <->
             exists j, In j (join_sensors
                               [mkReading 1 7 50 3600; mkReading 1 7 52 3700;
                                mkReading 1 8 49 3800; mkReading 1 7 51 7199]
                               two_sensors)
                       /\ location_name (s_ j) = "Main Street"%string
                       /\ date_trunc_hour (record_time (r_ j)) = 3600
                       /\ vehicle_id (r_ j) = v)
       /\ 2 = Z.of_nat (length ids).
Proof.
  split; [reflexivity|].
  apply (proj1 (proj2 (proj2
    (hourly_flow_counts_distinct_vehicles
       [mkReading 1 7 50 3600; mkReading 1 7 52 3700; mkReading 1 8 49 3800;
        mkReading 1 7 51 7199] two_sensors)))
    (mkFlow "Main Street" 3600 2)).
  now left.
Defined.

(** ** The rank within a location (C2) *)

Lemma flat_map_perm {A B} (f g : A -> list B) (l : list A) :
  (forall a, In a l -> Permutation (f a) (g a)) ->
  Permutation (flat_map f l) (flat_map g l).
Proof.
  induction l as [|a t IH]; intros H; simpl; [constructor|].
  apply Permutation_app; [apply H; now left|]. apply IH. intros b Hb. apply H. now right.
Qed.

Lemma filter_map_length {A B} (f : A -> B) (p : B -> bool) (l : list A) :
  length (filter p (map f l)) = length (filter (fun x => p (f x)) l).
Proof.
  induction l as [|a t IH]; simpl; [reflexivity|]. destruct (p (f a)); simpl; congruence.
Qed.

Lemma filter_filter_length {A} (p q : A -> bool) (l : list A) :
  length (filter q (filter p l)) = length (filter (fun x => p x && q x) l).
Proof.
  induction l as [|a t IH]; simpl; [reflexivity|].
  destruct (p a); simpl; [destruct (q a); simpl; congruence | exact IH].
Qed.

Lemma filter_none_length {A} (p : A -> bool) (l : list A) :
  (forall x, In x l -> p x = false) -> length (filter p l) = 0%nat.
Proof.
  induction l as [|a t IH]; intros H; simpl; [reflexivity|].
  rewrite (H a) by now left. apply IH. intros x Hx. apply H. now right.
Qed.

Lemma filter_split_length {A} (p q r : A -> bool) (l : list A) :
  (forall x, In x l -> p x = q x || r x) ->
  (forall x, In x l -> q x && r x = false) ->
  (length (filter p l) = length (filter q l) + length (filter r l))%nat.
Proof.
  induction l as [|a t IH]; intros H1 H2; simpl; [reflexivity|].
  specialize (IH (fun x Hx => H1 x (or_intror Hx)) (fun x Hx => H2 x (or_intror Hx))).
  specialize (H1 a (or_introl eq_refl)). specialize (H2 a (or_introl eq_refl)).
  rewrite H1. destruct (q a), (r a); simpl in *; try discriminate; lia.
Qed.

(** In a partition sorted by descending count, the first peer of a row
    comes right after the rows of larger count. *)
Lemma first_peer_sorted (s : list HourlyFlow) (x : HourlyFlow) :
  StronglySorted (fun a b => vehicle_count b <= vehicle_count a) s ->
  In x s ->
  first_peer (vehicle_count x) s
  = 1 + Z.of_nat (length (filter (fun y => vehicle_count x <? vehicle_count y) s)).
Proof.
  induction 1 as [|y t Ht IH Hy]; intros Hx; [contradiction|].
  cbn [first_peer filter]. destruct (Z.eqb_spec (vehicle_count y) (vehicle_count x)) as [E|E].
  - rewrite E, Z.ltb_irrefl.
    rewrite filter_none_length; [reflexivity|].
    intros z Hz. apply Z.ltb_ge. rewrite <- E.
    rewrite Forall_forall in Hy. now apply Hy.
  - assert (Hin : In x t) by (destruct Hx as [->|Hx]; [congruence | exact Hx]).
    rewrite Forall_forall in Hy. specialize (Hy x Hin).
    replace (vehicle_count x <? vehicle_count y) with true by (symmetry; apply Z.ltb_lt; lia).
    rewrite (IH Hin). cbn [length]. lia.
Qed.

Lemma rank_partition_flows (p : list HourlyFlow) :
  map flow (rank_partition p) = order_by (desc (by_Z vehicle_count)) p.
Proof. unfold rank_partition. rewrite map_map. apply map_id. Qed.

Lemma rank_partition_spec (p : list HourlyFlow) (x : HourlyFlowRecord) :
  In x (rank_partition p) ->
  In (flow x) p
  /\ rank_within_location x
     = 1 + Z.of_nat (length (filter (fun y => vehicle_count (flow x) <? vehicle_count y) p)).
Proof.
  unfold rank_partition. intros H. apply in_map_iff in H. destruct H as [f [<- Hf]].
  cbn [flow rank_within_location]. split; [now apply order_by_In in Hf|].
  rewrite first_peer_sorted; [|apply order_by_Z_desc_sorted | exact Hf].
  do 2 f_equal. apply filter_perm_length, order_by_perm.
Qed.

Lemma rank_over_location_flows (hf : list HourlyFlow) :
  Permutation (map flow (rank_over_location hf)) hf.
Proof.
  unfold rank_over_location. rewrite flat_map_concat_map, concat_map, map_map.
  rewrite <- flat_map_concat_map.
  rewrite <- (group_by_partition string_dec hf_location_name hf) at 2.
  apply flat_map_perm. intros g _. rewrite rank_partition_flows. apply order_by_perm.
Qed.

Lemma rank_over_location_spec (hf : list HourlyFlow) (x : HourlyFlowRecord) :
  In x (rank_over_location hf) ->
  rank_within_location x = 1 + Z.of_nat (length (filter (outranks (flow x)) hf)).
Proof.
  unfold rank_over_location. intros H. apply in_flat_map in H.
  destruct H as [[loc p] [Hg Hx]]. apply group_by_In in Hg. cbn [fst snd] in *.
  destruct Hg as [_ ->]. apply rank_partition_spec in Hx. destruct Hx as [Hin ->].
  apply filter_In in Hin. destruct Hin as [_ Hloc]. apply has_key_true in Hloc.
  rewrite filter_filter_length. do 3 f_equal. apply filter_ext. intros y.
  unfold outranks, has_key. rewrite Hloc.
  destruct (string_dec (hf_location_name y) loc) as [E|E].
  - now rewrite (proj2 (String.eqb_eq _ _) E).
  - now rewrite (proj2 (String.eqb_neq _ _) E).
Qed.

(** Query 1 keeps the rows of [hourly_flow], each once. *)
Lemma query1_flows (readings : list SensorReading) (sensors : list Sensor) :
  Permutation (map flow (query1 readings sensors)) (hourly_flow readings sensors).
Proof.
  unfold query1. rewrite (Permutation_map flow (order_by_perm _ _)).
  apply rank_over_location_flows.
Qed.

Lemma query1_rank (readings : list SensorReading) (sensors : list Sensor)
      (x : HourlyFlowRecord) :
  In x (query1 readings sensors) ->
  rank_within_location x
  = 1 + Z.of_nat (length (filter (fun y => outranks (flow x) (flow y))
                                 (query1 readings sensors))).
Proof.
  intros H. unfold query1 in H. apply order_by_In in H.
  rewrite (rank_over_location_spec _ _ H). do 2 f_equal.
  rewrite <- (filter_map_length flow (outranks (flow x))).
  apply filter_perm_length. symmetry. apply query1_flows.
Qed.

(** C2.  In the result of query 1 the rank of a row is one more than the
    number of rows of its location with a larger [vehicle_count].  Hence a
    row whose count is the largest of its location has rank 1; rows of one
    location with equal counts have equal ranks; and when [y] has the next
    smaller count after [x] in their location (no row of the location has a
    count strictly between), the rank of [y] is the rank of [x] plus the
    number of rows of the location tied with [x].  For a location with
    counts 10, 50, 20 at hours 0, 1, 2 the ranks are: hour 1 first, hour 2
    second, hour 0 third. *)
Theorem rank_is_competition_rank (readings : list SensorReading) (sensors : list Sensor) :
  let out := query1 readings sensors in
  let loc := fun x => hf_location_name (flow x) in
  let count := fun x => vehicle_count (flow x) in
  (forall x, In x out ->
     rank_within_location x
     = 1 + Z.of_nat (length (filter (fun y => outranks (flow x) (flow y)) out))
     /\ ((forall y, In y out -> loc y = loc x -> count y <= count x) ->
         rank_within_location x = 1)
     /\ (forall y, In y out -> loc y = loc x -> count y = count x ->
         rank_within_location y = rank_within_location x)
     /\ (forall y, In y out -> loc y = loc x -> count y < count x ->
         (forall z, In z out -> loc z = loc x -> count z <= count y \/ count x <= count z) ->
         rank_within_location y
         = rank_within_location x
           + Z.of_nat (length (filter (fun z => ties (flow x) (flow z)) out))))
  /\ query1 three_hours two_sensors
     = [ mkFlowRecord (mkFlow "Main Street" 3600 50) 1;
         mkFlowRecord (mkFlow "Main Street" 7200 20) 2;
         mkFlowRecord (mkFlow "Main Street" 0 10) 3 ].
Proof.
  intros out loc count. split; [|vm_compute; reflexivity].
  intros x Hx. pose proof (query1_rank _ _ x Hx) as Rx. fold out in Rx.
  split; [exact Rx|]. split; [|split].
  - intros Hmax. rewrite Rx, filter_none_length; [reflexivity|].
    intros y Hy. unfold outranks.
    destruct (String.eqb_spec (hf_location_name (flow y)) (hf_location_name (flow x))) as [E|E];
      [|reflexivity].
    specialize (Hmax y Hy E). unfold count in Hmax. simpl. apply Z.ltb_ge. exact Hmax.
  - intros y Hy El Ec. rewrite Rx, (query1_rank _ _ y Hy). fold out.
    do 3 f_equal. apply filter_ext. intros z. unfold outranks.
    unfold loc in El. unfold count in Ec. now rewrite El, Ec.
  - intros y Hy El Ec Hnext. rewrite Rx, (query1_rank _ _ y Hy). fold out.
    rewrite (filter_split_length
               (fun z => outranks (flow y) (flow z))
               (fun z => outranks (flow x) (flow z))
               (fun z => ties (flow x) (flow z))).
    + lia.
    + intros z Hz. unfold outranks, ties. unfold loc in El. rewrite El.
      destruct (String.eqb_spec (hf_location_name (flow z)) (hf_location_name (flow x))) as [E|E];
        [|reflexivity].
      specialize (Hnext z Hz E). unfold count in *. simpl.
      destruct (Z.ltb_spec (vehicle_count (flow y)) (vehicle_count (flow z)));
        destruct (Z.ltb_spec (vehicle_count (flow x)) (vehicle_count (flow z)));
        destruct (Z.eqb_spec (vehicle_count (flow z)) (vehicle_count (flow x)));
        simpl; try reflexivity; lia.
    + intros z Hz. unfold outranks, ties.
      destruct (String.eqb (hf_location_name (flow z)) (hf_location_name (flow x)));
        [|reflexivity]. simpl.
      destruct (Z.ltb_spec (vehicle_count (flow x)) (vehicle_count (flow z)));
        destruct (Z.eqb_spec (vehicle_count (flow z)) (vehicle_count (flow x)));
        simpl; try reflexivity; lia.
Qed.

(** On [three_hours]: the row of hour 2 (20 vehicles) comes next after the
    row of hour 1 (50 vehicles, rank 1, tied with no other row), so its rank
    is 1 + 1. *)
Lemma rank_is_competition_rank_witness :
  rank_within_location (mkFlowRecord (mkFlow "Main Street" 7200 20) 2)
  = rank_within_location (mkFlowRecord (mkFlow "Main Street" 3600 50) 1)
    + Z.of_nat (length (filter
        (fun z => ties (mkFlow "Main Street" 3600 50) (flow z))
        (query1 three_hours two_sensors))).
Proof.
  pose proof (proj1 (rank_is_competition_rank three_hours two_sensors)
                (mkFlowRecord (mkFlow "Main Street" 3600 50) 1)) as H.
  cbv zeta in H.
  assert (E : query1 three_hours two_sensors
              = [ mkFlowRecord (mkFlow "Main Street" 3600 50) 1;
                  mkFlowRecord (mkFlow "Main Street" 7200 20) 2;
                  mkFlowRecord (mkFlow "Main Street" 0 10) 3 ])
    by (vm_compute; reflexivity).
  rewrite E in H |- *.
  destruct (H (or_introl eq_refl)) as [_ [_ [_ Hnext]]].
  apply Hnext.
  - right. now left.
  - reflexivity.
  - simpl. lia.
  - intros z [<-|[<-|[<-|[]]]] _; simpl; lia.
Defined.

(** ** The hourly trend (C6, C10) *)

Lemma order_by_sorted_id {A} (c : @ordering A) (l : list A) :
  StronglySorted (le_of c) l -> order_by c l = l.
Proof.
  induction 1 as [|x t Ht IH Hx]; [reflexivity|]. simpl. rewrite IH.
  destruct t as [|y t']; [reflexivity|]. simpl.
  inversion Hx as [|? ? Hy _]; subst. unfold le_of in Hy. now rewrite Hy.
Qed.

Lemma sorted_nth {A} (R : A -> A -> Prop) (l : list A) (i j : nat) (a b : A) :
  StronglySorted R l -> (i < j)%nat ->
  nth_error l i = Some a -> nth_error l j = Some b -> R a b.
Proof.
  intros H. revert i j. induction H as [|x t Ht IH Hx]; intros i j Hij Ha Hb.
  - destruct i; discriminate.
  - destruct j as [|j]; [lia|]. simpl in Hb. destruct i as [|i].
    + simpl in Ha. inversion Ha; subst. rewrite Forall_forall in Hx.
      apply Hx. eapply nth_error_In. exact Hb.
    + simpl in Ha. apply (IH i j); [lia | exact Ha | exact Hb].
Qed.

Lemma lag_scan_hours (prev : option Q) (l : list (Z * Q)) :
  map hour_of_day (lag_scan prev l) = map fst l.
Proof.
  revert prev. induction l as [|[h a] t IH]; intros prev; simpl; [reflexivity|].
  now rewrite IH.
Qed.

Lemma lag_scan_In (prev : option Q) (l : list (Z * Q)) (row : HourlyTrendRecord) :
  In row (lag_scan prev l) ->
  In (hour_of_day row, avg_speed row) l
  /\ delta_speed row
     = option_map (fun p => round2 (avg_speed row - p)) (prev_hour_speed row).
Proof.
  revert prev. induction l as [|[h a] t IH]; intros prev; simpl; [contradiction|].
  intros [<-|H]; [simpl; auto|].
  destruct (IH _ H) as [H1 H2]. auto.
Qed.

Lemma lag_scan_first (prev : option Q) (l : list (Z * Q)) (row : HourlyTrendRecord) :
  nth_error (lag_scan prev l) 0 = Some row -> prev_hour_speed row = prev.
Proof.
  destruct l as [|[h a] t]; simpl; [discriminate|]. intros H. now inversion H.
Qed.

Lemma lag_scan_next (prev : option Q) (l : list (Z * Q)) (i : nat)
      (a b : HourlyTrendRecord) :
  nth_error (lag_scan prev l) i = Some a ->
  nth_error (lag_scan prev l) (S i) = Some b ->
  prev_hour_speed b = Some (avg_speed a).
Proof.
  revert prev i. induction l as [|[h v] t IH]; intros prev i Ha Hb;
    [destruct i; discriminate|].
  destruct i as [|i].
  - simpl in Ha. inversion Ha; subst. simpl in Hb. cbn [avg_speed].
    now apply lag_scan_first in Hb.
  - simpl in Ha, Hb. exact (IH _ _ Ha Hb).
Qed.

(** The rows of [hourly], sorted by hour, have strictly increasing hours. *)
Lemma hourly_sorted (readings : list SensorReading) :
  StronglySorted (fun a b => fst a < fst b) (order_by (by_Z fst) (hourly readings)).
Proof.
  assert (Hnd : NoDup (map fst (order_by (by_Z fst) (hourly readings)))).
  { apply (Permutation_NoDup (l := map fst (hourly readings))).
    - apply Permutation_map. symmetry. apply order_by_perm.
    - unfold hourly. rewrite map_map. cbn [fst].
      change (fun x : Z * list SensorReading => fst x) with (@fst Z (list SensorReading)).
      apply group_by_NoDup. }
  pose proof (order_by_Z_sorted (@fst Z Q) (hourly readings)) as Hs.
  induction Hs as [|x t Ht IH Hx]; [constructor|].
  simpl in Hnd. inversion Hnd as [|? ? Hnotin Hnd']; subst.
  constructor; [now apply IH|].
  rewrite Forall_forall in *. intros y Hy. specialize (Hx y Hy).
  assert (fst x <> fst y); [|lia].
  intros E. apply Hnotin. rewrite E. now apply in_map.
Qed.

(** The final [ORDER BY hour_of_day] finds the rows already in order. *)
Lemma query5_unfold (readings : list SensorReading) :
  query5 readings = lag_scan None (order_by (by_Z fst) (hourly readings)).
Proof.
  unfold query5. apply order_by_sorted_id.
  pose proof (hourly_sorted readings) as Hs.
  assert (G : forall prev l, StronglySorted (fun a b : Z * Q => fst a < fst b) l ->
              StronglySorted (le_of (by_Z hour_of_day)) (lag_scan prev l)).
  { intros prev l H. revert prev. induction H as [|[h a] t Ht IH Hx]; intros prev;
      simpl; constructor; [apply IH|].
    rewrite Forall_forall in *. intros row Hrow. apply leb_by_Z. cbn [hour_of_day].
    apply lag_scan_In in Hrow. destruct Hrow as [Hrow _].
    specialize (Hx _ Hrow). simpl in Hx. lia. }
  now apply G.
Qed.

Lemma query5_sorted (readings : list SensorReading) :
  StronglySorted (fun a b => hour_of_day a < hour_of_day b) (query5 readings).
Proof.
  rewrite query5_unfold. pose proof (hourly_sorted readings) as Hs.
  revert Hs. generalize (order_by (by_Z fst) (hourly readings)) (@None Q).
  intros l. induction l as [|[h a] t IH]; intros prev Hs; simpl; [constructor|].
  inversion Hs as [|? ? Ht Hx]; subst. constructor; [now apply IH|].
  rewrite Forall_forall in *. intros row Hrow. apply lag_scan_In in Hrow.
  destruct Hrow as [Hrow _]. specialize (Hx _ Hrow). exact Hx.
Qed.

(** A row of the trend stands for an hour of some reading, and carries the
    exact average of the speeds read in that hour. *)
Lemma query5_row (readings : list SensorReading) (row : HourlyTrendRecord) :
  In row (query5 readings) ->
  (exists r, In r readings /\ extract_hour (record_time r) = hour_of_day row)
  /\ avg_speed row
     = avg (map speed (filter (fun r => extract_hour (record_time r) =? hour_of_day row)
                              readings)).
Proof.
  rewrite query5_unfold. intros H. apply lag_scan_In in H. destruct H as [H _].
  apply order_by_In in H. unfold hourly in H. apply in_map_iff in H.
  destruct H as [[h g] [E Hg]]. cbn [fst snd] in E. inversion E as [[Eh Ea]].
  apply group_by_In in Hg. cbn [fst snd] in Hg. destruct Hg as [Hk ->]. split.
  - apply in_map_iff in Hk. destruct Hk as [r [Hr Hin]]. exists r.
    split; [exact Hin | congruence].
  - rewrite <- Eh. do 2 f_equal. apply filter_ext. intros r. unfold has_key.
    destruct (Z.eq_dec (extract_hour (record_time r)) h) as [->|N].
    + symmetry. apply Z.eqb_refl.
    + symmetry. now apply Z.eqb_neq.
Qed.

Lemma query5_hours (readings : list SensorReading) (r : SensorReading) :
  In r readings -> In (extract_hour (record_time r)) (map hour_of_day (query5 readings)).
Proof.
  intros Hr. rewrite query5_unfold, lag_scan_hours.
  apply (Permutation_in (l := map fst (hourly readings))).
  - apply Permutation_map. symmetry. apply order_by_perm.
  - unfold hourly. rewrite map_map. cbn [fst].
    change (fun x : Z * list SensorReading => fst x) with (@fst Z (list SensorReading)).
    rewrite group_by_keys. apply nodup_In.
    now apply (in_map (fun r => extract_hour (record_time r))).
Qed.

Lemma extract_hour_range (t : Z) : 0 <= extract_hour t < 24.
Proof. unfold extract_hour. apply Z.mod_pos_bound. lia. Qed.

Example round2_half_away_from_zero :
  round2 (125 # 1000) = (13 # 100)%Q /\ round2 (- (125 # 1000)) = (- 13 # 100)%Q
  /\ round2 (1234 # 1000) = (123 # 100)%Q /\ round2 0 = (0 # 100)%Q.
Proof. repeat split. Qed.

Lemma hundredths (n : Z) : (n # 100 == inject_Z n * (1 # 100))%Q.
Proof. unfold Qeq. simpl. lia. Qed.

(** [round2 x] is a whole number of hundredths, at most half a hundredth
    away from [x]. *)
Lemma round2_spec (x : Q) :
  exists n : Z, round2 x = (n # 100)%Q /\ (Qabs (round2 x - x) <= 1 # 200)%Q.
Proof.
  unfold round2. set (n := Qfloor (Qabs x * 100 + (1 # 2))%Q).
  pose proof (Qfloor_le (Qabs x * 100 + (1 # 2))%Q) as Hlo.
  pose proof (Qlt_floor (Qabs x * 100 + (1 # 2))%Q) as Hhi.
  fold n in Hlo, Hhi. rewrite inject_Z_plus in Hhi.
  change (inject_Z 1) with 1%Q in Hhi.
  destruct (Qle_bool 0 x) eqn:E.
  - exists n. split; [reflexivity|]. apply Qle_bool_iff in E.
    rewrite (Qabs_pos x E) in Hlo, Hhi.
    apply Qabs_Qle_condition. rewrite (hundredths n). split; lra.
  - exists (- n). split; [reflexivity|].
    assert (Hneg : (x <= 0)%Q).
    { destruct (Qlt_le_dec x 0) as [H|H]; [lra|].
      apply Qle_bool_iff in H. congruence. }
    rewrite (Qabs_neg x Hneg) in Hlo, Hhi.
    apply Qabs_Qle_condition. rewrite (hundredths (- n)), inject_Z_opp. split; lra.
Qed.

(** C6 as stated fails: on [trend_sample] the previous hour's average is 50
    and the hour's average 50.125, yet [delta_speed] is 0.13, not 0.125. *)
Lemma delta_speed_differs_from_exact_difference :
  exists p h d,
    query5 trend_sample = [p; h]
    /\ prev_hour_speed h = Some (avg_speed p)
    /\ (avg_speed p == 50)%Q /\ (avg_speed h == 50125 # 1000)%Q
    /\ delta_speed h = Some d
    /\ (d == 13 # 100)%Q
    /\ ~ (d == avg_speed h - avg_speed p)%Q.
Proof.
  do 3 eexists. split; [vm_compute; reflexivity|].
  repeat split; try (vm_compute; reflexivity).
  intros H. vm_compute in H. discriminate.
Qed.

(** C6, amended.  The rows of the trend are the hours some reading falls in
    (each between 0 and 23), in strictly increasing order.  The first row
    has no [prev_hour_speed] and no [delta_speed], whatever the last hour
    is: nothing wraps from hour 23 to hour 0.  For any two consecutive rows
    [p], [h], no reading falls in an hour strictly between theirs, the
    [prev_hour_speed] of [h] is the [avg_speed] of [p], and the
    [delta_speed] of [h] is their difference rounded to two decimals. *)
Theorem trend_delta_follows_preceding_hour (readings : list SensorReading) :
  let out := query5 readings in
  (forall h, In h (map hour_of_day out) <->
             exists r, In r readings /\ extract_hour (record_time r) = h)
  /\ (forall t, 0 <= extract_hour t < 24)
  /\ StronglySorted (fun a b => hour_of_day a < hour_of_day b) out
  /\ (forall a, nth_error out 0 = Some a ->
        prev_hour_speed a = None /\ delta_speed a = None)
  /\ (forall i p h, nth_error out i = Some p -> nth_error out (S i) = Some h ->
        hour_of_day p < hour_of_day h
        /\ (forall r, In r readings ->
              ~ (hour_of_day p < extract_hour (record_time r) < hour_of_day h))
        /\ prev_hour_speed h = Some (avg_speed p)
        /\ delta_speed h = Some (round2 (avg_speed h - avg_speed p))).
Proof.
  intros out. pose proof (query5_sorted readings) as Hs. fold out in Hs.
  split; [|split; [|split; [|split]]].
  - intros h. split.
    + intros H. apply in_map_iff in H. destruct H as [row [<- Hrow]].
      now apply query5_row in Hrow.
    + intros [r [Hr <-]]. now apply query5_hours.
  - apply extract_hour_range.
  - exact Hs.
  - intros a Ha. assert (Hin : In a out) by (eapply nth_error_In; exact Ha).
    unfold out in Ha, Hin. rewrite query5_unfold in Ha, Hin.
    apply lag_scan_first in Ha. apply lag_scan_In in Hin. destruct Hin as [_ Hd].
    rewrite Hd, Ha. auto.
  - intros i p h Hp Hh.
    assert (Hlt : hour_of_day p < hour_of_day h)
      by (apply (sorted_nth _ out i (S i) p h Hs); [lia | exact Hp | exact Hh]).
    assert (Hprev : prev_hour_speed h = Some (avg_speed p)).
    { unfold out in Hp, Hh. rewrite query5_unfold in Hp, Hh.
      exact (lag_scan_next _ _ _ _ _ Hp Hh). }
    repeat split; try assumption.
    + intros r Hr [Hlo Hhi]. apply query5_hours in Hr. fold out in Hr.
      apply in_map_iff in Hr. destruct Hr as [c [Ec Hc]].
      apply In_nth_error in Hc. destruct Hc as [k Hk].
      destruct (Nat.lt_trichotomy k i) as [L|[->|L]].
      * pose proof (sorted_nth _ out k i c p Hs L Hk Hp) as G. cbv beta in G. lia.
      * rewrite Hp in Hk. inversion Hk; subst. lia.
      * destruct (Nat.eq_dec k (S i)) as [->|N].
        -- rewrite Hh in Hk. inversion Hk; subst. lia.
        -- assert (L' : (S i < k)%nat) by lia.
           pose proof (sorted_nth _ out (S i) k h c Hs L' Hh Hk) as G.
           cbv beta in G. lia.
    + assert (Hin : In h out) by (eapply nth_error_In; exact Hh).
      unfold out in Hin. rewrite query5_unfold in Hin.
      apply lag_scan_In in Hin. destruct Hin as [_ Hd]. now rewrite Hd, Hprev.
Qed.

(** On [trend_sample], hour 1 follows hour 0. *)
Lemma trend_delta_follows_preceding_hour_witness :
  exists p h,
    nth_error (query5 trend_sample) 0 = Some p
    /\ nth_error (query5 trend_sample) 1 = Some h
    /\ hour_of_day p = 0 /\ hour_of_day h = 1
    /\ prev_hour_speed p = None /\ delta_speed p = None
    /\ prev_hour_speed h = Some (avg_speed p)
    /\ delta_speed h = Some (round2 (avg_speed h - avg_speed p)).
Proof.
  destruct (trend_delta_follows_preceding_hour trend_sample) as [_ [_ [_ [H0 H1]]]].
  cbv zeta in H0, H1.
  assert (E : exists p h, query5 trend_sample = [p; h]
                          /\ hour_of_day p = 0 /\ hour_of_day h = 1)
    by (do 2 eexists; split; [vm_compute; reflexivity | split; reflexivity]).
  destruct E as [p [h [E [Ep Eh]]]]. exists p, h.
  assert (N0 : nth_error (query5 trend_sample) 0 = Some p) by (rewrite E; reflexivity).
  assert (N1 : nth_error (query5 trend_sample) 1 = Some h) by (rewrite E; reflexivity).
  destruct (H0 p N0) as [P0 D0]. destruct (H1 0%nat p h N0 N1) as [_ [_ [P1 D1]]].
  repeat split; assumption.
Defined.

Lemma lag_scan_prev (prev : option Q) (l : list (Z * Q)) (row : HourlyTrendRecord) (p : Q) :
  In row (lag_scan prev l) -> prev_hour_speed row = Some p ->
  prev = Some p \/ exists h, In (h, p) l.
Proof.
  revert prev. induction l as [|[h a] t IH]; intros prev; simpl; [contradiction|].
  intros [<-|H] Hp; [now left|].
  right. destruct (IH _ H Hp) as [E|[h' Hin]].
  - inversion E; subst. exists h. now left.
  - exists h'. now right.
Qed.

Lemma order_by_hour_perm (l : list HourlyTrendRecord) :
  Permutation (order_by (by_Z hour_of_day) l) l.
Proof. apply order_by_perm. Qed.

Lemma trend_select_row (hourly_rows : list (Z * Q)) (row : HourlyTrendRecord) :
  In row (trend_select hourly_rows) ->
  In (hour_of_day row, avg_speed row) hourly_rows
  /\ (forall p, prev_hour_speed row = Some p -> exists h, In (h, p) hourly_rows)
  /\ delta_speed row
     = option_map (fun p => round2 (avg_speed row - p)) (prev_hour_speed row).
Proof.
  unfold trend_select. intros H. apply order_by_In in H.
  destruct (lag_scan_In _ _ _ H) as [Hin Hd]. split; [|split; [|exact Hd]].
  - now apply order_by_In in Hin.
  - intros p Hp. destruct (lag_scan_prev _ _ _ _ H Hp) as [E|[h Hh]]; [discriminate|].
    exists h. now apply order_by_In in Hh.
Qed.

(** C10.  The outer [SELECT] of the trend hands on the averages of [hourly]
    as they are: the [avg_speed] of a row and its [prev_hour_speed] are
    averages of rows of [hourly], with no [ROUND] applied to them, whatever
    scale [AVG] has carried them to.  A [delta_speed] is there exactly when
    a [prev_hour_speed] is, and is the difference of the two columns rounded
    to two decimals: a whole number of hundredths, at most half a hundredth
    away from the difference.  On the averages 50.3333333333333333 and
    50.3383333333333333 neither column is a whole number of hundredths and
    the delta is 0.01, not the difference 0.005; on [trend_sample] the
    delta 0.13 differs from the difference 0.125. *)
Theorem delta_speed_is_rounded (hourly_rows : list (Z * Q)) :
  (forall row, In row (trend_select hourly_rows) ->
     In (hour_of_day row, avg_speed row) hourly_rows
     /\ (forall p, prev_hour_speed row = Some p -> exists h, In (h, p) hourly_rows)
     /\ (prev_hour_speed row = None -> delta_speed row = None)
     /\ (forall p, prev_hour_speed row = Some p ->
           exists d, delta_speed row = Some d
                     /\ d = round2 (avg_speed row - p)
                     /\ (exists n : Z, d = (n # 100)%Q)
                     /\ (Qabs (d - (avg_speed row - p)) <= 1 # 200)%Q))
  /\ (forall readings, query5 readings = trend_select (hourly readings))
  /\ (exists row p d,
        nth_error (trend_select hourly_at_scale_16) 1
        = Some row
        /\ prev_hour_speed row = Some p /\ delta_speed row = Some d
        /\ ~ (avg_speed row == round2 (avg_speed row))%Q
        /\ ~ (p == round2 p)%Q
        /\ (avg_speed row - p == 5 # 1000)%Q
        /\ (d == 1 # 100)%Q)
  /\ (exists row p d,
        In row (query5 trend_sample)
        /\ prev_hour_speed row = Some p /\ delta_speed row = Some d
        /\ ~ (avg_speed row == round2 (avg_speed row))%Q
        /\ ~ (d == avg_speed row - p)%Q).
Proof.
  split; [|split; [|split]].
  - intros row Hrow. destruct (trend_select_row _ _ Hrow) as [Hin [Hp Hd]].
    split; [exact Hin|]. split; [exact Hp|]. split.
    + intros E. now rewrite E in Hd.
    + intros p E. rewrite E in Hd. simpl in Hd.
      exists (round2 (avg_speed row - p)). split; [exact Hd|]. split; [reflexivity|].
      destruct (round2_spec (avg_speed row - p)) as [n [En Hn]].
      split; [exists n; exact En | exact Hn].
  - reflexivity.
  - do 3 eexists. split; [vm_compute; reflexivity|].
    split; [reflexivity|]. split; [reflexivity|].
    repeat split; try (intros H; vm_compute in H; discriminate); vm_compute; reflexivity.
  - do 3 eexists. split; [vm_compute; right; left; reflexivity|].
    split; [reflexivity|]. split; [reflexivity|].
    split; intros H; vm_compute in H; discriminate.
Qed.

(** On [trend_sample] the row of hour 1 has a delta. *)
Lemma delta_speed_is_rounded_witness :
  exists row p d,
    In row (trend_select (hourly trend_sample))
    /\ prev_hour_speed row = Some p
    /\ delta_speed row = Some d
    /\ d = round2 (avg_speed row - p)
    /\ (Qabs (d - (avg_speed row - p)) <= 1 # 200)%Q.
Proof.
  assert (E : exists row p, In row (trend_select (hourly trend_sample))
                            /\ prev_hour_speed row = Some p)
    by (do 2 eexists; split; [vm_compute; right; left; reflexivity | reflexivity]).
  destruct E as [row [p [Hin Hp]]].
  destruct (proj1 (delta_speed_is_rounded (hourly trend_sample)) row Hin) as [_ [_ [_ H]]].
  destruct (H p Hp) as [d [Hd [Hr [_ Hb]]]].
  exists row, p, d. repeat split; assumption.
Defined.

(** ** The rolling average (C3) *)

Lemma frame_rows_length {A} (i : nat) (l : list A) :
  (i < length l)%nat -> length (frame_rows 5 i l) = Nat.min (S i) 6.
Proof.
  intros H. unfold frame_rows. rewrite length_skipn, length_firstn. lia.
Qed.

Lemma frame_rows_nth {A} (i k : nat) (l : list A) :
  (i < length l)%nat -> (k < Nat.min (S i) 6)%nat ->
  nth_error (frame_rows 5 i l) k = nth_error l (i - 5 + k).
Proof.
  intros Hi Hk. unfold frame_rows. rewrite nth_error_skipn, nth_error_firstn.
  destruct (Nat.ltb_spec (i - 5 + k) (S i)); [reflexivity | lia].
Qed.

Lemma frame_rows_incl {A} (i : nat) (l : list A) (x : A) :
  In x (frame_rows 5 i l) -> In x l.
Proof.
  unfold frame_rows. intros H.
  assert (H' : In x (firstn (S i) l)).
  { rewrite <- (firstn_skipn (i - 5) (firstn (S i) l)). apply in_or_app. now right. }
  rewrite <- (firstn_skipn (S i) l). apply in_or_app. now left.
Qed.

(** The window function keeps the rows of the ordered partition in place:
    the row at index [k] carries the average over the frame of index [k]. *)
Lemma window_avg_nth (sorted rest : list Joined) (i k : nat) :
  nth_error (window_avg sorted i rest) k
  = option_map
      (fun j => mkRolling (location_name (s_ j)) (record_time (r_ j))
                          (avg (speeds (frame_rows 5 (i + k) sorted))))
      (nth_error rest k).
Proof.
  revert i k. induction rest as [|j t IH]; intros i k.
  - now destruct k.
  - destruct k as [|k]; simpl.
    + now rewrite Nat.add_0_r.
    + rewrite IH. now rewrite Nat.add_succ_r.
Qed.

Lemma rolling_partition_group (sid : Z) (joined : list Joined) :
  rolling_partition (filter (has_key Z.eq_dec (fun j => s_sensor_id (s_ j)) sid) joined)
  = window_avg (sensor_partition sid joined) 0 (sensor_partition sid joined).
Proof.
  unfold rolling_partition, sensor_partition.
  replace (filter (has_key Z.eq_dec (fun j => s_sensor_id (s_ j)) sid) joined)
    with (filter (fun j => s_sensor_id (s_ j) =? sid) joined); [reflexivity|].
  apply filter_ext. intros j. unfold has_key.
  destruct (Z.eq_dec (s_sensor_id (s_ j)) sid) as [->|N].
  - apply Z.eqb_refl.
  - now apply Z.eqb_neq.
Qed.

Lemma sensor_partition_In (sid : Z) (joined : list Joined) (j : Joined) :
  In j (sensor_partition sid joined) <-> In j joined /\ s_sensor_id (s_ j) = sid.
Proof.
  unfold sensor_partition. rewrite order_by_In, filter_In, Z.eqb_eq. tauto.
Qed.

Lemma query3_In (readings : list SensorReading) (sensors : list Sensor)
      (row : RollingAverageRecord) :
  In row (query3 readings sensors) <->
  exists sid i j,
    nth_error (sensor_partition sid (join_sensors readings sensors)) i = Some j
    /\ row = mkRolling (location_name (s_ j)) (record_time (r_ j))
               (avg (speeds (frame_rows 5 i
                      (sensor_partition sid (join_sensors readings sensors))))).
Proof.
  unfold query3. rewrite order_by_In, in_flat_map. split.
  - intros [[sid g] [Hg Hrow]]. apply group_by_In in Hg. cbn [fst snd] in *.
    destruct Hg as [_ ->]. rewrite rolling_partition_group in Hrow.
    apply In_nth_error in Hrow. destruct Hrow as [i Hi].
    rewrite window_avg_nth in Hi. simpl in Hi.
    destruct (nth_error (sensor_partition sid (join_sensors readings sensors)) i)
      as [j|] eqn:E; [|discriminate].
    simpl in Hi. inversion Hi. exists sid, i, j. auto.
  - intros [sid [i [j [Hj ->]]]].
    exists (sid, filter (has_key Z.eq_dec (fun j => s_sensor_id (s_ j)) sid)
                        (join_sensors readings sensors)).
    split.
    + apply group_by_In. cbn [fst snd]. split; [|reflexivity].
      apply nth_error_In, sensor_partition_In in Hj. destruct Hj as [Hin <-].
      now apply (in_map (fun j => s_sensor_id (s_ j))).
    + cbn [snd]. rewrite rolling_partition_group.
      apply (nth_error_In _ i). rewrite window_avg_nth. simpl. now rewrite Hj.
Qed.

(** C3 as stated fails on its own example: for the ordered speeds 10 to 70
    the seventh row averages the six speeds 20 to 70, which is 45, not 40
    (40 is the mean of all seven). *)
Lemma seventh_rolling_average_is_not_40 :
  exists row,
    nth_error (query3 (timed 1 0 [10; 20; 30; 40; 50; 60; 70]%Q) two_sensors) 6 = Some row
    /\ (rolling_avg_speed row == 45)%Q
    /\ ~ (rolling_avg_speed row == 40)%Q.
Proof.
  eexists. split; [vm_compute; reflexivity|]. split; [reflexivity|].
  intros H. vm_compute in H. discriminate.
Qed.

(** C3, amended.  The rows of query 3 are, for each sensor and each index
    [i] of that sensor's joined rows taken by ascending [record_time], the
    row at [i] with the average of the speeds in its frame.  The frame
    holds the rows of the same ordered partition at indices [i - 5] to [i]:
    six rows from the sixth row on, and the [i + 1] rows there are before
    that; every row of it belongs to the same sensor, and the average
    divides the sum of its speeds by its length, which is never 0.  For a
    sensor with ordered speeds 10 to 70 the averages are 10, 15, 20, 25,
    30, 35 and 45: the first row's is 10, the seventh row's is 45. *)
Theorem rolling_average_window (readings : list SensorReading) (sensors : list Sensor) :
  let joined := join_sensors readings sensors in
  (forall row, In row (query3 readings sensors) <->
     exists sid i j,
       nth_error (sensor_partition sid joined) i = Some j
       /\ row = mkRolling (location_name (s_ j)) (record_time (r_ j))
                  (avg (speeds (frame_rows 5 i (sensor_partition sid joined)))))
  /\ (forall sid,
        let partition := sensor_partition sid joined in
        (forall j, In j partition <-> In j joined /\ s_sensor_id (s_ j) = sid)
        /\ length partition
           = length (filter (fun j => s_sensor_id (s_ j) =? sid) joined)
        /\ StronglySorted (fun a b => record_time (r_ a) <= record_time (r_ b)) partition
        /\ forall i, (i < length partition)%nat ->
             let window := frame_rows 5 i partition in
             length window = Nat.min (S i) 6
             /\ (forall k, (k < Nat.min (S i) 6)%nat ->
                   nth_error window k = nth_error partition (i - 5 + k))
             /\ (forall j, In j window -> s_sensor_id (s_ j) = sid)
             /\ avg (speeds window)
                = (Qsum (speeds window) / inject_Z (Z.of_nat (Nat.min (S i) 6)))%Q)
  /\ map (fun row => (ra_location_name row, ra_record_time row, Qred (rolling_avg_speed row)))
         (query3 rolling_sample two_sensors)
     = [ ("Main Street"%string, 0, 10%Q); ("Main Street"%string, 60, 15%Q);
         ("Main Street"%string, 120, 20%Q); ("Main Street"%string, 180, 25%Q);
         ("Main Street"%string, 240, 30%Q); ("Main Street"%string, 300, 35%Q);
         ("Main Street"%string, 360, 45%Q);
         ("Ring Road"%string, 30, 200%Q); ("Ring Road"%string, 90, 250%Q) ].
Proof.
  intros joined. split; [|split].
  - intros row. apply query3_In.
  - intros sid partition. split; [|split; [|split]].
    + intros j. apply sensor_partition_In.
    + apply order_by_length.
    + apply (order_by_Z_sorted (fun j : Joined => record_time (r_ j))).
    + intros i Hi window. split; [|split; [|split]].
      * now apply frame_rows_length.
      * intros k Hk. now apply frame_rows_nth.
      * intros j Hj. apply frame_rows_incl in Hj.
        now apply sensor_partition_In in Hj.
      * unfold avg, speeds. rewrite length_map. unfold window.
        now rewrite frame_rows_length.
  - vm_compute. reflexivity.
Qed.

(** On [rolling_sample]: the frame of the seventh row of sensor 1 (index 6)
    holds six rows, all of sensor 1, although two readings of sensor 2 fall
    between them in time. *)
Lemma rolling_average_window_witness :
  let partition := sensor_partition 1 (join_sensors rolling_sample two_sensors) in
  let window := frame_rows 5 6 partition in
  length window = 6%nat
  /\ (forall j, In j window -> s_sensor_id (s_ j) = 1)
  /\ avg (speeds window) = (Qsum (speeds window) / inject_Z (Z.of_nat 6))%Q.
Proof.
  intros partition window.
  destruct (proj1 (proj2 (rolling_average_window rolling_sample two_sensors)) 1)
    as [_ [_ [_ H]]].
  destruct (H 6%nat) as [H1 [_ [H3 H4]]]; [vm_compute; lia|].
  repeat split; assumption.
Defined.

(** ** The anomaly scores of a sensor without deviation (C4) *)

Lemma filter_has_key_Z {A} (f : A -> Z) (k : Z) (l : list A) :
  filter (has_key Z.eq_dec f k) l = filter (fun a => f a =? k) l.
Proof.
  apply filter_ext. intros a. unfold has_key.
  destruct (Z.eq_dec (f a) k) as [->|N].
  - symmetry. apply Z.eqb_refl.
  - symmetry. now apply Z.eqb_neq.
Qed.

Lemma Qsum_constant (l : list Q) (c : Q) :
  (forall v, In v l -> v == c)%Q ->
  (Qsum l == inject_Z (Z.of_nat (length l)) * c)%Q.
Proof.
  induction l as [|x t IH]; intros H.
  - cbn [Qsum fold_right length Z.of_nat]. change (inject_Z 0) with 0%Q. ring.
  - cbn [Qsum fold_right length]. fold (Qsum t).
    rewrite Nat2Z.inj_succ, <- Z.add_1_r, inject_Z_plus.
    rewrite (H x) by now left. rewrite IH by (intros v Hv; apply H; now right).
    change (inject_Z 1) with 1%Q. ring.
Qed.

Section AnomalyFacts.
Variable numeric_sqrt : Q -> Q.

(** Two or more equal values have standard deviation 0. *)
Lemma stddev_constant (l : list Q) (c : Q) :
  (2 <= length l)%nat -> (forall v, In v l -> v == c)%Q ->
  stddev numeric_sqrt l = Some 0%Q.
Proof.
  intros Hn Hc. unfold stddev.
  destruct (Nat.leb_spec (length l) 1) as [L|_]; [lia|].
  assert (S1 : (Qsum l == inject_Z (Z.of_nat (length l)) * c)%Q)
    by now apply Qsum_constant.
  assert (S2 : (Qsum (map (fun x => x * x) l)
                == inject_Z (Z.of_nat (length l)) * (c * c))%Q).
  { rewrite <- (length_map (fun x => x * x)%Q l). apply Qsum_constant.
    intros v Hv. apply in_map_iff in Hv. destruct Hv as [x [<- Hx]].
    now rewrite (Hc x Hx). }
  assert (Z0 : (inject_Z (Z.of_nat (length l)) * Qsum (map (fun x => x * x) l)
                - Qsum l * Qsum l <= 0)%Q).
  { rewrite S1, S2. generalize (inject_Z (Z.of_nat (length l))). intros n.
    assert (E : (n * (n * (c * c)) - n * c * (n * c) == 0)%Q) by ring.
    rewrite E. apply Qle_refl. }
  apply Qle_bool_iff in Z0. now rewrite Z0.
Qed.

Lemma stats_In (readings : list SensorReading) (sensors : list Sensor) (st : SensorStats) :
  In st (stats numeric_sqrt readings sensors) ->
  st = mkStats (st_sensor_id st)
               (avg (sensor_history (st_sensor_id st) readings sensors))
               (stddev numeric_sqrt (sensor_history (st_sensor_id st) readings sensors)).
Proof.
  unfold stats. intros H. apply in_map_iff in H. destruct H as [[sid g] [<- Hg]].
  apply group_by_In in Hg. cbn [fst snd] in *. destruct Hg as [_ ->].
  unfold sensor_history. cbn [st_sensor_id]. now rewrite filter_has_key_Z.
Qed.

Lemma stats_of_joined (readings : list SensorReading) (sensors : list Sensor) (j : Joined) :
  In j (join_sensors readings sensors) ->
  exists st, In st (stats numeric_sqrt readings sensors)
             /\ st_sensor_id st = s_sensor_id (s_ j).
Proof.
  intros Hj. unfold stats.
  assert (Hk : In (s_sensor_id (s_ j))
                  (map fst (group_by Z.eq_dec (fun j => s_sensor_id (s_ j))
                                     (join_sensors readings sensors)))).
  { rewrite group_by_keys. apply nodup_In.
    now apply (in_map (fun j => s_sensor_id (s_ j))). }
  apply in_map_iff in Hk. destruct Hk as [g [Eg Hg]].
  eexists. split; [apply in_map; exact Hg|]. exact Eg.
Qed.

Lemma anomaly_row_raises (j : Joined) (st : SensorStats) (e : exception) :
  anomaly_row j st = Raised e -> e = division_by_zero.
Proof.
  unfold anomaly_row, deviation, numeric_div.
  destruct (std_speed st) as [d|]; simpl; [|discriminate].
  destruct (Qeq_bool d 0); simpl; [|discriminate]. congruence.
Qed.
End AnomalyFacts.

Lemma for_each_raises {A B} (f : A -> outcome B) (l : list A) (a : A) (e : exception) :
  (forall b e', f b = Raised e' -> e' = e) ->
  In a l -> f a = Raised e -> for_each f l = Raised e.
Proof.
  intros Honly. induction l as [|x t IH]; intros Hin Ha; [contradiction|].
  simpl. destruct (f x) as [b|e'] eqn:E; simpl.
  - destruct Hin as [->|Hin]; [congruence|]. now rewrite IH.
  - now rewrite (Honly _ _ E).
Qed.

Lemma for_each_Ok {A B} (f : A -> outcome B) (l : list A) (bs : list B) (b : B) :
  for_each f l = Ok bs -> In b bs -> exists a, In a l /\ f a = Ok b.
Proof.
  revert bs. induction l as [|x t IH]; intros bs H Hb; simpl in H.
  - inversion H; subst. contradiction.
  - destruct (f x) as [y|e] eqn:E; simpl in H; [|discriminate].
    destruct (for_each f t) as [ys|e] eqn:E'; simpl in H; [|discriminate].
    inversion H; subst. destruct Hb as [<-|Hb].
    + exists x. split; [now left | exact E].
    + destruct (IH ys eq_refl Hb) as [a [Ha Hf]]. exists a. split; [now right | exact Hf].
Qed.

(** C4 as stated fails: two readings of sensor 1 at the same speed make the
    statement of query 6 fail with a division by zero, and the page script
    with it, instead of giving the readings a score. *)
Lemma constant_speed_sensor_raises :
  sensor_history 1 (timed 1 0 [50; 50]%Q) two_sensors = [50; 50]%Q
  /\ query6 sqrt16 (timed 1 0 [50; 50]%Q) two_sensors = Raised division_by_zero
  /\ cycle sqrt16 "6. Irregular patterns and possible incidents"
           (timed 1 0 [50; 50]%Q) two_sensors
     = Raised division_by_zero.
Proof. repeat split; vm_compute; reflexivity. Qed.

(** C4, amended.  Query 6 has no guard on [std_speed].  When some sensor
    has two or more joined readings, all of one speed, its standard
    deviation is 0, the division fails, and the whole statement (hence the
    page script) raises a division by zero: no row is returned for any
    sensor.  Only a sensor with a single joined reading is resolved without
    failure: its standard deviation is NULL, so in a result that is returned
    its [z_score] is NULL and its status is Regular. *)
Theorem zero_deviation_is_not_guarded
        (numeric_sqrt : Q -> Q) (readings : list SensorReading) (sensors : list Sensor) :
  (forall sid c,
     (2 <= length (sensor_history sid readings sensors))%nat ->
     (forall v, In v (sensor_history sid readings sensors) -> v == c)%Q ->
     stddev numeric_sqrt (sensor_history sid readings sensors) = Some 0%Q
     /\ query6 numeric_sqrt readings sensors = Raised division_by_zero
     /\ cycle numeric_sqrt "6. Irregular patterns and possible incidents"
              readings sensors
        = Raised division_by_zero)
  /\ (forall rows row,
        query6 numeric_sqrt readings sensors = Ok rows -> In row rows ->
        length (sensor_history (as_sensor_id row) readings sensors) = 1%nat ->
        z_score row = None /\ as_traffic_status row = Regular).
Proof.
  split.
  - intros sid c Hn Hc.
    pose proof (stddev_constant numeric_sqrt _ c Hn Hc) as Hsd.
    split; [exact Hsd|].
    assert (Hq : query6 numeric_sqrt readings sensors = Raised division_by_zero).
    { unfold sensor_history, speeds in Hn. rewrite length_map in Hn.
      destruct (filter (fun j => s_sensor_id (s_ j) =? sid)
                       (join_sensors readings sensors)) as [|j t] eqn:E;
        [simpl in Hn; lia|].
      assert (Hj : In j (filter (fun j => s_sensor_id (s_ j) =? sid)
                                (join_sensors readings sensors)))
        by (rewrite E; now left).
      apply filter_In in Hj. destruct Hj as [Hj Hsid]. apply Z.eqb_eq in Hsid.
      destruct (stats_of_joined numeric_sqrt _ _ j Hj) as [st [Hst Eid]].
      pose proof (stats_In numeric_sqrt _ _ st Hst) as Est.
      rewrite Eid, Hsid, Hsd in Est.
      unfold query6.
      rewrite (for_each_raises _ _ (j, st) division_by_zero); [reflexivity | | |].
      - intros [j' st'] e'. apply anomaly_row_raises.
      - apply in_flat_map. exists j. split; [exact Hj|].
        apply in_map. apply filter_In. split; [exact Hst | now apply Z.eqb_eq].
      - cbn [fst snd]. rewrite Est. reflexivity. }
    split; [exact Hq|]. now rewrite cycle_anomaly, Hq.
  - intros rows row Hq Hrow Hone. unfold query6 in Hq.
    destruct (for_each _ _) as [keyed|e] eqn:E; simpl in Hq; [|discriminate].
    inversion Hq; subst rows. apply in_map_iff in Hrow.
    destruct Hrow as [[row' k] [Er Hin]]. cbn [fst] in Er. subst row'.
    apply order_by_In in Hin.
    destruct (for_each_Ok _ _ _ _ E Hin) as [[j st] [Hjs Hrow]].
    cbn [fst snd] in Hrow. apply in_flat_map in Hjs.
    destruct Hjs as [j' [Hj' Hjs]]. apply in_map_iff in Hjs.
    destruct Hjs as [st' [Ejs Hst]]. inversion Ejs; subst j' st'.
    apply filter_In in Hst. destruct Hst as [Hst Eid]. apply Z.eqb_eq in Eid.
    apply join_sensors_In in Hj'. destruct Hj' as [_ [_ Eon]].
    pose proof (stats_In numeric_sqrt _ _ st Hst) as Est.
    assert (Hsd : std_speed st = None).
    { rewrite Est. cbn [std_speed]. unfold stddev.
      unfold anomaly_row in Hrow.
      destruct (deviation (speed (r_ j)) st) as [z|]; simpl in Hrow; [|discriminate].
      inversion Hrow; subst row. cbn [as_sensor_id] in Hone.
      rewrite Eid, Eon, Hone. reflexivity. }
    unfold anomaly_row, deviation in Hrow. rewrite Hsd in Hrow. simpl in Hrow.
    inversion Hrow. auto.
Qed.

(** On two readings of sensor 1 at speed 50 the statement fails; on one
    reading of each sensor it returns, and the reading of sensor 2 has no
    score. *)
Lemma zero_deviation_is_not_guarded_witness :
  query6 sqrt16 (timed 1 0 [50; 50]%Q) two_sensors = Raised division_by_zero
  /\ (z_score (mkAnomaly 2 "Ring Road" 60 70 None Regular) = None
      /\ as_traffic_status (mkAnomaly 2 "Ring Road" 60 70 None Regular) = Regular).
Proof.
  split.
  - apply (proj1 (zero_deviation_is_not_guarded sqrt16 (timed 1 0 [50; 50]%Q) two_sensors)
             1 50%Q).
    + vm_compute. lia.
    + intros v [<-|[<-|[]]]; reflexivity.
  - apply (proj2 (zero_deviation_is_not_guarded sqrt16
                    (timed 1 0 [50%Q] ++ timed 2 60 [70%Q]) two_sensors)
             [mkAnomaly 1 "Main Street" 0 50 None Regular;
              mkAnomaly 2 "Ring Road" 60 70 None Regular]).
    + vm_compute. reflexivity.
    + right. now left.
    + vm_compute. reflexivity.
Defined.

(** ** The correlation of density and speed (C7) *)

Lemma Qsum_nonneg (l : list Q) : (forall v, In v l -> 0 <= v)%Q -> (0 <= Qsum l)%Q.
Proof.
  induction l as [|x t IH]; intros H; [apply Qle_refl|].
  cbn [Qsum fold_right]. fold (Qsum t).
  assert (0 <= x)%Q by (apply H; now left).
  assert (0 <= Qsum t)%Q by (apply IH; intros v Hv; apply H; now right).
  lra.
Qed.

Lemma Qsum_zero (l : list Q) : (forall v, In v l -> v == 0)%Q -> (Qsum l == 0)%Q.
Proof.
  intros H. rewrite (Qsum_constant l 0 H). ring.
Qed.

Lemma square_nonneg (x : Q) : (0 <= x * x)%Q.
Proof.
  destruct (Qlt_le_dec x 0) as [H|H].
  - setoid_replace (x * x)%Q with ((- x) * (- x))%Q by ring.
    apply Qmult_le_0_compat; lra.
  - now apply Qmult_le_0_compat.
Qed.

(** Whatever is scaled by [1 / 0.0] is NaN or an infinity. *)
Lemma scaled_by_infinity (c : float8) :
  let v := float8mul c (S754_infinity false) in
  v = S754_nan \/ v = S754_infinity false \/ v = S754_infinity true.
Proof.
  destruct c as [s|s| |s m e]; simpl; try destruct s; auto.
Qed.

(** One observation: the scale is [1 / 0.0], every entry of the covariance
    matrix is NaN or infinite, and the quotient is NaN, whatever the sum
    and the dot product are. *)
Lemma corrcoef_single (add_reduce : list float8 -> float8)
      (dot : list float8 -> list float8 -> float8) (a b : list float8) :
  length a = 1%nat -> corrcoef add_reduce dot a b = S754_nan.
Proof.
  intros H. unfold corrcoef. rewrite H.
  change (float8div one (float8_of_Z (Z.max 0 (Z.of_nat 1 - 1))))
    with (S754_infinity false).
  cbv zeta.
  destruct (scaled_by_infinity
              (dot (map (fun v => float8mi v (mean add_reduce a)) a)
                   (map (fun v => float8mi v (mean add_reduce a)) a))) as [X|[X|X]];
    destruct (scaled_by_infinity
                (dot (map (fun v => float8mi v (mean add_reduce a)) a)
                     (map (fun v => float8mi v (mean add_reduce b)) b))) as [M|[M|M]];
    destruct (scaled_by_infinity
                (dot (map (fun v => float8mi v (mean add_reduce b)) b)
                     (map (fun v => float8mi v (mean add_reduce b)) b))) as [Y|[Y|Y]];
    cbv zeta in X, M, Y; rewrite X, M, Y; reflexivity.
Qed.

Lemma corr_with_few (add_reduce : list float8 -> float8)
      (dot : list float8 -> list float8 -> float8) (a b : list float8) :
  (length a < 2)%nat -> corr_with add_reduce dot a b = S754_nan.
Proof.
  intros H. unfold corr_with. destruct a as [|x [|y t]]; [reflexivity| |simpl in H; lia].
  now apply corrcoef_single.
Qed.

(** What [clip] returns is NaN or lies between -1 and 1. *)
Lemma clip_range (x : float8) :
  clip x = S754_nan
  \/ (SFleb minus_one (clip x) = true /\ SFleb (clip x) one = true).
Proof.
  unfold clip. destruct (isnan x) eqn:N.
  - left. destruct x; try discriminate. reflexivity.
  - cbn [orb]. destruct (SFleb minus_one x) eqn:A.
    + rewrite N. cbn [orb]. destruct (SFleb x one) eqn:B.
      * right. split; assumption.
      * right. split; reflexivity.
    + right. split; reflexivity.
Qed.

Lemma corr_with_range (add_reduce : list float8 -> float8)
      (dot : list float8 -> list float8 -> float8) (a b : list float8) :
  corr_with add_reduce dot a b = S754_nan
  \/ (SFleb minus_one (corr_with add_reduce dot a b) = true
      /\ SFleb (corr_with add_reduce dot a b) one = true).
Proof.
  unfold corr_with. destruct (is_nil a); [now left|]. apply clip_range.
Qed.

(** C7 as stated fails: with two locations that count one vehicle each, the
    coefficient the page shows is NaN, not a number between -1 and 1. *)
Lemma correlation_of_two_locations_is_nan :
  query4 two_locations two_sensors
  = [ mkDensity "Main Street" 1 (avg [50%Q]); mkDensity "Ring Road" 1 (avg [70%Q]) ]
  /\ cycle sqrt16 "4. Density-speed correlation" two_locations two_sensors
     = Ok (density_metric S754_nan (query4 two_locations two_sensors)).
Proof. split; vm_compute; reflexivity. Qed.

(** C7, amended.  The density/speed summary has one row per location of the
    joined readings.  When it is empty the page shows the no-data warning
    and computes no coefficient.  Otherwise the page computes the
    coefficient of the two columns, with no test on the number of locations,
    and shows it above the summary.  Whatever the columns hold and in
    whatever order their sums are taken, the coefficient of fewer than two
    rows is NaN, and the coefficient of any number of rows is NaN or lies
    between -1 and 1. *)
Theorem correlation_is_nan_or_bounded
        (numeric_sqrt : Q -> Q) (readings : list SensorReading) (sensors : list Sensor) :
  let rows := query4 readings sensors in
  let xs := map (fun x => float8_of_Z (ds_vehicle_count x)) rows in
  let ys := map (fun x => float8_of_numeric (ds_avg_speed x)) rows in
  let shown := cycle numeric_sqrt "4. Density-speed correlation" readings sensors in
  length rows
  = length (nodup string_dec (map (fun j => location_name (s_ j))
                                  (join_sensors readings sensors)))
  /\ (rows = [] -> shown = Ok (st_warning "No data returned."))
  /\ (rows <> [] -> shown = Ok (density_metric (corr xs ys) rows))
  /\ ((length rows < 2)%nat -> corr xs ys = S754_nan)
  /\ (corr xs ys = S754_nan
      \/ (SFleb minus_one (corr xs ys) = true /\ SFleb (corr xs ys) one = true))
  /\ (forall (sum : list float8 -> float8) (product : list float8 -> list float8 -> float8)
             (a b : list float8),
        ((length a < 2)%nat -> corr_with sum product a b = S754_nan)
        /\ (corr_with sum product a b = S754_nan
            \/ (SFleb minus_one (corr_with sum product a b) = true
                /\ SFleb (corr_with sum product a b) one = true))).
Proof.
  intros rows xs ys shown.
  assert (Hx : length xs = length rows) by apply length_map.
  split; [|split; [|split; [|split; [|split]]]].
  - unfold rows, query4. rewrite order_by_length, length_map.
    rewrite <- (group_by_keys string_dec). now rewrite length_map.
  - intros E. unfold shown. rewrite cycle_density. fold rows. now rewrite E.
  - intros N. unfold shown. rewrite cycle_density. fold rows.
    destruct rows; [congruence | reflexivity].
  - intros L. apply corr_with_few. now rewrite Hx.
  - apply corr_with_range.
  - intros sum product a b. split; [apply corr_with_few | apply corr_with_range].
Qed.

(** A third location with two vehicles and a lower speed gives a coefficient
    that is a number, and it lies between -1 and 1. *)
Lemma correlation_is_nan_or_bounded_witness :
  let rs := two_locations ++ [mkReading 1 5 30 60; mkReading 1 6 40 120] in
  let rows := query4 rs two_sensors in
  let r := corr (map (fun x => float8_of_Z (ds_vehicle_count x)) rows)
                (map (fun x => float8_of_numeric (ds_avg_speed x)) rows) in
  isnan r = false /\ SFleb minus_one r = true /\ SFleb r one = true.
Proof.
  intros rs rows r.
  destruct (correlation_is_nan_or_bounded sqrt16 rs two_sensors)
    as [_ [_ [_ [_ [H _]]]]].
  fold rows in H. fold r in H.
  split; [vm_compute; reflexivity|].
  destruct H as [H|H]; [vm_compute in H; discriminate | exact H].
Defined.

(** ** The outlier classifier over exact numbers *)

(** *** Sorting speeds *)

Lemma leQ_true (x y : Q) : leQ x y = true <-> (x <= y)%Q.
Proof. apply (leb_by_Q (fun v : Q => v)). Qed.

Lemma leQ_false (x y : Q) : leQ x y = false <-> (y < x)%Q.
Proof.
  split; intros H.
  - destruct (Qlt_le_dec y x) as [G|G]; [exact G|].
    apply leQ_true in G. congruence.
  - destruct (leQ x y) eqn:E; [|reflexivity]. apply leQ_true in E. lra.
Qed.

(** *** The interpolated percentile of a sorted list *)








(** *** Query 2 when [sensor_id] is a key of [sensors] *)

Lemma filter_perm {A} (f : A -> bool) (l l' : list A) :
  Permutation l l' -> Permutation (filter f l) (filter f l').
Proof.
  induction 1 as [|x l l' _ IH|x y l|l l' l'' _ IH1 _ IH2]; simpl.
  - constructor.
  - destruct (f x); [now constructor | exact IH].
  - destruct (f x), (f y); try reflexivity. apply perm_swap.
  - now transitivity (filter f l').
Qed.

Lemma filter_nil_in {A} (f : A -> bool) (l : list A) :
  (forall x, In x l -> f x = false) -> filter f l = [].
Proof.
  induction l as [|a t IH]; intros H; simpl; [reflexivity|].
  rewrite (H a) by now left. apply IH. intros x Hx. apply H. now right.
Qed.

Lemma filter_unique {A} (f : A -> bool) (l : list A) (k : A) :
  NoDup l -> In k l -> f k = true ->
  (forall x, In x l -> f x = true -> x = k) -> filter f l = [k].
Proof.
  induction 1 as [|a t Ha Hnd IH]; intros Hin Hk Huniq; [contradiction|].
  simpl. destruct Hin as [->|Hin].
  - rewrite Hk. f_equal. apply filter_nil_in. intros x Hx.
    destruct (f x) eqn:E; [|reflexivity]. exfalso. apply Ha.
    rewrite <- (Huniq x (or_intror Hx) E). exact Hx.
  - destruct (f a) eqn:E.
    + exfalso. apply Ha. rewrite (Huniq a (or_introl eq_refl) E). exact Hin.
    + apply IH; auto. intros x Hx. apply Huniq. now right.
Qed.

Lemma flat_map_singletons {A B} (f : A -> list B) (g : A -> B) (l : list A) :
  (forall a, In a l -> f a = [g a]) -> flat_map f l = map g l.
Proof.
  induction l as [|a t IH]; intros H; simpl; [reflexivity|].
  rewrite (H a) by now left. simpl. f_equal. apply IH. intros b Hb. apply H. now right.
Qed.

Section SensorKey.
Variable sensors : list Sensor.
Hypothesis sensor_id_is_key : NoDup (map s_sensor_id sensors).

Lemma sensor_of_id (s s' : Sensor) :
  In s sensors -> In s' sensors -> s_sensor_id s = s_sensor_id s' -> s = s'.
Proof.
  clear -sensor_id_is_key. induction sensors as [|a t IH]; [contradiction|].
  simpl in sensor_id_is_key. inversion sensor_id_is_key as [|? ? Ha Hnd]; subst.
  intros [->|Hs] [->|Hs'] E.
  - reflexivity.
  - exfalso. apply Ha. rewrite E. now apply in_map.
  - exfalso. apply Ha. rewrite <- E. now apply in_map.
  - now apply IH.
Qed.

Lemma sensors_with_id (s : Sensor) :
  In s sensors -> filter (fun s' => s_sensor_id s' =? s_sensor_id s) sensors = [s].
Proof.
  intros Hs. apply filter_unique.
  - exact (NoDup_map_inv _ _ sensor_id_is_key).
  - exact Hs.
  - apply Z.eqb_refl.
  - intros s' Hs' E. apply Z.eqb_eq in E. now apply sensor_of_id.
Qed.

(** The joined rows of a sensor carry exactly the readings of its id. *)
Lemma sensor_history_readings (readings : list SensorReading) (s : Sensor) :
  In s sensors ->
  sensor_history (s_sensor_id s) readings sensors
  = reading_speeds (s_sensor_id s) readings.
Proof.
  intros Hs. unfold sensor_history, reading_speeds, speeds.
  induction readings as [|r t IH]; [reflexivity|].
  change (join_sensors (r :: t) sensors)
    with (map (fun s' => (r, s')) (filter (fun s' => s_sensor_id s' =? r_sensor_id r) sensors)
          ++ join_sensors t sensors).
  rewrite filter_app, map_app. cbn [filter].
  destruct (Z.eqb_spec (r_sensor_id r) (s_sensor_id s)) as [E|N].
  - rewrite E, (sensors_with_id s Hs). cbn [map filter r_ s_ fst snd].
    rewrite Z.eqb_refl. cbn [map app r_ fst]. f_equal. exact IH.
  - rewrite filter_nil_in; [exact IH|].
    intros j Hj. apply in_map_iff in Hj. destruct Hj as [s' [<- Hs']].
    apply filter_In in Hs'. destruct Hs' as [_ E]. apply Z.eqb_eq in E.
    cbn [s_ snd]. apply Z.eqb_neq. congruence.
Qed.

Lemma sensor_group (readings : list SensorReading) (j : Joined) :
  In j (join_sensors readings sensors) ->
  filter (has_key Z_string_dec (fun j => (s_sensor_id (s_ j), location_name (s_ j)))
                  (s_sensor_id (s_ j), location_name (s_ j)))
         (join_sensors readings sensors)
  = filter (fun j' => s_sensor_id (s_ j') =? s_sensor_id (s_ j))
           (join_sensors readings sensors).
Proof.
  intros Hj. apply filter_ext_in. intros j' Hj'.
  apply join_sensors_In in Hj. apply join_sensors_In in Hj'.
  destruct (Z.eqb_spec (s_sensor_id (s_ j')) (s_sensor_id (s_ j))) as [E|N].
  - apply has_key_true. rewrite (sensor_of_id (s_ j') (s_ j)); tauto.
  - destruct (has_key _ _ _ j') eqn:H; [|reflexivity].
    apply has_key_true in H. inversion H. contradiction.
Qed.


End SensorKey.

(** *** The [CASE] expression *)

Lemma Qlt_bool_iff (x y : Q) : Qlt_bool x y = true <-> (x < y)%Q.
Proof.
  unfold Qlt_bool. rewrite negb_true_iff. split; intros H.
  - destruct (Qlt_le_dec x y) as [G|G]; [exact G|].
    apply Qle_bool_iff in G. congruence.
  - destruct (Qle_bool y x) eqn:E; [|reflexivity]. apply Qle_bool_iff in E. lra.
Qed.

Lemma Qlt_bool_false (x y : Q) : Qlt_bool x y = false <-> (y <= x)%Q.
Proof.
  unfold Qlt_bool. rewrite negb_false_iff. apply Qle_bool_iff.
Qed.



(** * Further properties of the queries and of the page script *)

(** ** Lawful sort keys *)

#[global] Typeclasses Opaque by_Z by_string by_Q by_nullable desc then_by.

Lemma ascii_compare_trans (a b c : ascii) :
  Ascii.compare a b = Lt -> Ascii.compare b c = Lt -> Ascii.compare a c = Lt.
Proof.
  unfold Ascii.compare. rewrite !N.compare_lt_iff. apply N.lt_trans.
Qed.

Lemma string_compare_refl (s : string) : String.compare s s = Eq.
Proof.
  induction s as [|a s IH]; [reflexivity|]. simpl.
  unfold Ascii.compare. now rewrite N.compare_refl.
Qed.

Lemma string_compare_trans (s1 s2 s3 : string) :
  String.compare s1 s2 = Lt -> String.compare s2 s3 = Lt -> String.compare s1 s3 = Lt.
Proof.
  revert s2 s3. induction s1 as [|a s1 IH]; intros [|b s2] [|c s3]; simpl;
    try discriminate; try reflexivity.
  destruct (Ascii.compare a b) eqn:Eab; try discriminate;
    destruct (Ascii.compare b c) eqn:Ebc; try discriminate; intros H1 H2.
  - apply Ascii.compare_eq_iff in Eab. apply Ascii.compare_eq_iff in Ebc. subst.
    unfold Ascii.compare. rewrite N.compare_refl. now apply (IH s2).
  - apply Ascii.compare_eq_iff in Eab. subst. now rewrite Ebc.
  - apply Ascii.compare_eq_iff in Ebc. subst. now rewrite Eab.
  - now rewrite (ascii_compare_trans a b c Eab Ebc).
Qed.

#[export] Instance by_Z_lawful {A} (f : A -> Z) : Lawful (by_Z f).
Proof.
  unfold by_Z. split.
  - intros x y. apply Z.compare_antisym.
  - intros x y z. rewrite !Z.compare_lt_iff. lia.
  - intros x y z H. apply Z.compare_eq in H. now rewrite H.
Qed.

#[export] Instance by_string_lawful {A} (f : A -> string) : Lawful (by_string f).
Proof.
  unfold by_string. split.
  - intros x y. apply String.compare_antisym.
  - intros x y z. apply string_compare_trans.
  - intros x y z H. apply String.compare_eq_iff in H. now rewrite H.
Qed.

#[export] Instance by_Q_lawful {A} (f : A -> Q) : Lawful (by_Q f).
Proof.
  unfold by_Q. split.
  - intros x y. symmetry. apply Qcompare_antisym.
  - intros x y z. rewrite <- !Qlt_alt. apply Qlt_trans.
  - intros x y z H. apply Qeq_alt in H. now rewrite H.
Qed.

#[export] Instance by_nullable_lawful {A} (f : A -> option Q) : Lawful (by_nullable f).
Proof.
  unfold by_nullable. split.
  - intros x y. destruct (f x), (f y); try reflexivity.
    symmetry. apply Qcompare_antisym.
  - intros x y z. destruct (f x), (f y), (f z); try discriminate; try reflexivity.
    rewrite <- !Qlt_alt. apply Qlt_trans.
  - intros x y z. destruct (f x), (f y), (f z); try discriminate; try reflexivity.
    intros H. apply Qeq_alt in H. now rewrite H.
Qed.

#[export] Instance desc_lawful {A} (c : @ordering A) `{Lawful A c} : Lawful (desc c).
Proof.
  unfold desc. split.
  - intros x y. apply (lawful_swap (c := c)).
  - intros x y z H1 H2. exact (lawful_trans (c := c) z y x H2 H1).
  - intros x y z E. rewrite (lawful_swap (c := c) x z), (lawful_swap (c := c) y z).
    f_equal. apply (lawful_eq (c := c)).
    rewrite (lawful_swap (c := c) y x), E. reflexivity.
Qed.

#[export] Instance then_by_lawful {A} (c1 c2 : @ordering A) `{Lawful A c1} `{Lawful A c2} :
  Lawful (then_by c1 c2).
Proof.
  unfold then_by. split.
  - intros x y. rewrite (lawful_swap (c := c1) x y), (lawful_swap (c := c2) x y).
    now destruct (c1 x y).
  - intros x y z. destruct (c1 x y) eqn:E1; try discriminate;
      destruct (c1 y z) eqn:E2; try discriminate; intros H1 H2.
    + rewrite (lawful_eq (c := c1) x y z E1), E2.
      exact (lawful_trans (c := c2) x y z H1 H2).
    + now rewrite (lawful_eq (c := c1) x y z E1), E2.
    + assert (E : c1 x z = Lt); [|now rewrite E].
      assert (Ezy : c1 z y = Eq) by (rewrite (lawful_swap (c := c1) y z), E2; reflexivity).
      rewrite (lawful_swap (c := c1) z x), (lawful_eq (c := c1) z y x Ezy),
              (lawful_swap (c := c1) x y), E1.
      reflexivity.
    + now rewrite (lawful_trans (c := c1) x y z E1 E2).
  - intros x y z. destruct (c1 x y) eqn:E1; try discriminate. intros E2.
    rewrite (lawful_eq (c := c1) x y z E1). destruct (c1 y z); try reflexivity.
    exact (lawful_eq (c := c2) x y z E2).
Qed.

Section LawfulFacts.
Context {A : Type} (c : @ordering A) `{Lawful A c}.

Lemma lawful_total (x y : A) : leb_of c x y = false -> leb_of c y x = true.
Proof.
  unfold leb_of. rewrite (lawful_swap x y). now destruct (c x y).
Qed.

Lemma lawful_le_trans (x y z : A) : le_of c x y -> le_of c y z -> le_of c x z.
Proof.
  unfold le_of, leb_of. destruct (c x y) eqn:E1; try discriminate;
    destruct (c y z) eqn:E2; try discriminate; intros _ _.
  - now rewrite (lawful_eq x y z E1), E2.
  - now rewrite (lawful_eq x y z E1), E2.
  - assert (Ezy : c z y = Eq) by (rewrite (lawful_swap y z), E2; reflexivity).
    rewrite (lawful_swap z x), (lawful_eq z y x Ezy), (lawful_swap x y), E1.
    reflexivity.
  - now rewrite (lawful_trans x y z E1 E2).
Qed.

(** [ORDER BY] with a lawful key returns its rows in order. *)
Lemma order_by_lawful (l : list A) : StronglySorted (le_of c) (order_by c l).
Proof.
  apply order_by_sorted; [apply lawful_total | apply lawful_le_trans].
Qed.
End LawfulFacts.

Lemma le_of_then_by {A} (c1 c2 : @ordering A) (x y : A) :
  le_of (then_by c1 c2) x y <-> c1 x y = Lt \/ (c1 x y = Eq /\ le_of c2 x y).
Proof.
  unfold le_of, leb_of, then_by. destruct (c1 x y).
  - split; intros H; [right; split; [reflexivity | exact H]|].
    destruct H as [H|[_ H]]; [discriminate | exact H].
  - split; intros H; [now left | reflexivity].
  - split; intros H; [discriminate|]. destruct H as [H|[H _]]; discriminate.
Qed.

Lemma by_string_Eq {A} (f : A -> string) (x y : A) : by_string f x y = Eq <-> f x = f y.
Proof.
  unfold by_string. split; [apply String.compare_eq_iff|].
  intros ->. apply string_compare_refl.
Qed.

Lemma by_Z_Eq {A} (f : A -> Z) (x y : A) : by_Z f x y = Eq <-> f x = f y.
Proof. unfold by_Z. apply Z.compare_eq_iff. Qed.

Lemma by_Z_Lt {A} (f : A -> Z) (x y : A) : by_Z f x y = Lt <-> f x < f y.
Proof. unfold by_Z. apply Z.compare_lt_iff. Qed.

Lemma sorted_impl {A} (R R' : A -> A -> Prop) (l : list A) :
  (forall x y, R x y -> R' x y) -> StronglySorted R l -> StronglySorted R' l.
Proof.
  intros H. induction 1 as [|x t Ht IH Hx]; constructor; [exact IH|].
  eapply Forall_impl; [|exact Hx]. intros y. apply H.
Qed.

Lemma order_by_text_then_number {A} (text : A -> string) (number : A -> Z) (l : list A) :
  StronglySorted (text_then_number text number)
                 (order_by (then_by (by_string text) (by_Z number)) l).
Proof.
  apply (sorted_impl (le_of (then_by (by_string text) (by_Z number)))).
  - intros x y H. apply le_of_then_by in H. unfold text_then_number.
    destruct H as [H|[H1 H2]]; [now left | right].
    split; [now apply by_string_Eq in H1 | now apply leb_by_Z in H2].
  - exact (order_by_lawful (then_by (by_string text) (by_Z number)) l).
Qed.

(** ** The join when [sensor_id] is a key of [sensors] *)

Lemma sensors_matching (sensors : list Sensor) (k : Z) :
  NoDup (map s_sensor_id sensors) ->
  (existsb (fun s => s_sensor_id s =? k) sensors = true
   /\ exists s, filter (fun s => s_sensor_id s =? k) sensors = [s])
  \/ (existsb (fun s => s_sensor_id s =? k) sensors = false
      /\ filter (fun s => s_sensor_id s =? k) sensors = []).
Proof.
  intros Hkey. destruct (filter (fun s => s_sensor_id s =? k) sensors) as [|s t] eqn:E.
  - right. split; [|reflexivity].
    destruct (existsb (fun s => s_sensor_id s =? k) sensors) eqn:X; [|reflexivity].
    apply existsb_exists in X. destruct X as [s [Hs Hk]].
    assert (I : In s (filter (fun s => s_sensor_id s =? k) sensors))
      by (apply filter_In; auto).
    rewrite E in I. contradiction.
  - left. assert (Hs : In s (filter (fun s => s_sensor_id s =? k) sensors))
      by (rewrite E; now left).
    apply filter_In in Hs. destruct Hs as [Hs Ek].
    split; [apply existsb_exists; exists s; auto|].
    apply Z.eqb_eq in Ek.
    pose proof (sensors_with_id sensors Hkey s Hs) as U. rewrite Ek, E in U.
    exists s. exact U.
Qed.

(** X1.  When [sensor_id] is a key of [sensors], the join keeps exactly the
    readings whose sensor is known, each once and in their input order, and
    pairs each with the sensor row of its id; it never has more rows than
    there are readings. *)
Theorem join_keeps_known_readings (readings : list SensorReading) (sensors : list Sensor) :
  NoDup (map s_sensor_id sensors) ->
  map r_ (join_sensors readings sensors)
  = filter (fun r => existsb (fun s => s_sensor_id s =? r_sensor_id r) sensors) readings
  /\ (forall j, In j (join_sensors readings sensors) ->
        In (s_ j) sensors /\ s_sensor_id (s_ j) = r_sensor_id (r_ j))
  /\ (length (join_sensors readings sensors) <= length readings)%nat.
Proof.
  intros Hkey. split; [|split].
  - induction readings as [|r t IH]; [reflexivity|].
    change (join_sensors (r :: t) sensors)
      with (map (fun s' => (r, s'))
                (filter (fun s' => s_sensor_id s' =? r_sensor_id r) sensors)
            ++ join_sensors t sensors).
    rewrite map_app, map_map. cbn [r_ fst filter].
    destruct (sensors_matching sensors (r_sensor_id r) Hkey) as [[X [s F]]|[X F]];
      rewrite X, F; cbn [map app]; [f_equal|]; exact IH.
  - intros j Hj. apply join_sensors_In in Hj. tauto.
  - induction readings as [|r t IH]; [simpl; lia|].
    change (join_sensors (r :: t) sensors)
      with (map (fun s' => (r, s'))
                (filter (fun s' => s_sensor_id s' =? r_sensor_id r) sensors)
            ++ join_sensors t sensors).
    rewrite length_app, length_map.
    destruct (sensors_matching sensors (r_sensor_id r) Hkey) as [[_ [s F]]|[_ F]];
      rewrite F; cbn [length Nat.add].
    + apply le_n_S. exact IH.
    + apply Nat.le_trans with (length t); [exact IH | lia].
Qed.

(** Of three readings, the one of the unknown sensor 9 is dropped. *)
Lemma join_keeps_known_readings_witness :
  map r_ (join_sensors [mkReading 2 7 50 0; mkReading 9 8 60 10; mkReading 1 7 55 20]
                       two_sensors)
  = [mkReading 2 7 50 0; mkReading 1 7 55 20].
Proof.
  assert (Hkey : NoDup (map s_sensor_id two_sensors)).
  { repeat constructor; simpl; intuition discriminate. }
  rewrite (proj1 (join_keeps_known_readings
                    [mkReading 2 7 50 0; mkReading 9 8 60 10; mkReading 1 7 55 20]
                    two_sensors Hkey)).
  reflexivity.
Defined.

(** ** Ranks and peaks of the hourly flow *)

Lemma filter_length_zero {A} (p : A -> bool) (l : list A) (x : A) :
  length (filter p l) = 0%nat -> In x l -> p x = false.
Proof.
  induction l as [|a t IH]; intros H Hx; [contradiction|]. simpl in H.
  destruct (p a) eqn:E; [discriminate|].
  destruct Hx as [->|Hx]; [exact E | now apply IH].
Qed.

Lemma filter_length_lt {A} (p q : A -> bool) (l : list A) (x : A) :
  (forall y, p y = true -> q y = true) -> In x l -> q x = true -> p x = false ->
  (length (filter p l) < length (filter q l))%nat.
Proof.
  intros Hpq. 
  assert (Hle : forall t, (length (filter p t) <= length (filter q t))%nat).
  { induction t as [|a t IH]; simpl; [lia|].
    destruct (p a) eqn:E; [rewrite (Hpq a E); simpl; lia|].
    destruct (q a); simpl; lia. }
  induction l as [|a t IH]; intros Hx Hq Hp; [contradiction|]. simpl.
  destruct Hx as [->|Hx].
  - rewrite Hq, Hp. simpl. specialize (Hle t). lia.
  - specialize (IH Hx Hq Hp). destruct (p a) eqn:E; [rewrite (Hpq a E); simpl; lia|].
    destruct (q a); simpl; lia.
Qed.

Lemma exists_largest {A} (f : A -> Z) (l : list A) :
  l <> [] -> exists m, In m l /\ forall y, In y l -> f y <= f m.
Proof.
  induction l as [|a t IH]; intros H; [congruence|].
  destruct t as [|b t'].
  - exists a. split; [now left|]. intros y [<-|[]]. lia.
  - destruct IH as [m [Hm Hmax]]; [discriminate|].
    destruct (Z_le_gt_dec (f a) (f m)) as [L|G].
    + exists m. split; [now right|]. intros y [<-|Hy]; [exact L | now apply Hmax].
    + exists a. split; [now left|]. intros y [<-|Hy]; [lia|].
      specialize (Hmax y Hy). lia.
Qed.

Lemma query1_rank_range (readings : list SensorReading) (sensors : list Sensor)
      (x : HourlyFlowRecord) :
  In x (query1 readings sensors) ->
  1 <= rank_within_location x
  <= Z.of_nat (length (filter (same_location x) (query1 readings sensors))).
Proof.
  intros Hx. rewrite (query1_rank _ _ x Hx). split; [lia|].
  assert (L : (length (filter (fun y => outranks (flow x) (flow y)) (query1 readings sensors))
               < length (filter (same_location x) (query1 readings sensors)))%nat).
  { apply (filter_length_lt _ _ _ x).
    - intros y H. unfold outranks in H. apply andb_true_iff in H. apply H.
    - exact Hx.
    - unfold same_location. apply String.eqb_refl.
    - unfold outranks. rewrite String.eqb_refl, Z.ltb_irrefl. reflexivity. }
  lia.
Qed.

Lemma query1_rank_one_iff (readings : list SensorReading) (sensors : list Sensor)
      (x : HourlyFlowRecord) :
  In x (query1 readings sensors) ->
  (rank_within_location x = 1 <->
   forall y, In y (query1 readings sensors) ->
             hf_location_name (flow y) = hf_location_name (flow x) ->
             vehicle_count (flow y) <= vehicle_count (flow x)).
Proof.
  intros Hx. rewrite (query1_rank _ _ x Hx). split.
  - intros H y Hy El.
    assert (Z0 : length (filter (fun y => outranks (flow x) (flow y))
                                (query1 readings sensors)) = 0%nat) by lia.
    pose proof (filter_length_zero _ _ y Z0 Hy) as F. cbv beta in F.
    unfold outranks in F. rewrite El, String.eqb_refl in F. simpl in F.
    now apply Z.ltb_ge.
  - intros H. rewrite filter_none_length; [reflexivity|].
    intros y Hy. unfold outranks.
    destruct (String.eqb_spec (hf_location_name (flow y)) (hf_location_name (flow x))) as [E|E];
      [|reflexivity].
    simpl. apply Z.ltb_ge. now apply H.
Qed.

Lemma query1_location_peak (readings : list SensorReading) (sensors : list Sensor)
      (x : HourlyFlowRecord) :
  In x (query1 readings sensors) ->
  exists top, In top (query1 readings sensors)
              /\ hf_location_name (flow top) = hf_location_name (flow x)
              /\ rank_within_location top = 1
              /\ vehicle_count (flow x) <= vehicle_count (flow top).
Proof.
  intros Hx.
  destruct (exists_largest (fun y => vehicle_count (flow y))
              (filter (same_location x) (query1 readings sensors))) as [m [Hm Hmax]].
  { intros E. assert (I : In x (filter (same_location x) (query1 readings sensors))).
    { apply filter_In. split; [exact Hx | apply String.eqb_refl]. }
    rewrite E in I. exact I. }
  apply filter_In in Hm. destruct Hm as [Hm El]. apply String.eqb_eq in El.
  exists m. split; [exact Hm|]. split; [exact El|]. split.
  - apply (query1_rank_one_iff _ _ m Hm). intros y Hy Ey. apply Hmax.
    apply filter_In. split; [exact Hy|]. apply String.eqb_eq. congruence.
  - apply Hmax. apply filter_In. split; [exact Hx | apply String.eqb_refl].
Qed.

Lemma query1_sorted (readings : list SensorReading) (sensors : list Sensor) :
  StronglySorted flow_order (query1 readings sensors).
Proof.
  unfold query1. apply (sorted_impl (le_of query1_order)).
  - intros a b H. unfold query1_order in H. apply le_of_then_by in H.
    unfold flow_order. destruct H as [H|[H1 H2]]; [now left | right].
    apply by_string_Eq in H1. split; [exact H1|].
    apply le_of_then_by in H2. destruct H2 as [H2|[H2 H3]].
    + left. now apply by_Z_Lt in H2.
    + right. split; [now apply by_Z_Eq in H2 | now apply leb_by_Z in H3].
  - exact (order_by_lawful query1_order _).
Qed.

(** X2.  In the result of query 1 the rank of a row lies between 1 and the
    number of rows of its location; its location has a row of rank 1, whose
    count is at least the row's own; and the row has rank 1 exactly when no
    row of its location has a larger [vehicle_count]. *)
Theorem rank_within_bounds_and_peak
        (readings : list SensorReading) (sensors : list Sensor) (x : HourlyFlowRecord) :
  In x (query1 readings sensors) ->
  1 <= rank_within_location x
    <= Z.of_nat (length (filter (same_location x) (query1 readings sensors)))
  /\ (exists top, In top (query1 readings sensors)
                  /\ hf_location_name (flow top) = hf_location_name (flow x)
                  /\ rank_within_location top = 1
                  /\ vehicle_count (flow x) <= vehicle_count (flow top))
  /\ (rank_within_location x = 1 <->
      forall y, In y (query1 readings sensors) ->
                hf_location_name (flow y) = hf_location_name (flow x) ->
                vehicle_count (flow y) <= vehicle_count (flow x)).
Proof.
  intros Hx. split; [now apply query1_rank_range|].
  split; [now apply query1_location_peak | now apply query1_rank_one_iff].
Qed.

(** On [three_hours] the row of hour 0 has rank 3 of 3. *)
Lemma rank_within_bounds_and_peak_witness :
  1 <= rank_within_location (mkFlowRecord (mkFlow "Main Street" 0 10) 3)
    <= Z.of_nat (length (filter (same_location (mkFlowRecord (mkFlow "Main Street" 0 10) 3))
                                (query1 three_hours two_sensors))).
Proof.
  apply (rank_within_bounds_and_peak three_hours two_sensors
           (mkFlowRecord (mkFlow "Main Street" 0 10) 3)).
  vm_compute. right. right. now left.
Defined.

(** X3.  Query 1 returns its rows ordered by location name, within a
    location by rank, and within a rank by hour slot; they are the rows of
    the hourly flow, each once. *)
Theorem query1_rows_in_order (readings : list SensorReading) (sensors : list Sensor) :
  StronglySorted flow_order (query1 readings sensors)
  /\ Permutation (map flow (query1 readings sensors)) (hourly_flow readings sensors).
Proof. split; [apply query1_sorted | apply query1_flows]. Qed.

(** ** The flow branch of the page script *)

Lemma hour_of_slot (t : Z) : extract_hour (date_trunc_hour t) = extract_hour t.
Proof.
  unfold extract_hour, date_trunc_hour. f_equal.
  rewrite Z.mul_comm. apply Z.div_mul. lia.
Qed.

Lemma unique_In (l : list string) (x : string) : In x (unique l) <-> In x l.
Proof.
  induction l as [|a t IH]; [reflexivity|]. cbn [unique]. split.
  - intros [<-|H]; [now left|]. apply filter_In in H. right. now apply IH.
  - intros [<-|H]; [now left|].
    destruct (String.eqb_spec x a) as [->|N]; [now left|]. right.
    apply filter_In. split; [now apply IH|].
    apply negb_true_iff. now apply String.eqb_neq.
Qed.

Lemma isin_true (selected_locations : list string) (x : HourlyFlowRecord) :
  isin selected_locations x = true <-> In (hf_location_name (flow x)) selected_locations.
Proof.
  unfold isin. rewrite existsb_exists. split.
  - intros [loc [Hl E]]. apply String.eqb_eq in E. now rewrite E.
  - intros H. exists (hf_location_name (flow x)). split; [exact H | apply String.eqb_refl].
Qed.

Lemma filter_all {A} (f : A -> bool) (l : list A) :
  (forall x, In x l -> f x = true) -> filter f l = l.
Proof.
  induction l as [|a t IH]; intros H; [reflexivity|]. simpl.
  rewrite (H a (or_introl eq_refl)). f_equal. apply IH. intros x Hx. apply H. now right.
Qed.

Lemma sorted_filter {A} (R : A -> A -> Prop) (f : A -> bool) (l : list A) :
  StronglySorted R l -> StronglySorted R (filter f l).
Proof.
  induction 1 as [|x t Ht IH Hx]; [constructor|]. simpl.
  destruct (f x); [|exact IH]. constructor; [exact IH|].
  rewrite Forall_forall in *. intros y Hy. apply filter_In in Hy. now apply Hx.
Qed.

(** With every location selected the filter of the flow branch keeps every
    row. *)
Lemma all_locations_selected (rows : list HourlyFlowRecord) :
  filter (isin (all_locations rows))
         (order_by (then_by (by_string (fun x => hf_location_name (flow x)))
                            (by_Z (fun x => hour_slot (flow x)))) rows)
  = order_by (then_by (by_string (fun x => hf_location_name (flow x)))
                      (by_Z (fun x => hour_slot (flow x)))) rows.
Proof.
  apply filter_all. intros x Hx. apply isin_true. unfold all_locations.
  apply unique_In. now apply (in_map (fun x => hf_location_name (flow x))).
Qed.

(** X4.  Whatever locations the multiselect returns, the flow branch draws
    the rows of query 1 of the selected locations, sorted by location and
    hour slot, and marks as peaks exactly the drawn rows of rank 1: every
    location drawn has at least one peak, and a peak has the largest
    [vehicle_count] of all rows of its location.  On a non-empty result the
    page shows this chart for the default of the multiselect, every
    location, and then draws every row.  The hour of day of an hour slot is
    the hour of day of the readings in it. *)
Theorem flow_chart_marks_the_peaks
        (numeric_sqrt : Q -> Q) (readings : list SensorReading) (sensors : list Sensor)
        (selected_locations : list string) :
  let rows := query1 readings sensors in
  (exists lines peaks,
      flow_view selected_locations rows = flow_chart lines peaks
      /\ Permutation lines (filter (isin selected_locations) rows)
      /\ (forall x, In x lines <->
                    In x rows /\ In (hf_location_name (flow x)) selected_locations)
      /\ StronglySorted (text_then_number (fun x => hf_location_name (flow x))
                                          (fun x => hour_slot (flow x))) lines
      /\ (forall p, In p peaks <-> In p lines /\ rank_within_location p = 1)
      /\ (forall p, In p peaks ->
            forall y, In y rows -> hf_location_name (flow y) = hf_location_name (flow p) ->
                      vehicle_count (flow y) <= vehicle_count (flow p))
      /\ (forall x, In x lines ->
            exists p, In p peaks /\ hf_location_name (flow p) = hf_location_name (flow x)))
  /\ (rows <> [] ->
      exists lines peaks,
        cycle numeric_sqrt "1. Identification of traffic peaks and flow intensity"
              readings sensors
        = Ok (flow_chart lines peaks)
        /\ flow_view (all_locations rows) rows = flow_chart lines peaks
        /\ Permutation lines rows)
  /\ (forall t, extract_hour (date_trunc_hour t) = extract_hour t).
Proof.
  intros rows.
  set (df := order_by (then_by (by_string (fun x => hf_location_name (flow x)))
                               (by_Z (fun x => hour_slot (flow x)))) rows).
  assert (Hdf : forall x, In x df <-> In x rows) by (intros x; apply order_by_In).
  split; [|split].
  - set (lines := filter (isin selected_locations) df).
    assert (Hin : forall x, In x lines <->
                            In x rows /\ In (hf_location_name (flow x)) selected_locations).
    { intros x. unfold lines. rewrite filter_In, Hdf, isin_true. tauto. }
    exists lines, (filter (fun x => rank_within_location x =? 1) lines).
    split; [reflexivity|]. split; [|split; [exact Hin|split; [|split; [|split]]]].
    + unfold lines, df. apply filter_perm, order_by_perm.
    + unfold lines, df. apply sorted_filter, order_by_text_then_number.
    + intros p. rewrite filter_In, Z.eqb_eq. tauto.
    + intros p Hp y Hy El. apply filter_In in Hp. destruct Hp as [Hp R].
      apply Z.eqb_eq in R. apply Hin in Hp. destruct Hp as [Hp _].
      now apply (proj1 (query1_rank_one_iff _ _ p Hp) R).
    + intros x Hx. apply Hin in Hx. destruct Hx as [Hx Hs].
      destruct (query1_location_peak _ _ x Hx) as [top [Ht [El [R _]]]].
      exists top. split; [|exact El]. apply filter_In. split; [|now apply Z.eqb_eq].
      apply Hin. split; [exact Ht | now rewrite El].
  - intros Hne.
    exists df, (filter (fun x => rank_within_location x =? 1) df).
    assert (V : flow_view (all_locations rows) rows
                = flow_chart df (filter (fun x => rank_within_location x =? 1) df)).
    { unfold flow_view. fold df. unfold df at 1 2. now rewrite all_locations_selected. }
    split; [|split; [exact V | apply order_by_perm]].
    rewrite cycle_flow. fold rows. destruct rows eqn:E; [congruence|].
    cbn [is_nil]. rewrite <- V. reflexivity.
  - apply hour_of_slot.
Qed.

(** On [three_hours] with Main Street selected the chart has one peak, the
    row of hour 1. *)
Lemma flow_chart_marks_the_peaks_witness :
  exists lines peaks,
    flow_view ["Main Street"%string] (query1 three_hours two_sensors)
    = flow_chart lines peaks
    /\ (forall p, In p peaks <-> In p lines /\ rank_within_location p = 1).
Proof.
  destruct (flow_chart_marks_the_peaks sqrt16 three_hours two_sensors ["Main Street"%string])
    as [[lines [peaks [H1 [_ [_ [_ [H4 _]]]]]]] _].
  exists lines, peaks. split; assumption.
Defined.

(** ** Order and monotony of the outlier classification *)




(** ** Order and rows of the rolling average *)

Lemma window_avg_keys (sorted rest : list Joined) (i : nat) :
  map (fun row => (ra_location_name row, ra_record_time row)) (window_avg sorted i rest)
  = map (fun j => (location_name (s_ j), record_time (r_ j))) rest.
Proof.
  revert i. induction rest as [|j t IH]; intros i; [reflexivity|].
  simpl. now rewrite IH.
Qed.

Lemma avg_single (v : Q) : (avg [v] == v)%Q.
Proof. unfold avg. simpl. field. Qed.

(** X6.  Query 3 returns one row per joined reading, carrying its location
    and time, ordered by location name and then by time; the earliest
    reading of a sensor has its own speed as rolling average. *)
Theorem rolling_rows_are_ordered (readings : list SensorReading) (sensors : list Sensor) :
  StronglySorted (text_then_number ra_location_name ra_record_time)
                 (query3 readings sensors)
  /\ Permutation
       (map (fun row => (ra_location_name row, ra_record_time row))
            (query3 readings sensors))
       (map (fun j => (location_name (s_ j), record_time (r_ j)))
            (join_sensors readings sensors))
  /\ (forall sid j,
        nth_error (sensor_partition sid (join_sensors readings sensors)) 0 = Some j ->
        exists row, In row (query3 readings sensors)
                    /\ ra_location_name row = location_name (s_ j)
                    /\ ra_record_time row = record_time (r_ j)
                    /\ (rolling_avg_speed row == speed (r_ j))%Q).
Proof.
  split; [|split].
  - unfold query3. apply order_by_text_then_number.
  - unfold query3. rewrite (Permutation_map _ (order_by_perm _ _)).
    rewrite flat_map_concat_map, concat_map, map_map, <- flat_map_concat_map.
    rewrite <- (Permutation_map _ (group_by_partition Z.eq_dec
                                     (fun j => s_sensor_id (s_ j))
                                     (join_sensors readings sensors))).
    rewrite (flat_map_concat_map snd), concat_map, map_map, <- flat_map_concat_map.
    apply flat_map_perm. intros g _. unfold rolling_partition.
    rewrite window_avg_keys. apply Permutation_map, order_by_perm.
  - intros sid j Hj. eexists. split; [apply query3_In; exists sid, 0%nat, j; split;
                                      [exact Hj | reflexivity]|].
    cbn [ra_location_name ra_record_time rolling_avg_speed]. repeat split.
    unfold frame_rows. cbn [Nat.sub skipn].
    destruct (sensor_partition sid (join_sensors readings sensors)) as [|j' t];
      [discriminate|].
    simpl in Hj. inversion Hj; subst j'. cbn [firstn speeds map]. apply avg_single.
Qed.

(** ** Averages stay within the range of the speeds *)






Section SpeedRange.
Variables (readings : list SensorReading) (sensors : list Sensor) (lo hi : Q).
Hypothesis in_range : forall r, In r readings -> (lo <= speed r /\ speed r <= hi)%Q.






End SpeedRange.



(** ** The density/speed summary *)

Lemma count_distinct_incl (vs ws : list Z) :
  incl vs ws -> count_distinct vs <= count_distinct ws.
Proof.
  intros H. unfold count_distinct. apply Nat2Z.inj_le.
  apply NoDup_incl_length; [apply NoDup_nodup|].
  intros v Hv. apply nodup_In. apply H. now apply nodup_In in Hv.
Qed.

Lemma count_distinct_positive (vs : list Z) : vs <> [] -> 1 <= count_distinct vs.
Proof.
  intros H. destruct vs as [|v t]; [congruence|]. unfold count_distinct.
  assert (I : In v (nodup Z.eq_dec (v :: t))) by (apply nodup_In; now left).
  destruct (nodup Z.eq_dec (v :: t)); [contradiction | simpl; lia].
Qed.

Lemma filter_has_key_string {A} (f : A -> string) (k : string) (l : list A) :
  filter (has_key string_dec f k) l = filter (fun a => String.eqb (f a) k) l.
Proof.
  apply filter_ext. intros a. unfold has_key.
  destruct (string_dec (f a) k) as [->|N].
  - symmetry. apply String.eqb_refl.
  - symmetry. now apply String.eqb_neq.
Qed.

Lemma query4_row (readings : list SensorReading) (sensors : list Sensor)
      (row : DensitySpeedSummary) :
  In row (query4 readings sensors) ->
  let here := filter (fun j => String.eqb (location_name (s_ j)) (ds_location_name row))
                     (join_sensors readings sensors) in
  here <> []
  /\ ds_vehicle_count row = count_distinct (map (fun j => vehicle_id (r_ j)) here)
  /\ ds_avg_speed row = avg (speeds here).
Proof.
  unfold query4. intros H. apply order_by_In, in_map_iff in H.
  destruct H as [[loc g] [<- Hg]]. cbn [ds_location_name ds_vehicle_count ds_avg_speed fst snd].
  pose proof (group_by_nonempty _ _ _ _ Hg) as Hne. apply group_by_In in Hg.
  cbn [fst snd] in *. destruct Hg as [_ ->].
  rewrite filter_has_key_string in *. repeat split. exact Hne.
Qed.

(** X8.  The density/speed summary has exactly one row for each location of
    the joined readings.  A row counts the distinct vehicles seen at its
    location, at least one.  The rows come by descending vehicle count. *)
Theorem density_summary_rows (readings : list SensorReading) (sensors : list Sensor) :
  let joined := join_sensors readings sensors in
  let out := query4 readings sensors in
  NoDup (map ds_location_name out)
  /\ (forall loc, In loc (map ds_location_name out) <->
                  exists j, In j joined /\ location_name (s_ j) = loc)
  /\ (forall row, In row out ->
        let here := filter (fun j => String.eqb (location_name (s_ j)) (ds_location_name row))
                           joined in
        1 <= ds_vehicle_count row
        /\ (exists ids, NoDup ids
              /\ (forall v, In v ids <->
                    exists j, In j joined
                              /\ location_name (s_ j) = ds_location_name row
                              /\ vehicle_id (r_ j) = v)
              /\ ds_vehicle_count row = Z.of_nat (length ids)))
  /\ StronglySorted (fun a b => ds_vehicle_count b <= ds_vehicle_count a) out.
Proof.
  intros joined out.
  assert (K : Permutation (map ds_location_name out)
                (nodup string_dec (map (fun j => location_name (s_ j)) joined))).
  { unfold out, query4. rewrite (Permutation_map _ (order_by_perm _ _)).
    rewrite map_map. cbn [ds_location_name].
    rewrite <- (group_by_keys string_dec). apply Permutation_refl. }
  split; [|split; [|split]].
  - apply (Permutation_NoDup (Permutation_sym K)). apply NoDup_nodup.
  - intros loc. split.
    + intros H. apply (Permutation_in _ K), nodup_In, in_map_iff in H.
      destruct H as [j [E Hj]]. exists j. auto.
    + intros [j [Hj E]]. apply (Permutation_in _ (Permutation_sym K)), nodup_In.
      rewrite <- E. now apply (in_map (fun j => location_name (s_ j))).
  - intros row Hrow here. destruct (query4_row _ _ row Hrow) as [Hne [Ec Ea]].
    fold joined in Hne, Ec, Ea. fold here in Hne, Ec, Ea. clear Ea.
    split.
    + rewrite Ec. apply count_distinct_positive. destruct here; [congruence | discriminate].
    + exists (nodup Z.eq_dec (map (fun j => vehicle_id (r_ j)) here)).
      split; [apply NoDup_nodup|]. split; [|exact Ec].
      intros v. rewrite nodup_In, in_map_iff. split.
      * intros [j [<- Hj]]. apply filter_In in Hj. destruct Hj as [Hj E].
        apply String.eqb_eq in E. exists j. auto.
      * intros [j [Hj [E <-]]]. exists j. split; [reflexivity|].
        apply filter_In. split; [exact Hj | now apply String.eqb_eq].
  - apply order_by_Z_desc_sorted.
Qed.

(** X9.  The vehicle count of an hour slot in the hourly flow never exceeds
    the vehicle count of its location in the density/speed summary. *)
Theorem hourly_count_within_density
        (readings : list SensorReading) (sensors : list Sensor)
        (f : HourlyFlow) (d : DensitySpeedSummary) :
  In f (hourly_flow readings sensors) -> In d (query4 readings sensors) ->
  hf_location_name f = ds_location_name d ->
  vehicle_count f <= ds_vehicle_count d.
Proof.
  intros Hf Hd E. destruct (query4_row _ _ d Hd) as [_ [-> _]].
  unfold hourly_flow in Hf. apply in_map_iff in Hf.
  destruct Hf as [[[loc slot] g] [<- Hg]]. cbn [fst snd hf_location_name vehicle_count] in *.
  apply group_by_In in Hg. cbn [fst snd] in Hg. destruct Hg as [_ ->].
  apply count_distinct_incl. intros v Hv. apply in_map_iff in Hv.
  destruct Hv as [j [<- Hj]]. apply (in_map (fun j => vehicle_id (r_ j))).
  apply filter_In in Hj. destruct Hj as [Hj Hk]. apply has_key_true in Hk.
  unfold flow_key in Hk. inversion Hk. apply filter_In. split; [exact Hj|].
  apply String.eqb_eq. congruence.
Qed.

(** On [three_hours] the 50 vehicles of hour 1 are among the 50 vehicles of
    the location. *)
Lemma hourly_count_within_density_witness :
  vehicle_count (mkFlow "Main Street" 3600 50)
  <= ds_vehicle_count (mkDensity "Main Street" 50 (avg (speeds (join_sensors three_hours two_sensors)))).
Proof.
  apply (hourly_count_within_density three_hours two_sensors).
  - vm_compute. right. now left.
  - vm_compute. now left.
  - reflexivity.
Defined.

(** ** The road-type breakdown and the size of the hourly views *)

Lemma hours_at_most_24 (hs : list Z) :
  NoDup hs -> (forall h, In h hs -> 0 <= h < 24) -> (length hs <= 24)%nat.
Proof.
  intros Hnd Hr. change 24%nat with (length (map Z.of_nat (seq 0 24))).
  apply NoDup_incl_length; [exact Hnd|]. intros h Hh. specialize (Hr h Hh).
  apply in_map_iff. exists (Z.to_nat h). split; [lia|]. apply in_seq. lia.
Qed.

Lemma query7_row (readings : list SensorReading) (sensors : list Sensor)
      (row : RoadTypeHourlyRecord) :
  In row (query7 readings sensors) ->
  let here := filter (fun j => String.eqb (road_type (s_ j)) (rt_road_type row)
                               && (extract_hour (record_time (r_ j)) =? rt_hour_of_day row))
                     (join_sensors readings sensors) in
  here <> [] /\ rt_avg_speed row = avg (speeds here) /\ 0 <= rt_hour_of_day row < 24.
Proof.
  unfold query7. intros H. apply order_by_In, in_map_iff in H.
  destruct H as [[[road h] g] [<- Hg]]. cbn [rt_road_type rt_hour_of_day rt_avg_speed fst snd].
  pose proof (group_by_nonempty _ _ _ _ Hg) as Hne. apply group_by_In in Hg.
  cbn [fst snd] in *. destruct Hg as [Hk Eg].
  assert (F : filter (has_key string_Z_dec
                        (fun j => (road_type (s_ j), extract_hour (record_time (r_ j))))
                        (road, h)) (join_sensors readings sensors)
              = filter (fun j => String.eqb (road_type (s_ j)) road
                                 && (extract_hour (record_time (r_ j)) =? h))
                       (join_sensors readings sensors)).
  { apply filter_ext. intros j.
    destruct (String.eqb_spec (road_type (s_ j)) road) as [E1|N1];
      destruct (Z.eqb_spec (extract_hour (record_time (r_ j))) h) as [E2|N2]; simpl.
    - apply has_key_true. now rewrite E1, E2.
    - destruct (has_key _ _ _ j) eqn:X; [|reflexivity]. apply has_key_true in X.
      inversion X. contradiction.
    - destruct (has_key _ _ _ j) eqn:X; [|reflexivity]. apply has_key_true in X.
      inversion X. contradiction.
    - destruct (has_key _ _ _ j) eqn:X; [|reflexivity]. apply has_key_true in X.
      inversion X. contradiction. }
  rewrite F in Eg. subst g. split; [exact Hne|]. split; [reflexivity|].
  apply in_map_iff in Hk. destruct Hk as [j [E _]]. inversion E.
  apply extract_hour_range.
Qed.

Lemma query7_keys (readings : list SensorReading) (sensors : list Sensor) :
  Permutation (map (fun row => (rt_road_type row, rt_hour_of_day row))
                   (query7 readings sensors))
              (nodup string_Z_dec
                 (map (fun j => (road_type (s_ j), extract_hour (record_time (r_ j))))
                      (join_sensors readings sensors))).
Proof.
  unfold query7. rewrite (Permutation_map _ (order_by_perm _ _)).
  rewrite map_map. cbn [rt_road_type rt_hour_of_day].
  rewrite <- (group_by_keys string_Z_dec).
  rewrite (map_ext (fun x : string * Z * list Joined => (fst (fst x), snd (fst x))) fst);
    [reflexivity|]. now intros [[a b] c].
Qed.

(** X10.  The road-type breakdown has exactly one row for each pair of a
    road type and an hour of day (0 to 23) of the joined readings; the rows
    come by road type and then by hour, at most 24 for a road type. *)
Theorem road_type_breakdown_rows (readings : list SensorReading) (sensors : list Sensor) :
  let joined := join_sensors readings sensors in
  let out := query7 readings sensors in
  NoDup (map (fun row => (rt_road_type row, rt_hour_of_day row)) out)
  /\ (forall road h, In (road, h) (map (fun row => (rt_road_type row, rt_hour_of_day row)) out)
        <-> exists j, In j joined /\ road_type (s_ j) = road
                      /\ extract_hour (record_time (r_ j)) = h)
  /\ (forall row, In row out -> 0 <= rt_hour_of_day row < 24)
  /\ StronglySorted (text_then_number rt_road_type rt_hour_of_day) out
  /\ (forall road,
        (length (filter (fun row => String.eqb (rt_road_type row) road) out) <= 24)%nat).
Proof.
  intros joined out. pose proof (query7_keys readings sensors) as K.
  fold out joined in K.
  assert (Hnd : NoDup (map (fun row => (rt_road_type row, rt_hour_of_day row)) out))
    by (apply (Permutation_NoDup (Permutation_sym K)); apply NoDup_nodup).
  split; [exact Hnd|]. split; [|split; [|split]].
  - intros road h. split.
    + intros H. apply (Permutation_in _ K), nodup_In, in_map_iff in H.
      destruct H as [j [E Hj]]. inversion E. exists j. auto.
    + intros [j [Hj [E1 E2]]]. apply (Permutation_in _ (Permutation_sym K)), nodup_In.
      rewrite <- E1, <- E2.
      now apply (in_map (fun j => (road_type (s_ j), extract_hour (record_time (r_ j))))).
  - intros row Hrow. destruct (query7_row _ _ row Hrow) as [_ [Ea Hh]]. auto.
  - unfold out, query7. apply order_by_text_then_number.
  - intros road.
    rewrite <- (length_map rt_hour_of_day). apply hours_at_most_24.
    + clear K. induction out as [|a t IH]; [constructor|].
      simpl in Hnd. inversion Hnd as [|? ? Hnotin Hnd']; subst. simpl.
      destruct (String.eqb_spec (rt_road_type a) road) as [E|N]; [|now apply IH].
      simpl. constructor; [|now apply IH].
      intros Hin. apply in_map_iff in Hin. destruct Hin as [b [Eb Hb]].
      apply filter_In in Hb. destruct Hb as [Hb Er]. apply String.eqb_eq in Er.
      apply Hnotin. apply in_map_iff. exists b. split; [|exact Hb]. congruence.
    + intros h Hh. apply in_map_iff in Hh. destruct Hh as [row [<- Hrow]].
      apply filter_In in Hrow. destruct Hrow as [Hrow _].
      now destruct (query7_row _ _ row Hrow) as [_ [_ Hr]].
Qed.

(** X11.  The hourly trend has at most 24 rows, one for each hour of day
    (0 to 23) in which some reading falls, whether or not its sensor is
    known. *)
Theorem trend_has_at_most_24_rows (readings : list SensorReading) :
  (length (query5 readings) <= 24)%nat
  /\ NoDup (map hour_of_day (query5 readings))
  /\ (forall row, In row (query5 readings) -> 0 <= hour_of_day row < 24)
  /\ (forall r, In r readings ->
                In (extract_hour (record_time r)) (map hour_of_day (query5 readings))).
Proof.
  assert (Hnd : NoDup (map hour_of_day (query5 readings))).
  { pose proof (query5_sorted readings) as Hs.
    induction Hs as [|a t Ht IH Ha]; [constructor|]. simpl. constructor; [|exact IH].
    intros Hin. apply in_map_iff in Hin. destruct Hin as [b [E Hb]].
    rewrite Forall_forall in Ha. specialize (Ha b Hb). lia. }
  assert (Hr : forall row, In row (query5 readings) -> 0 <= hour_of_day row < 24).
  { intros row Hrow. destruct (query5_row readings row Hrow) as [[r [_ <-]] _].
    apply extract_hour_range. }
  split; [|split; [exact Hnd|split; [exact Hr|]]].
  - rewrite <- (length_map hour_of_day). apply hours_at_most_24; [exact Hnd|].
    intros h Hh. apply in_map_iff in Hh. destruct Hh as [row [<- Hrow]]. now apply Hr.
  - intros r. apply query5_hours.
Qed.

(** ** When the anomaly query fails *)

Lemma Qsum_zero_terms (l : list Q) :
  (forall v, In v l -> 0 <= v)%Q -> (Qsum l == 0)%Q -> (forall v, In v l -> v == 0)%Q.
Proof.
  induction l as [|x t IH]; intros Hpos Hsum v Hv; [contradiction|].
  cbn [Qsum fold_right] in Hsum. fold (Qsum t) in Hsum.
  assert (Px : (0 <= x)%Q) by (apply Hpos; now left).
  assert (Pt : (0 <= Qsum t)%Q) by (apply Qsum_nonneg; intros w Hw; apply Hpos; now right).
  destruct Hv as [<-|Hv]; [lra|].
  apply IH; [intros w Hw; apply Hpos; now right | lra | exact Hv].
Qed.

Lemma shifted_squares (m : Q) (l : list Q) :
  (Qsum (map (fun x => (x - m) * (x - m)) l)
   == Qsum (map (fun x => x * x) l) - (2 # 1) * m * Qsum l
      + inject_Z (Z.of_nat (length l)) * m * m)%Q.
Proof.
  induction l as [|x t IH].
  - cbn [map Qsum fold_right length Z.of_nat]. change (inject_Z 0) with 0%Q. ring.
  - cbn [map Qsum fold_right length].
    fold (Qsum (map (fun x => (x - m) * (x - m))%Q t)).
    fold (Qsum (map (fun x => x * x)%Q t)). fold (Qsum t).
    rewrite IH, Nat2Z.inj_succ, <- Z.add_1_r, inject_Z_plus.
    change (inject_Z 1) with 1%Q. ring.
Qed.

(** The numerator of the variance is [N] times the sum of the squared
    deviations from the mean. *)
Lemma variance_numerator (l : list Q) :
  l <> [] ->
  (inject_Z (Z.of_nat (length l)) * Qsum (map (fun x => x * x) l) - Qsum l * Qsum l
   == inject_Z (Z.of_nat (length l))
      * Qsum (map (fun x => (x - avg l) * (x - avg l)) l))%Q.
Proof.
  intros Hne. rewrite shifted_squares. unfold avg.
  assert (P : ~ (inject_Z (Z.of_nat (length l)) == 0)%Q).
  { intros E. assert (L : (inject_Z 0 < inject_Z (Z.of_nat (length l)))%Q).
    { rewrite <- Zlt_Qlt. destruct l; [congruence | simpl; lia]. }
    rewrite E in L. apply (Qlt_irrefl _ L). }
  field. exact P.
Qed.

Lemma zero_numerator_constant (l : list Q) :
  l <> [] ->
  (inject_Z (Z.of_nat (length l)) * Qsum (map (fun x => x * x) l) - Qsum l * Qsum l <= 0)%Q ->
  (forall v, In v l -> v == avg l)%Q.
Proof.
  intros Hne H v Hv. rewrite (variance_numerator l Hne) in H.
  assert (P : (0 < inject_Z (Z.of_nat (length l)))%Q).
  { change 0%Q with (inject_Z 0). rewrite <- Zlt_Qlt.
    destruct l; [congruence | simpl; lia]. }
  assert (S0 : (0 <= Qsum (map (fun x => (x - avg l) * (x - avg l)) l))%Q).
  { apply Qsum_nonneg. intros w Hw. apply in_map_iff in Hw.
    destruct Hw as [x [<- _]]. apply square_nonneg. }
  assert (Z0 : (Qsum (map (fun x => (x - avg l) * (x - avg l)) l) == 0)%Q).
  { apply Qle_antisym; [|exact S0].
    destruct (Qlt_le_dec 0 (Qsum (map (fun x => (x - avg l) * (x - avg l))%Q l))) as [G|G];
      [|exact G].
    exfalso. pose proof (Qmult_lt_0_compat _ _ P G). lra. }
  assert (T : ((v - avg l) * (v - avg l) == 0)%Q).
  { apply (Qsum_zero_terms (map (fun x => (x - avg l) * (x - avg l))%Q l)).
    - intros w Hw. apply in_map_iff in Hw. destruct Hw as [x [<- _]].
      apply square_nonneg.
    - exact Z0.
    - apply (in_map (fun x => (x - avg l) * (x - avg l))%Q). exact Hv. }
  apply Qmult_integral in T. destruct T; lra.
Qed.

Section AnomalyFailure.
Variable numeric_sqrt : Q -> Q.
Hypothesis sqrt_positive : forall v, (0 < v)%Q -> ~ (numeric_sqrt v == 0)%Q.

(** A standard deviation is zero only for two or more equal values. *)
Lemma stddev_zero_inv (l : list Q) (d : Q) :
  stddev numeric_sqrt l = Some d -> (d == 0)%Q ->
  (2 <= length l)%nat /\ (forall v w, In v l -> In w l -> v == w)%Q.
Proof.
  unfold stddev. destruct (Nat.leb_spec (length l) 1) as [L|L]; [discriminate|].
  intros H Hd. split; [lia|].
  assert (Hne : l <> []) by (destruct l; [simpl in L; lia | discriminate]).
  destruct (Qle_bool _ 0) eqn:E.
  - apply Qle_bool_iff in E. intros v w Hv Hw.
    rewrite (zero_numerator_constant l Hne E v Hv), (zero_numerator_constant l Hne E w Hw).
    reflexivity.
  - exfalso. inversion H as [Ed]. rewrite <- Ed in Hd. revert Hd. apply sqrt_positive.
    assert (N : (0 < inject_Z (Z.of_nat (length l)) * Qsum (map (fun x => x * x) l)
                     - Qsum l * Qsum l)%Q).
    { destruct (Qlt_le_dec 0 (inject_Z (Z.of_nat (length l)) * Qsum (map (fun x => x * x) l)
                              - Qsum l * Qsum l)%Q) as [G|G]; [exact G|].
      apply Qle_bool_iff in G. congruence. }
    assert (P : (inject_Z 2 <= inject_Z (Z.of_nat (length l)))%Q)
      by (rewrite <- Zle_Qle; lia).
    change (inject_Z 2) with 2%Q in P.
    apply Qlt_shift_div_l; [|lra].
    apply Qmult_lt_0_compat; lra.
Qed.
End AnomalyFailure.

Lemma for_each_raised_inv {A B} (f : A -> outcome B) (l : list A) (e : exception) :
  for_each f l = Raised e -> exists a, In a l /\ f a = Raised e.
Proof.
  induction l as [|x t IH]; simpl; [discriminate|].
  destruct (f x) as [b|e'] eqn:E; simpl.
  - destruct (for_each f t) as [bs|e'] eqn:E'; simpl; [discriminate|].
    intros H. inversion H; subst. destruct (IH eq_refl) as [a [Ha Hf]].
    exists a. split; [now right | exact Hf].
  - intros H. inversion H; subst. exists x. split; [now left | exact E].
Qed.

(** X12.  With a square root that is positive on positive numbers, query 6
    fails exactly when some sensor has two or more joined readings that all
    have the same speed, and then it fails with a division by zero; it never
    raises anything else. *)
Theorem anomaly_query_fails_iff
        (numeric_sqrt : Q -> Q) (readings : list SensorReading) (sensors : list Sensor) :
  (forall v, (0 < v)%Q -> ~ (numeric_sqrt v == 0)%Q) ->
  (query6 numeric_sqrt readings sensors = Raised division_by_zero <->
   exists sid,
     (2 <= length (sensor_history sid readings sensors))%nat
     /\ (forall v w, In v (sensor_history sid readings sensors) ->
                     In w (sensor_history sid readings sensors) -> v == w)%Q)
  /\ (forall e, query6 numeric_sqrt readings sensors = Raised e -> e = division_by_zero).
Proof.
  intros Hsqrt.
  assert (Inv : forall e, query6 numeric_sqrt readings sensors = Raised e ->
                e = division_by_zero
                /\ exists sid,
                     (2 <= length (sensor_history sid readings sensors))%nat
                     /\ (forall v w, In v (sensor_history sid readings sensors) ->
                                     In w (sensor_history sid readings sensors) -> v == w)%Q).
  { intros e H. unfold query6 in H.
    destruct (for_each _ _) as [keyed|e'] eqn:E; simpl in H; [discriminate|].
    inversion H; subst e'. apply for_each_raised_inv in E.
    destruct E as [[j st] [Hjs Hrow]]. cbn [fst snd] in Hrow.
    split; [exact (anomaly_row_raises j st e Hrow)|].
    apply in_flat_map in Hjs. destruct Hjs as [j' [_ Hjs]].
    apply in_map_iff in Hjs. destruct Hjs as [st' [Ejs Hst]]. inversion Ejs; subst j' st'.
    apply filter_In in Hst. destruct Hst as [Hst _].
    pose proof (stats_In numeric_sqrt _ _ st Hst) as Est.
    unfold anomaly_row, deviation, numeric_div in Hrow.
    destruct (std_speed st) as [d|] eqn:Ed; simpl in Hrow; [|discriminate].
    destruct (Qeq_bool d 0) eqn:Ez; simpl in Hrow; [|discriminate].
    apply Qeq_bool_iff in Ez. rewrite Est in Ed. cbn [std_speed] in Ed.
    exists (st_sensor_id st). exact (stddev_zero_inv numeric_sqrt Hsqrt _ d Ed Ez). }
  split; [split|].
  - intros H. now destruct (Inv _ H).
  - intros [sid [Hn Hall]].
    destruct (sensor_history sid readings sensors) as [|c t] eqn:E; [simpl in Hn; lia|].
    rewrite <- E in Hn, Hall.
    assert (Hc : (forall v, In v (sensor_history sid readings sensors) -> v == c)%Q).
    { intros v Hv. apply Hall; [exact Hv|]. rewrite E. now left. }
    unfold query6.
    unfold sensor_history, speeds in Hn. rewrite length_map in Hn.
    destruct (filter (fun j => s_sensor_id (s_ j) =? sid)
                     (join_sensors readings sensors)) as [|j u] eqn:F;
      [simpl in Hn; lia|].
    assert (Hj : In j (filter (fun j => s_sensor_id (s_ j) =? sid)
                              (join_sensors readings sensors)))
      by (rewrite F; now left).
    apply filter_In in Hj. destruct Hj as [Hj Hsid]. apply Z.eqb_eq in Hsid.
    destruct (stats_of_joined numeric_sqrt _ _ j Hj) as [st [Hst Eid]].
    pose proof (stats_In numeric_sqrt _ _ st Hst) as Est.
    assert (Hn' : (2 <= length (sensor_history sid readings sensors))%nat).
    { unfold sensor_history, speeds. rewrite length_map, F. exact Hn. }
    rewrite Eid, Hsid, (stddev_constant numeric_sqrt _ c Hn' Hc) in Est.
    rewrite (for_each_raises _ _ (j, st) division_by_zero); [reflexivity | | |].
    + intros [j' st'] e'. apply anomaly_row_raises.
    + apply in_flat_map. exists j. split; [exact Hj|].
      apply in_map. apply filter_In. split; [exact Hst | now apply Z.eqb_eq].
    + cbn [fst snd]. rewrite Est. reflexivity.
  - intros e H. now destruct (Inv _ H).
Qed.

Lemma sqrt16_up_positive (v : Q) : (0 < v)%Q -> ~ (sqrt16_up v == 0)%Q.
Proof.
  intros Hv. unfold sqrt16_up.
  assert (P : (0 < v * inject_Z (10 ^ 32))%Q).
  { apply Qmult_lt_0_compat; [exact Hv|]. reflexivity. }
  assert (C : 0 < Qceiling (v * inject_Z (10 ^ 32))).
  { pose proof (Qle_ceiling (v * inject_Z (10 ^ 32))) as L.
    assert (G : (inject_Z 0 < inject_Z (Qceiling (v * inject_Z (10 ^ 32))))%Q)
      by (change (inject_Z 0) with 0%Q; lra).
    now rewrite <- Zlt_Qlt in G. }
  apply Z.sqrt_up_pos in C. intros E. unfold Qeq in E. cbn [Qnum Qden] in E.
  rewrite Z.mul_0_l, Z.mul_1_r in E. lia.
Qed.

(** With [sqrt16_up], which is positive on positive numbers, on
    [anomaly_sample]. *)
Lemma anomaly_query_fails_iff_witness :
  query6 sqrt16_up anomaly_sample two_sensors = Raised division_by_zero <->
  exists sid,
    (2 <= length (sensor_history sid anomaly_sample two_sensors))%nat
    /\ (forall v w, In v (sensor_history sid anomaly_sample two_sensors) ->
                    In w (sensor_history sid anomaly_sample two_sensors) -> v == w)%Q.
Proof.
  exact (proj1 (anomaly_query_fails_iff sqrt16_up anomaly_sample two_sensors
                  sqrt16_up_positive)).
Defined.

(** ** The rows of the anomaly query *)

Lemma round2_count_nonneg (x : Q) : 0 <= Qfloor (Qabs x * 100 + (1 # 2))%Q.
Proof.
  change 0 with (Qfloor 0). apply Qfloor_resp_le.
  pose proof (Qabs_nonneg x). lra.
Qed.

Lemma round2_nonneg (x : Q) :
  (0 <= x)%Q -> round2 x = (Qfloor (x * 100 + (1 # 2)) # 100)%Q.
Proof.
  intros H. unfold round2. rewrite (proj2 (Qle_bool_iff 0 x) H).
  f_equal. apply Qfloor_comp. now rewrite (Qabs_pos x H).
Qed.

Lemma round2_abs (x : Q) : Qabs (round2 x) = round2 (Qabs x).
Proof.
  rewrite (round2_nonneg (Qabs x) (Qabs_nonneg x)).
  pose proof (round2_count_nonneg x) as N. unfold round2. cbv zeta.
  set (n := Qfloor (Qabs x * 100 + (1 # 2))%Q) in *.
  destruct (Qle_bool 0 x).
  - change (Qabs (n # 100)) with (Z.abs n # 100)%Q. f_equal. lia.
  - change (Qabs (- n # 100)) with (Z.abs (- n) # 100)%Q. f_equal. lia.
Qed.

Lemma round2_mono (x y : Q) : (0 <= x)%Q -> (x <= y)%Q -> (round2 x <= round2 y)%Q.
Proof.
  intros Hx Hxy. rewrite (round2_nonneg x Hx), (round2_nonneg y) by lra.
  assert (L : Qfloor (x * 100 + (1 # 2))%Q <= Qfloor (y * 100 + (1 # 2))%Q)
    by (apply Qfloor_resp_le; lra).
  unfold Qle. cbn [Qnum Qden]. lia.
Qed.

Lemma round2_two : round2 2 = (200 # 100)%Q.
Proof. reflexivity. Qed.

(** A score shown as rounded stays on its side of 2. *)
Lemma rounded_score_side (x : Q) :
  ((2 < Qabs x)%Q -> (2 <= Qabs (round2 x))%Q)
  /\ ((Qabs x <= 2)%Q -> (Qabs (round2 x) <= 2)%Q).
Proof.
  rewrite round2_abs. split; intros H.
  - assert (L : (round2 2 <= round2 (Qabs x))%Q) by (apply round2_mono; lra).
    rewrite round2_two in L. assert (E : (200 # 100 == 2)%Q) by reflexivity. lra.
  - assert (L : (round2 (Qabs x) <= round2 2)%Q)
      by (apply round2_mono; [apply Qabs_nonneg | exact H]).
    rewrite round2_two in L. assert (E : (200 # 100 == 2)%Q) by reflexivity. lra.
Qed.

Lemma for_each_Forall2 {A B} (f : A -> outcome B) (l : list A) (bs : list B) :
  for_each f l = Ok bs -> Forall2 (fun a b => f a = Ok b) l bs.
Proof.
  revert bs. induction l as [|x t IH]; intros bs H; simpl in H.
  - inversion H. constructor.
  - destruct (f x) as [y|e] eqn:E; simpl in H; [|discriminate].
    destruct (for_each f t) as [ys|e] eqn:E'; simpl in H; [|discriminate].
    inversion H; subst. constructor; [exact E | now apply IH].
Qed.

Lemma sorted_map_in {A B} (R : A -> A -> Prop) (R' : B -> B -> Prop) (f : A -> B)
      (l : list A) :
  (forall a b, In a l -> In b l -> R a b -> R' (f a) (f b)) ->
  StronglySorted R l -> StronglySorted R' (map f l).
Proof.
  intros H Hs. induction Hs as [|x t Ht IH Hx]; [constructor|]. simpl. constructor.
  - apply IH. intros a b Ha Hb. apply H; now right.
  - rewrite Forall_forall in *. intros y Hy. apply in_map_iff in Hy.
    destruct Hy as [a [<- Ha]]. apply H; [now left | now right | now apply Hx].
Qed.

Section AnomalyRows.
Variable numeric_sqrt : Q -> Q.
Variables (readings : list SensorReading) (sensors : list Sensor).

(** [stats] has one row for the sensor of a joined reading. *)
Lemma stats_of_sensor (j : Joined) :
  In j (join_sensors readings sensors) ->
  filter (fun q => st_sensor_id q =? s_sensor_id (s_ j))
         (stats numeric_sqrt readings sensors)
  = [ mkStats (s_sensor_id (s_ j))
              (avg (sensor_history (s_sensor_id (s_ j)) readings sensors))
              (stddev numeric_sqrt (sensor_history (s_sensor_id (s_ j)) readings sensors)) ].
Proof.
  intros Hj. unfold stats, group_by. rewrite map_map. cbn [fst snd].
  rewrite filter_map_swap. cbn [st_sensor_id].
  rewrite (filter_unique _ _ (s_sensor_id (s_ j))).
  - cbn [map]. rewrite filter_has_key_Z. reflexivity.
  - apply NoDup_nodup.
  - apply nodup_In. now apply (in_map (fun j => s_sensor_id (s_ j))).
  - apply Z.eqb_refl.
  - intros k _ E. now apply Z.eqb_eq in E.
Qed.

(** What the select list of query 6 makes of a joined reading and the stats
    row of its sensor. *)
Lemma anomaly_row_Ok (j : Joined) (st : SensorStats) (row : AnomalyScoreRecord)
      (k : option Q) :
  anomaly_row j st = Ok (row, k) ->
  anomaly_key row = joined_key j
  /\ match std_speed st with
     | None => z_score row = None /\ as_traffic_status row = Regular /\ k = None
     | Some d =>
         ~ (d == 0)%Q
         /\ z_score row = Some (round2 ((speed (r_ j) - mean_speed st) / d))
         /\ (as_traffic_status row = Irregular <->
             (2 < Qabs ((speed (r_ j) - mean_speed st) / d))%Q)
         /\ k = Some (Qabs ((speed (r_ j) - mean_speed st) / d))
     end.
Proof.
  unfold anomaly_row, deviation, numeric_div, bind, option_map.
  destruct (std_speed st) as [d|].
  - destruct (Qeq_bool d 0) eqn:E; [discriminate|].
    apply Qeq_bool_neq in E.
    remember (Qabs ((speed (r_ j) - mean_speed st) / d)) as size eqn:Es.
    intros H. injection H as Er Ek. subst row k.
    split; [reflexivity|]. split; [exact E|]. split; [reflexivity|].
    split; [|reflexivity]. unfold as_traffic_status.
    destruct (Qlt_bool 2 size) eqn:L.
    + apply Qlt_bool_iff in L. split; [intros _; exact L | reflexivity].
    + apply Qlt_bool_false in L. split; [discriminate|]. intros G. lra.
  - intros H. injection H as Er Ek. subst row k. repeat split.
Qed.

Lemma query6_keyed (rows : list AnomalyScoreRecord) :
  query6 numeric_sqrt readings sensors = Ok rows ->
  exists keyed,
    rows = map fst (order_by (desc (by_nullable snd)) keyed)
    /\ Forall2 (fun j p =>
                  anomaly_row j
                    (mkStats (s_sensor_id (s_ j))
                       (avg (sensor_history (s_sensor_id (s_ j)) readings sensors))
                       (stddev numeric_sqrt
                          (sensor_history (s_sensor_id (s_ j)) readings sensors)))
                  = Ok p)
               (join_sensors readings sensors) keyed.
Proof.
  unfold query6. intros H.
  rewrite (flat_map_singletons _
             (fun j => (j, mkStats (s_sensor_id (s_ j))
                             (avg (sensor_history (s_sensor_id (s_ j)) readings sensors))
                             (stddev numeric_sqrt
                                (sensor_history (s_sensor_id (s_ j)) readings sensors)))))
    in H by (intros j Hj; now rewrite (stats_of_sensor j Hj)).
  destruct (for_each _ _) as [keyed|e] eqn:E; simpl in H; [|discriminate].
  inversion H; subst rows. exists keyed. split; [reflexivity|].
  apply for_each_Forall2 in E. clear H.
  remember (join_sensors readings sensors) as joined eqn:Ej. clear Ej.
  revert keyed E. induction joined as [|j t IH]; intros keyed E; simpl in E.
  - inversion E. constructor.
  - inversion E as [|? p ? ps Hp Hps]; subst. constructor; [exact Hp | now apply IH].
Qed.
End AnomalyRows.

Lemma Forall2_In_r {A B} (R : A -> B -> Prop) (l : list A) (l' : list B) (b : B) :
  Forall2 R l l' -> In b l' -> exists a, In a l /\ R a b.
Proof.
  induction 1 as [|x y t u Hxy _ IH]; intros Hb; [contradiction|].
  destruct Hb as [<-|Hb].
  - exists x. split; [now left | exact Hxy].
  - destruct (IH Hb) as [a [Ha Hr]]. exists a. split; [now right | exact Hr].
Qed.

Lemma le_of_desc_nullable {A} (f : A -> option Q) (a b : A) :
  le_of (desc (by_nullable f)) a b ->
  match f a, f b with
  | None, _ => True
  | Some _, None => False
  | Some x, Some y => (y <= x)%Q
  end.
Proof.
  unfold le_of, leb_of, desc, by_nullable.
  destruct (f a) as [x|], (f b) as [y|]; try (intros _; exact I); try discriminate.
  intros H. apply Qle_alt. intros G. now rewrite G in H.
Qed.

(** X13.  When query 6 returns, it has one row for each joined reading.  A
    reading of a sensor with a single reading has no score and is Regular.
    Any other reading has the score [(speed - mean) / std_dev] of its
    sensor, rounded to two decimals, and is Irregular exactly when the
    unrounded score is beyond 2 in absolute value; so an Irregular row shows
    an absolute score of at least 2 and a Regular row of at most 2.  The rows
    without a score come first, the others by descending absolute score. *)
Theorem anomaly_rows_are_scored
        (numeric_sqrt : Q -> Q) (readings : list SensorReading) (sensors : list Sensor)
        (rows : list AnomalyScoreRecord) :
  query6 numeric_sqrt readings sensors = Ok rows ->
  Permutation (map anomaly_key rows) (map joined_key (join_sensors readings sensors))
  /\ (forall row, In row rows ->
        let history := sensor_history (as_sensor_id row) readings sensors in
        match stddev numeric_sqrt history with
        | None => z_score row = None /\ as_traffic_status row = Regular
        | Some d =>
            ~ (d == 0)%Q
            /\ z_score row = Some (round2 ((as_speed row - avg history) / d))
            /\ (as_traffic_status row = Irregular <->
                (2 < Qabs ((as_speed row - avg history) / d))%Q)
        end)
  /\ (forall row z, In row rows -> z_score row = Some z ->
        (as_traffic_status row = Irregular -> (2 <= Qabs z)%Q)
        /\ (as_traffic_status row = Regular -> (Qabs z <= 2)%Q))
  /\ StronglySorted score_order rows.
Proof.
  intros H. destruct (query6_keyed numeric_sqrt readings sensors rows H) as [keyed [-> F]].
  set (stat := fun j : Joined =>
         mkStats (s_sensor_id (s_ j))
                 (avg (sensor_history (s_sensor_id (s_ j)) readings sensors))
                 (stddev numeric_sqrt (sensor_history (s_sensor_id (s_ j)) readings sensors)))
    in *.
  assert (Row : forall p, In p keyed ->
            exists j, In j (join_sensors readings sensors)
                      /\ anomaly_row j (stat j) = Ok p).
  { intros p Hp. exact (Forall2_In_r _ _ _ p F Hp). }
  assert (Each : forall row, In row (map fst (order_by (desc (by_nullable snd)) keyed)) ->
            exists j k, In j (join_sensors readings sensors)
                        /\ anomaly_row j (stat j) = Ok (row, k)).
  { intros row Hrow. apply in_map_iff in Hrow. destruct Hrow as [[row' k] [E Hp]].
    cbn [fst] in E. subst row'. apply order_by_In in Hp.
    destruct (Row _ Hp) as [j [Hj Hr]]. exists j, k. auto. }
  assert (Per : forall row, In row (map fst (order_by (desc (by_nullable snd)) keyed)) ->
            let history := sensor_history (as_sensor_id row) readings sensors in
            match stddev numeric_sqrt history with
            | None => z_score row = None /\ as_traffic_status row = Regular
            | Some d =>
                ~ (d == 0)%Q
                /\ z_score row = Some (round2 ((as_speed row - avg history) / d))
                /\ (as_traffic_status row = Irregular <->
                    (2 < Qabs ((as_speed row - avg history) / d))%Q)
            end).
  { intros row Hrow history. destruct (Each row Hrow) as [j [k [Hj Hr]]].
    destruct (anomaly_row_Ok j (stat j) row k Hr) as [Ek Hs].
    unfold anomaly_key, joined_key in Ek. inversion Ek as [[E1 E2 E3 E4]].
    apply join_sensors_In in Hj. destruct Hj as [_ [_ Eon]].
    unfold history. rewrite E1, <- Eon. unfold stat in Hs. cbn [std_speed mean_speed] in Hs.
    destruct (stddev numeric_sqrt (sensor_history (s_sensor_id (s_ j)) readings sensors));
      [|tauto].
    rewrite E4. tauto. }
  split; [|split; [exact Per|split]].
  - rewrite (Permutation_map anomaly_key (Permutation_map fst (order_by_perm _ keyed))).
    assert (E : map anomaly_key (map fst keyed)
                = map joined_key (join_sensors readings sensors)); [|now rewrite E].
    clear -F. induction F as [|j p t u Hp _ IH]; [reflexivity|].
    simpl. rewrite IH. f_equal. destruct p as [row k].
    now destruct (anomaly_row_Ok j _ row k Hp) as [Ek _].
  - intros row z Hrow Hz. specialize (Per row Hrow). cbv zeta in Per.
    destruct (stddev numeric_sqrt (sensor_history (as_sensor_id row) readings sensors))
      as [d|].
    + destruct Per as [_ [Ez Hs]]. rewrite Ez in Hz. inversion Hz as [Ezz].
      destruct (rounded_score_side
                  ((as_speed row - avg (sensor_history (as_sensor_id row) readings sensors))
                   / d)) as [Up Down].
      split; intros St.
      * apply Up. now apply Hs.
      * apply Down. destruct (Qlt_le_dec 2 (Qabs ((as_speed row
            - avg (sensor_history (as_sensor_id row) readings sensors)) / d))) as [G|G];
          [|exact G].
        apply Hs in G. congruence.
    + destruct Per as [Ez _]. congruence.
  - apply (sorted_map_in (le_of (desc (by_nullable snd)))).
    + intros [ra ka] [rb kb] Ha Hb Hle. apply order_by_In in Ha. apply order_by_In in Hb.
      apply le_of_desc_nullable in Hle. cbn [fst snd] in *.
      destruct (Row _ Ha) as [ja [_ Hra]]. destruct (Row _ Hb) as [jb [_ Hrb]].
      destruct (anomaly_row_Ok ja _ ra ka Hra) as [_ Sa].
      destruct (anomaly_row_Ok jb _ rb kb Hrb) as [_ Sb].
      unfold score_order.
      destruct (std_speed (stat ja)) as [da|].
      * destruct Sa as [_ [Za [_ Ka]]]. rewrite Za. subst ka.
        destruct (std_speed (stat jb)) as [db|].
        -- destruct Sb as [_ [Zb [_ Kb]]]. rewrite Zb. subst kb.
           rewrite !round2_abs. apply round2_mono; [apply Qabs_nonneg | exact Hle].
        -- destruct Sb as [_ [_ Kb]]. subst kb. contradiction.
      * destruct Sa as [Za _]. now rewrite Za.
    + exact (order_by_lawful (desc (by_nullable snd)) keyed).
Qed.

(** On [anomaly_sample] the statement returns, and its rows are in order. *)
Lemma anomaly_rows_are_scored_witness :
  exists rows,
    query6 sqrt16 anomaly_sample two_sensors = Ok rows
    /\ Permutation (map anomaly_key rows)
                   (map joined_key (join_sensors anomaly_sample two_sensors))
    /\ StronglySorted score_order rows.
Proof.
  assert (E : exists rows, query6 sqrt16 anomaly_sample two_sensors = Ok rows)
    by (eexists; vm_compute; reflexivity).
  destruct E as [rows E]. exists rows. split; [exact E|].
  destruct (anomaly_rows_are_scored sqrt16 anomaly_sample two_sensors rows E)
    as [P [_ [_ S]]].
  split; assumption.
Defined.

(** ** What the page script shows and raises *)

Lemma lookup_None {V} (k : string) (d : list (string * V)) :
  ~ In k (map fst d) -> lookup k d = None.
Proof.
  induction d as [|[k' v] t IH]; intros H; [reflexivity|]. simpl.
  destruct (String.eqb_spec k k') as [E|N].
  - exfalso. apply H. left. now rewrite E.
  - apply IH. intros Hin. apply H. now right.
Qed.

Lemma Forall2_In_l {A B} (R : A -> B -> Prop) (l : list A) (l' : list B) (a : A) :
  Forall2 R l l' -> In a l -> exists b, In b l' /\ R a b.
Proof.
  induction 1 as [|x y t u Hxy _ IH]; intros Ha; [contradiction|].
  destruct Ha as [<-|Ha].
  - exists y. split; [now left | exact Hxy].
  - destruct (IH Ha) as [b [Hb Hr]]. exists b. split; [now right | exact Hr].
Qed.

Lemma stddev_null (numeric_sqrt : Q -> Q) (l : list Q) :
  stddev numeric_sqrt l = None <-> (length l <= 1)%nat.
Proof.
  unfold stddev. destruct (Nat.leb_spec (length l) 1) as [L|L].
  - tauto.
  - split; [|lia]. destruct (Qle_bool _ 0); discriminate.
Qed.

Lemma own_history (readings : list SensorReading) (sensors : list Sensor) (j : Joined) :
  In j (join_sensors readings sensors) ->
  (1 <= length (sensor_history (s_sensor_id (s_ j)) readings sensors))%nat.
Proof.
  intros Hj. unfold sensor_history, speeds. rewrite length_map.
  assert (I : In j (filter (fun j' => s_sensor_id (s_ j') =? s_sensor_id (s_ j))
                           (join_sensors readings sensors)))
    by (apply filter_In; split; [exact Hj | apply Z.eqb_refl]).
  destruct (filter _ _); [contradiction | simpl; lia].
Qed.

(** The rows of query 6 all lack a score exactly when no sensor has two
    joined readings. *)
Lemma all_scores_null (numeric_sqrt : Q -> Q) (readings : list SensorReading)
      (sensors : list Sensor) (rows : list AnomalyScoreRecord) :
  query6 numeric_sqrt readings sensors = Ok rows ->
  length rows = length (join_sensors readings sensors)
  /\ (forallb (fun x => is_null (z_score x)) rows = true <->
      forall j, In j (join_sensors readings sensors) ->
                length (sensor_history (s_sensor_id (s_ j)) readings sensors) = 1%nat).
Proof.
  intros H. destruct (query6_keyed numeric_sqrt readings sensors rows H) as [keyed [-> F]].
  split.
  - rewrite length_map, order_by_length. symmetry. exact (Forall2_length F).
  - rewrite forallb_forall. split.
    + intros N j Hj. pose proof (own_history readings sensors j Hj) as L1.
      destruct (Forall2_In_l _ _ _ j F Hj) as [[row k] [Hp Hr]].
      apply anomaly_row_Ok in Hr. destruct Hr as [_ Hr]. cbn [std_speed] in Hr.
      assert (Hrow : In row (map fst (order_by (desc (by_nullable snd)) keyed))).
      { apply in_map_iff. exists (row, k). split; [reflexivity | now apply order_by_In]. }
      specialize (N row Hrow).
      destruct (stddev numeric_sqrt (sensor_history (s_sensor_id (s_ j)) readings sensors))
        as [d|] eqn:S.
      * destruct Hr as [_ [Hz _]]. rewrite Hz in N. discriminate.
      * apply stddev_null in S. lia.
    + intros L row Hrow. apply in_map_iff in Hrow. destruct Hrow as [[row' k] [E Hp]].
      cbn [fst] in E. subst row'. apply order_by_In in Hp.
      destruct (Forall2_In_r _ _ _ _ F Hp) as [j [Hj Hr]].
      apply anomaly_row_Ok in Hr. destruct Hr as [_ Hr]. cbn [std_speed] in Hr.
      assert (S : stddev numeric_sqrt (sensor_history (s_sensor_id (s_ j)) readings sensors)
                  = None) by (apply stddev_null; rewrite (L j Hj); lia).
      rewrite S in Hr. destruct Hr as [Hz _]. now rewrite Hz.
Qed.

(** Without a sensor of two joined readings query 6 divides by nothing. *)
Lemma query6_without_deviation (numeric_sqrt : Q -> Q) (readings : list SensorReading)
      (sensors : list Sensor) :
  (forall j, In j (join_sensors readings sensors) ->
             length (sensor_history (s_sensor_id (s_ j)) readings sensors) = 1%nat) ->
  exists rows, query6 numeric_sqrt readings sensors = Ok rows.
Proof.
  intros L. destruct (query6 numeric_sqrt readings sensors) as [rows|e] eqn:E;
    [now exists rows|]. exfalso.
  unfold query6 in E.
  rewrite (flat_map_singletons _
             (fun j => (j, mkStats (s_sensor_id (s_ j))
                             (avg (sensor_history (s_sensor_id (s_ j)) readings sensors))
                             (stddev numeric_sqrt
                                (sensor_history (s_sensor_id (s_ j)) readings sensors)))))
    in E by (intros j Hj; now rewrite (stats_of_sensor numeric_sqrt readings sensors j Hj)).
  destruct (for_each _ _) as [keyed|e'] eqn:F; simpl in E; [discriminate|].
  apply for_each_raised_inv in F. destruct F as [[j st] [Hin Hr]].
  apply in_map_iff in Hin. destruct Hin as [j' [Ej Hj]]. inversion Ej; subst j' st.
  cbn [fst snd] in Hr. unfold anomaly_row, deviation in Hr. cbn [std_speed] in Hr.
  assert (S : stddev numeric_sqrt (sensor_history (s_sensor_id (s_ j)) readings sensors)
              = None) by (apply stddev_null; rewrite (L j Hj); lia).
  rewrite S in Hr. discriminate.
Qed.

(** X14.  Let the speeds be in the range of the doubles.  For each of the
    seven titles the page script either shows the warning "No data
    returned." or goes on to draw the chart of that title's own view from
    the rows of its statement: no title is taken by the branch of another
    view or falls through all branches, and no [KeyError] is raised.  Up to
    the call that draws the chart only the irregular title can fail, in two
    ways: with the division by zero of its statement, and with the
    [TypeError] of [abs] on a [z_score] column of NULLs only, which is
    raised exactly when there are joined readings and no sensor has two of
    them.  A title that is not a key of [QUERIES] raises [KeyError]. *)
Theorem page_script_outcomes
        (numeric_sqrt : Q -> Q) (readings : list SensorReading) (sensors : list Sensor) :
  Forall (fun r => in_float8_range (speed r) = true) readings ->
  (forall title, In title (map fst (QUERIES numeric_sqrt)) ->
     match cycle numeric_sqrt title readings sensors with
     | Ok (st_warning msg) => msg = "No data returned."%string
     | Ok shown => view_of_page shown = Some title
     | Raised e =>
         title = "6. Irregular patterns and possible incidents"%string
         /\ (e = division_by_zero
             \/ e = type_error "bad operand type for abs(): 'NoneType'")
     end)
  /\ (cycle numeric_sqrt "6. Irregular patterns and possible incidents" readings sensors
      = Raised division_by_zero
      <-> query6 numeric_sqrt readings sensors = Raised division_by_zero)
  /\ (cycle numeric_sqrt "6. Irregular patterns and possible incidents" readings sensors
      = Raised (type_error "bad operand type for abs(): 'NoneType'")
      <-> join_sensors readings sensors <> []
          /\ forall j, In j (join_sensors readings sensors) ->
               length (sensor_history (s_sensor_id (s_ j)) readings sensors) = 1%nat)
  /\ (forall title, ~ In title (map fst (QUERIES numeric_sqrt)) ->
        cycle numeric_sqrt title readings sensors = Raised (key_error title)).
Proof.
  intros _.
  assert (Div : forall e, query6 numeric_sqrt readings sensors = Raised e ->
                          e = division_by_zero).
  { intros e E. unfold query6 in E.
    destruct (for_each _ _) as [keyed|e'] eqn:F; simpl in E; [discriminate|].
    inversion E; subst e'. apply for_each_raised_inv in F.
    destruct F as [[j st] [_ Hr]]. exact (anomaly_row_raises j st e Hr). }
  split; [|split; [|split]].
  - intros title Ht. simpl in Ht.
    destruct Ht as [<-|[<-|[<-|[<-|[<-|[<-|[<-|[]]]]]]]].
    + rewrite cycle_flow. destruct (query1 readings sensors); reflexivity.
    + rewrite cycle_outlier. destruct (Float8.query2 readings sensors); reflexivity.
    + rewrite cycle_rolling. destruct (query3 readings sensors); reflexivity.
    + rewrite cycle_density. destruct (query4 readings sensors); reflexivity.
    + rewrite cycle_trend. destruct (query5 readings); reflexivity.
    + rewrite cycle_anomaly.
      destruct (query6 numeric_sqrt readings sensors) as [rows|e] eqn:E.
      * destruct rows as [|row rows]; [reflexivity|]. cbn [bind is_nil].
        destruct (forallb _ (row :: rows)); [|reflexivity]. split; [reflexivity | now right].
      * simpl. split; [reflexivity|]. left. exact (Div e eq_refl).
    + rewrite cycle_road_type. destruct (query7 readings sensors); reflexivity.
  - rewrite cycle_anomaly.
    destruct (query6 numeric_sqrt readings sensors) as [rows|e] eqn:E.
    + destruct rows as [|row rows]; cbn [bind is_nil].
      * split; discriminate.
      * destruct (forallb _ (row :: rows)); split; discriminate.
    + unfold bind. split; intros H; inversion H; reflexivity.
  - rewrite cycle_anomaly. split.
    + destruct (query6 numeric_sqrt readings sensors) as [rows|e] eqn:E.
      * destruct (all_scores_null _ _ _ _ E) as [Hl Hn].
        destruct rows as [|row rows]; cbn [bind is_nil]; [discriminate|].
        destruct (forallb _ (row :: rows)) eqn:N; [|discriminate]. intros _. split.
        -- intros J. rewrite J in Hl. discriminate.
        -- now apply Hn.
      * simpl. intros H. pose proof (Div e eq_refl) as D. rewrite D in H. discriminate.
    + intros [J L]. destruct (query6_without_deviation numeric_sqrt _ _ L) as [rows E].
      rewrite E. destruct (all_scores_null _ _ _ _ E) as [Hl Hn].
      destruct rows as [|row rows]; cbn [bind is_nil].
      * exfalso. apply J. destruct (join_sensors readings sensors); [reflexivity|discriminate].
      * now rewrite (proj2 Hn L).
  - intros title Ht. unfold cycle. now rewrite (lookup_None title _ Ht).
Qed.

(** A single reading of sensor 1: the anomaly statement returns one row
    without a score, and the page raises [TypeError]. *)
Lemma page_script_outcomes_witness :
  cycle sqrt16 "6. Irregular patterns and possible incidents" (timed 1 0 [50%Q]) two_sensors
  = Raised (type_error "bad operand type for abs(): 'NoneType'").
Proof.
  assert (Hrange : Forall (fun r => in_float8_range (speed r) = true) (timed 1 0 [50%Q])).
  { repeat (apply Forall_cons; [vm_compute; reflexivity|]). apply Forall_nil. }
  apply (proj1 (proj2 (proj2 (page_script_outcomes sqrt16 (timed 1 0 [50%Q]) two_sensors
                                                   Hrange)))).
  split; [vm_compute; discriminate|].
  intros j Hj. vm_compute in Hj. destruct Hj as [<-|[]]. reflexivity.
Defined.

(** ** The status summary *)

Lemma status_counts_total (rows : list OutlierClassification) :
  value_count Possible_slowdown rows + value_count Abnormal_high_speed rows
  + value_count Normal rows
  = Z.of_nat (length rows).
Proof.
  unfold value_count. induction rows as [|r t IH]; [reflexivity|].
  cbn [filter length]. destruct (oc_traffic_status r); cbn [status_eqb length]; lia.
Qed.

Lemma flat_map_length_sum {A B} (f : A -> list B) (l : list A) :
  Z.of_nat (length (flat_map f l))
  = fold_right Z.add 0 (map (fun a => Z.of_nat (length (f a))) l).
Proof.
  induction l as [|a t IH]; [reflexivity|]. simpl. rewrite length_app. lia.
Qed.

Lemma sum_perm (l l' : list Z) :
  Permutation l l' -> fold_right Z.add 0 l = fold_right Z.add 0 l'.
Proof.
  induction 1 as [|x l l' _ IH|x y l|l l' l'' _ IH1 _ IH2]; simpl; lia.
Qed.

(** X15.  The status summary under the scatter plot has one row for each
    location of the frame, in ascending order of the location names.  The
    three counts of a row are the numbers of the location's rows per
    status; they add up to the number of rows of the location, and over the
    whole table to the number of rows of the frame: every row is counted
    once. *)
Theorem status_summary_counts_every_row (df : list OutlierClassification) :
  let table := status_summary df in
  NoDup (map sm_location_name table)
  /\ (forall loc, In loc (map sm_location_name table) <-> In loc (map oc_location_name df))
  /\ StronglySorted (fun a b => String.compare (sm_location_name a) (sm_location_name b) = Lt)
                    table
  /\ (forall row, In row table ->
        let here := filter (fun r => String.eqb (oc_location_name r) (sm_location_name row)) df in
        sm_possible_slowdown row = value_count Possible_slowdown here
        /\ sm_abnormal_high_speed row = value_count Abnormal_high_speed here
        /\ sm_normal row = value_count Normal here
        /\ sm_possible_slowdown row + sm_abnormal_high_speed row + sm_normal row
           = Z.of_nat (length here))
  /\ fold_right Z.add 0
       (map (fun row => sm_possible_slowdown row + sm_abnormal_high_speed row + sm_normal row)
            table)
     = Z.of_nat (length df).
Proof.
  intros table.
  set (groups := group_by string_dec oc_location_name df).
  assert (K : Permutation (map sm_location_name table)
                          (nodup string_dec (map oc_location_name df))).
  { unfold table, status_summary. rewrite map_map. cbn [sm_location_name].
    rewrite <- (group_by_keys string_dec).
    apply Permutation_map, order_by_perm. }
  assert (Hnd : NoDup (map sm_location_name table))
    by (apply (Permutation_NoDup (Permutation_sym K)); apply NoDup_nodup).
  split; [exact Hnd|]. split; [|split; [|split]].
  - intros loc. split; intros H.
    + apply (Permutation_in _ K) in H. now apply nodup_In in H.
    + apply (Permutation_in _ (Permutation_sym K)). now apply nodup_In.
  - assert (S : StronglySorted (fun a b => String.compare (sm_location_name a)
                                              (sm_location_name b) <> Gt) table).
    { unfold table, status_summary.
      apply (sorted_map_in (le_of (by_string fst))).
      - intros a b _ _ H. cbn [sm_location_name]. unfold le_of, leb_of, by_string in H.
        intros G. now rewrite G in H.
      - exact (order_by_lawful (by_string fst) _). }
    clear K. induction S as [|a t St IH Ha]; [constructor|].
    simpl in Hnd. inversion Hnd as [|? ? Hnotin Hnd']; subst.
    constructor; [now apply IH|]. rewrite Forall_forall in *. intros b Hb.
    specialize (Ha b Hb).
    destruct (String.compare (sm_location_name a) (sm_location_name b)) eqn:C;
      [|reflexivity|congruence].
    exfalso. apply String.compare_eq_iff in C. apply Hnotin. rewrite C. now apply in_map.
  - intros row Hrow here. unfold table, status_summary in Hrow. apply in_map_iff in Hrow.
    destruct Hrow as [[loc g] [<- Hg]]. apply order_by_In, group_by_In in Hg.
    cbn [fst snd sm_location_name sm_possible_slowdown sm_abnormal_high_speed sm_normal] in *.
    destruct Hg as [_ ->]. unfold here. cbn [sm_location_name].
    rewrite filter_has_key_string. repeat split. apply status_counts_total.
  - unfold table, status_summary. rewrite map_map.
    cbn [sm_possible_slowdown sm_abnormal_high_speed sm_normal].
    rewrite (map_ext _ (fun g : string * list OutlierClassification =>
                          Z.of_nat (length (snd g))))
      by (intros g; apply status_counts_total).
    rewrite (sum_perm _ _ (Permutation_map _ (order_by_perm (by_string fst) groups))).
    rewrite <- (flat_map_length_sum snd). f_equal.
    apply Permutation_length, group_by_partition.
Qed.

(** ** The sign of the hourly change *)

(** Rounding to two decimals keeps the sign of a value that is at least
    half a hundredth away from zero, and turns any smaller value into
    zero. *)
Lemma round2_sign (x : Q) :
  ((0 < round2 x)%Q <-> (1 # 200 <= x)%Q)
  /\ ((round2 x < 0)%Q <-> (x <= - (1 # 200))%Q).
Proof.
  unfold round2. set (n := Qfloor (Qabs x * 100 + (1 # 2))%Q).
  pose proof (Qfloor_le (Qabs x * 100 + (1 # 2))%Q) as Hlo.
  pose proof (Qlt_floor (Qabs x * 100 + (1 # 2))%Q) as Hhi.
  fold n in Hlo, Hhi. rewrite inject_Z_plus in Hhi.
  change (inject_Z 1) with 1%Q in Hhi.
  assert (C : (n <= 0 \/ 1 <= n)%Z) by lia.
  pose proof (round2_count_nonneg x) as N. fold n in N. rewrite Zle_Qle in N.
  change (inject_Z 0) with 0%Q in N.
  destruct (Qle_bool 0 x) eqn:E.
  - apply Qle_bool_iff in E. rewrite (Qabs_pos x E) in Hlo, Hhi.
    rewrite (hundredths n).
    destruct C as [C|C]; rewrite Zle_Qle in C;
      [change (inject_Z 0) with 0%Q in C|change (inject_Z 1) with 1%Q in C];
      repeat split; intros H; lra.
  - assert (Hneg : (x < 0)%Q).
    { destruct (Qlt_le_dec x 0) as [H|H]; [exact H|].
      apply Qle_bool_iff in H. congruence. }
    rewrite (Qabs_neg x) in Hlo, Hhi by lra.
    rewrite (hundredths (- n)), inject_Z_opp.
    destruct C as [C|C]; rewrite Zle_Qle in C;
      [change (inject_Z 0) with 0%Q in C|change (inject_Z 1) with 1%Q in C];
      repeat split; intros H; lra.
Qed.

(** X16.  Whatever averages [hourly] holds, a row of the trend that has a
    [prev_hour_speed] has a [delta_speed], and its sign compares the two
    columns of the row: it is positive exactly when [avg_speed] is at least
    0.005 above [prev_hour_speed], negative exactly when it is at least
    0.005 below, and zero for every smaller difference of the two
    columns. *)
Theorem delta_speed_sign (hourly_rows : list (Z * Q))
        (row : HourlyTrendRecord) (p : Q) :
  In row (trend_select hourly_rows) ->
  prev_hour_speed row = Some p ->
  exists d,
    delta_speed row = Some d
    /\ ((0 < d)%Q <-> (p + (1 # 200) <= avg_speed row)%Q)
    /\ ((d < 0)%Q <-> (avg_speed row <= p - (1 # 200))%Q)
    /\ ((d == 0)%Q <-> (Qabs (avg_speed row - p) < 1 # 200)%Q).
Proof.
  intros Hrow Hp. destruct (trend_select_row _ _ Hrow) as [_ [_ Hd]].
  rewrite Hp in Hd. simpl in Hd.
  exists (round2 (avg_speed row - p)). split; [exact Hd|].
  destruct (round2_sign (avg_speed row - p)) as [[P1 P2] [N1 N2]].
  split; [|split].
  - split; intros H; [apply P1 in H|apply P2]; lra.
  - split; intros H; [apply N1 in H|apply N2]; lra.
  - split; intros H.
    + apply Qabs_Qlt_condition. split.
      * destruct (Qlt_le_dec (- (1 # 200)) (avg_speed row - p)) as [L|L]; [exact L|].
        assert (L' : (avg_speed row - p <= - (1 # 200))%Q) by lra.
        apply N2 in L'. lra.
      * destruct (Qlt_le_dec (avg_speed row - p) (1 # 200)) as [L|L]; [exact L|].
        apply P2 in L. lra.
    + apply Qabs_Qlt_condition in H. destruct H as [H1 H2].
      destruct (Q_dec (round2 (avg_speed row - p)) 0) as [[L|L]|L]; [| |exact L].
      * apply N1 in L. lra.
      * apply P1 in L. lra.
Qed.

(** With the averages 50.3333333333333333 and 50.3383333333333333 in
    [hourly], the second row's columns differ by 0.005: its delta is
    positive. *)
Lemma delta_speed_sign_witness :
  exists row d,
    nth_error (trend_select hourly_at_scale_16) 1
    = Some row
    /\ delta_speed row = Some d
    /\ ((0 < d)%Q <->
        (50.3333333333333333 + (1 # 200) <= avg_speed row)%Q).
Proof.
  destruct (nth_error (trend_select hourly_at_scale_16) 1)
    as [row|] eqn:E; [|vm_compute in E; discriminate].
  assert (Hin : In row (trend_select hourly_at_scale_16))
    by (eapply nth_error_In; exact E).
  assert (Hp : prev_hour_speed row = Some 50.3333333333333333%Q)
    by (vm_compute in E; inversion E; reflexivity).
  destruct (delta_speed_sign _ row _ Hin Hp) as [d [Hd [Hpos _]]].
  exists row, d. repeat split; try assumption; apply Hpos.
Defined.

(** * The outlier classifier in double precision (C1) *)

(** ** The order of [float8] *)

Lemma float8_cmp_key (a b : float8) : float8_cmp a b = float8_key a b.
Proof.
  unfold float8_cmp, float8_key, then_by, by_Z.
  destruct a as [s|s| |s m e], b as [s'|s'| |s' m' e']; try destruct s; try destruct s';
    try reflexivity; cbn.
  rewrite Z.compare_opp, (Z.compare_antisym e e').
  destruct (e ?= e'); reflexivity.
Qed.

Lemma lawful_ext {A} (c c' : @ordering A) :
  (forall x y, c' x y = c x y) -> Lawful c -> Lawful c'.
Proof.
  intros E L. split.
  - intros x y. rewrite !E. apply lawful_swap.
  - intros x y z. rewrite !E. apply lawful_trans.
  - intros x y z. rewrite !E. apply lawful_eq.
Qed.

#[export] Instance float8_cmp_lawful : Lawful float8_cmp.
Proof.
  apply (lawful_ext float8_key); [exact float8_cmp_key|].
  unfold float8_key.
  exact (then_by_lawful (by_Z float8_class)
           (then_by (by_Z float8_exponent) (by_Z float8_mantissa))).
Qed.

Lemma float8_cmp_Eq (a b : float8) : float8_cmp a b = Eq -> same_float8 a b.
Proof.
  rewrite float8_cmp_key. unfold float8_key, then_by, by_Z.
  destruct (float8_class a ?= float8_class b) eqn:C; try discriminate.
  destruct (float8_exponent a ?= float8_exponent b) eqn:X; try discriminate.
  intros M. apply Z.compare_eq in C, X, M.
  destruct a as [s|s| |s m e], b as [s'|s'| |s' m' e']; try destruct s; try destruct s';
    simpl in *; try discriminate; try (left; reflexivity); try (right; split; reflexivity).
  - left. inversion M. f_equal. lia.
  - left. inversion M. f_equal. lia.
Qed.

(** ** Sorting with a lawful key does not depend on the order of the input *)

Section SortedOnce.
Context {A : Type} (c : @ordering A) `{Lawful A c}.

Lemma key_Eq (x y : A) : c x y = Eq <-> leb_of c x y = true /\ leb_of c y x = true.
Proof.
  unfold leb_of. rewrite (lawful_swap (c := c) x y). destruct (c x y); simpl; intuition discriminate.
Qed.

Lemma key_refl (x : A) : c x x = Eq.
Proof.
  pose proof (lawful_swap (c := c) x x) as S. destruct (c x x); simpl in S; congruence.
Qed.

Lemma leb_trans (x y z : A) :
  leb_of c x y = true -> leb_of c y z = true -> leb_of c x z = true.
Proof. exact (lawful_le_trans c x y z). Qed.

Lemma alike_refl (l : list A) : alike c l l.
Proof. induction l; constructor; [apply key_refl | assumption]. Qed.

Lemma alike_trans (l1 l2 l3 : list A) : alike c l1 l2 -> alike c l2 l3 -> alike c l1 l3.
Proof.
  intros H12. revert l3. induction H12 as [|x y s t Hxy _ IH]; intros l3 H23.
  - exact H23.
  - inversion H23 as [|? z ? u Hyz Htu]; subst. constructor; [|now apply IH].
    now rewrite (lawful_eq (c := c) x y z Hxy).
Qed.

Ltac saturate :=
  repeat match goal with
         | H : leb_of c ?u ?v = false |- _ =>
             lazymatch goal with
             | _ : leb_of c v u = true |- _ => fail
             | _ => pose proof (lawful_total c u v H)
             end
         end.

Ltac absurd_order :=
  exfalso; saturate;
  match goal with
  | H : leb_of c ?u ?v = false |- _ =>
      assert (leb_of c u v = true) by eauto using leb_trans; congruence
  end.

Lemma insert_by_cons (x y : A) (t : list A) :
  insert_by c x (y :: t) = if leb_of c x y then x :: y :: t else y :: insert_by c x t.
Proof. reflexivity. Qed.

Lemma insert_by_alike (x x' : A) (s s' : list A) :
  c x x' = Eq -> alike c s s' -> alike c (insert_by c x s) (insert_by c x' s').
Proof.
  intros Hx Hs. induction Hs as [|y y' t t' Hy Ht IH].
  - repeat constructor. exact Hx.
  - rewrite !insert_by_cons. apply key_Eq in Hx, Hy. destruct Hx as [X1 X2], Hy as [Y1 Y2].
    destruct (leb_of c x y) eqn:E; destruct (leb_of c x' y') eqn:E'.
    + constructor; [now apply key_Eq|]. constructor; [now apply key_Eq | exact Ht].
    + absurd_order.
    + absurd_order.
    + constructor; [now apply key_Eq | exact IH].
Qed.

Lemma insert_by_swap (x y : A) (s : list A) :
  alike c (insert_by c x (insert_by c y s)) (insert_by c y (insert_by c x s)).
Proof.
  induction s as [|a t IH].
  - cbn [insert_by].
    destruct (leb_of c x y) eqn:E; destruct (leb_of c y x) eqn:E'.
    + constructor; [now apply key_Eq|]. constructor; [now apply key_Eq | constructor].
    + apply alike_refl.
    + apply alike_refl.
    + absurd_order.
  - rewrite (insert_by_cons y a t), (insert_by_cons x a t).
    destruct (leb_of c y a) eqn:Ey; destruct (leb_of c x a) eqn:Ex;
      rewrite ?insert_by_cons; rewrite ?Ex, ?Ey;
      destruct (leb_of c x y) eqn:Exy; destruct (leb_of c y x) eqn:Eyx;
      try absurd_order; try apply alike_refl.
    + constructor; [now apply key_Eq|]. constructor; [now apply key_Eq | apply alike_refl].
    + constructor; [apply key_refl | exact IH].
    + constructor; [apply key_refl | exact IH].
    + constructor; [apply key_refl | exact IH].
Qed.

Lemma order_by_alike (l l' : list A) :
  Permutation l l' -> alike c (order_by c l) (order_by c l').
Proof.
  induction 1 as [|x l l' _ IH|x y l|l l' l'' _ IH1 _ IH2].
  - constructor.
  - apply (insert_by_alike x x); [apply key_refl | exact IH].
  - apply insert_by_swap.
  - exact (alike_trans _ _ _ IH1 IH2).
Qed.
End SortedOnce.

(** ** Doubles that differ at most in the sign of zero *)

Lemma same_float8_refl (a : float8) : same_float8 a a.
Proof. now left. Qed.

Ltac zero_cases :=
  repeat match goal with
         | H : is_zero ?x = true |- _ =>
             destruct x as [[|]|?| |? ? ?]; try discriminate H; clear H
         end.

Ltac same_or_zero :=
  solve [ left; reflexivity | right; split; reflexivity ].

Ltac congruent_up_to_zero :=
  intros [->|[Za Za']] [->|[Zb Zb']]; zero_cases;
  try solve [left; reflexivity];
  try solve [right; split; reflexivity];
  match goal with
  | |- context [?f ?x (S754_zero _)] => destruct x as [[|]|[|]| |[|] ? ?]
  | |- context [?f (S754_zero _) ?x] => destruct x as [[|]|[|]| |[|] ? ?]
  end;
  same_or_zero.

Lemma float8mi_same (a a' b b' : float8) :
  same_float8 a a' -> same_float8 b b' -> same_float8 (float8mi a b) (float8mi a' b').
Proof. congruent_up_to_zero. Qed.

Lemma float8pl_same (a a' b b' : float8) :
  same_float8 a a' -> same_float8 b b' -> same_float8 (float8pl a b) (float8pl a' b').
Proof. congruent_up_to_zero. Qed.

Lemma float8mul_same (a a' b b' : float8) :
  same_float8 a a' -> same_float8 b b' -> same_float8 (float8mul a b) (float8mul a' b').
Proof. congruent_up_to_zero. Qed.

Lemma float8lt_same (a a' b b' : float8) :
  same_float8 a a' -> same_float8 b b' -> float8lt a b = float8lt a' b'.
Proof.
  intros [->|[Za Za']] [->|[Zb Zb']]; zero_cases; try reflexivity;
    match goal with
    | |- context [float8lt ?x (S754_zero _)] => destruct x as [[|]|[|]| |[|] ? ?]
    | |- context [float8lt (S754_zero _) ?x] => destruct x as [[|]|[|]| |[|] ? ?]
    end; reflexivity.
Qed.

Lemma lerp_same (lo lo' hi hi' pct : float8) :
  same_float8 lo lo' -> same_float8 hi hi' ->
  same_float8 (Float8.lerp lo hi pct) (Float8.lerp lo' hi' pct).
Proof.
  intros Hlo Hhi. unfold Float8.lerp.
  apply float8pl_same; [exact Hlo|].
  apply float8mul_same; [apply same_float8_refl|]. now apply float8mi_same.
Qed.

Lemma classify_same (v lo lo' hi hi' : float8) :
  same_float8 lo lo' -> same_float8 hi hi' ->
  Float8.classify v lo hi = Float8.classify v lo' hi'.
Proof.
  intros Hlo Hhi. unfold Float8.classify, float8gt, Float8.lower_bound, Float8.upper_bound.
  rewrite (float8lt_same v v (float8mi lo _) (float8mi lo' (float8mul (float8_of_numeric 1.5) (float8mi hi' lo')))).
  - rewrite (float8lt_same (float8pl hi _) (float8pl hi' (float8mul (float8_of_numeric 1.5) (float8mi hi' lo'))) v v).
    + reflexivity.
    + apply float8pl_same; [exact Hhi|].
      apply float8mul_same; [apply same_float8_refl | now apply float8mi_same].
    + apply same_float8_refl.
  - apply same_float8_refl.
  - apply float8mi_same; [exact Hlo|].
    apply float8mul_same; [apply same_float8_refl | now apply float8mi_same].
Qed.

Lemma same_nth (s s' : list float8) (i : nat) :
  Forall2 same_float8 s s' -> same_float8 (nth i s S754_nan) (nth i s' S754_nan).
Proof.
  intros H. revert i. induction H as [|x y t u Hxy _ IH]; intros [|i]; simpl;
    try apply same_float8_refl; auto.
Qed.

Lemma percentile_cont_float8_perm (quarters : Z) (l l' : list float8) :
  Permutation l l' ->
  same_float8 (Float8.percentile_cont quarters l) (Float8.percentile_cont quarters l').
Proof.
  intros H. unfold Float8.percentile_cont. rewrite <- (Permutation_length H).
  assert (S : Forall2 same_float8 (order_by float8_cmp l) (order_by float8_cmp l')).
  { pose proof (order_by_alike float8_cmp l l' H) as S. unfold alike in S.
    eapply Forall2_impl; [|exact S]. intros a b. apply float8_cmp_Eq. }
  destruct (_ mod 4 =? 0).
  - now apply same_nth.
  - apply lerp_same; now apply same_nth.
Qed.

(** ** Query 2 in double precision (C1) *)

Lemma reading_speeds_cast (sid : Z) (readings : list SensorReading) :
  Float8.reading_speeds sid readings
  = map float8_of_numeric (reading_speeds sid readings).
Proof. unfold Float8.reading_speeds, reading_speeds. now rewrite map_map. Qed.

Lemma speeds_cast (g : list Joined) :
  Float8.speeds g = map float8_of_numeric (speeds g).
Proof. unfold Float8.speeds, speeds. now rewrite map_map. Qed.

Section SensorKeyFloat8.
Variable sensors : list Sensor.
Hypothesis sensor_id_is_key : NoDup (map s_sensor_id sensors).

Lemma speed_stats_of_sensor_float8 (readings : list SensorReading) (j : Joined) :
  In j (join_sensors readings sensors) ->
  filter (fun q => Float8.ss_sensor_id q =? s_sensor_id (s_ j))
         (Float8.speed_stats readings sensors)
  = [ Float8.mkSpeedStats (s_sensor_id (s_ j)) (location_name (s_ j))
        (Float8.percentile_cont 1 (Float8.reading_speeds (s_sensor_id (s_ j)) readings))
        (Float8.percentile_cont 3 (Float8.reading_speeds (s_sensor_id (s_ j)) readings)) ].
Proof.
  intros Hj. unfold Float8.speed_stats, group_by. rewrite map_map. cbn [fst snd].
  rewrite filter_map_swap. cbn [Float8.ss_sensor_id].
  set (key := fun j : Joined => (s_sensor_id (s_ j), location_name (s_ j))).
  rewrite (filter_unique _ _ (key j)).
  - cbn [map]. unfold key at 1 2. cbn [fst snd].
    unfold key. rewrite (sensor_group sensors sensor_id_is_key readings j Hj).
    rewrite speeds_cast, reading_speeds_cast.
    fold (sensor_history (s_sensor_id (s_ j)) readings sensors).
    rewrite (sensor_history_readings sensors sensor_id_is_key); [reflexivity|].
    now apply join_sensors_In in Hj.
  - apply NoDup_nodup.
  - apply nodup_In. now apply (in_map key).
  - apply Z.eqb_refl.
  - intros k Hk E. apply nodup_In, in_map_iff in Hk. destruct Hk as [j' [<- Hj']].
    unfold key in *. cbn [fst] in E. apply Z.eqb_eq in E.
    apply join_sensors_In in Hj. apply join_sensors_In in Hj'.
    rewrite (sensor_of_id sensors sensor_id_is_key (s_ j') (s_ j)); tauto.
Qed.

Lemma classified_rows_float8 (readings : list SensorReading) :
  Float8.classified readings sensors
  = map (Float8.classified_by_history readings) (join_sensors readings sensors).
Proof.
  unfold Float8.classified. apply flat_map_singletons. intros j Hj.
  now rewrite (speed_stats_of_sensor_float8 readings j Hj).
Qed.
End SensorKeyFloat8.

Lemma classified_by_history_float8_perm
      (readings readings' : list SensorReading) (j : Joined) :
  Permutation readings readings' ->
  Float8.classified_by_history readings j = Float8.classified_by_history readings' j.
Proof.
  intros H. unfold Float8.classified_by_history. f_equal.
  assert (P : Permutation (Float8.reading_speeds (s_sensor_id (s_ j)) readings)
                          (Float8.reading_speeds (s_sensor_id (s_ j)) readings'))
    by (unfold Float8.reading_speeds; now apply Permutation_map, filter_perm).
  apply classify_same; now apply percentile_cont_float8_perm.
Qed.

Lemma float8mi_self (x : float8) : is_finite x = true -> is_zero (float8mi x x) = true.
Proof.
  destruct x as [[|]|s| |s m e]; try discriminate; intros _; try reflexivity.
  unfold float8mi, SFsub. rewrite Z.sub_diag. reflexivity.
Qed.

Lemma float8lt_irrefl (x : float8) : float8lt x x = false.
Proof.
  destruct x as [[|]|[|]| |[|] m e]; try reflexivity;
    unfold float8lt, SFltb, SFcompare; cbn [isnan negb orb andb];
    rewrite Z.compare_refl; change (PosDef.Pos.compare_cont Eq m m) with (Pos.compare m m);
    rewrite Pos.compare_refl; reflexivity.
Qed.

Lemma lerp_self (v : float8) (s : bool) (m : positive) (e : Z) :
  is_finite v = true -> same_float8 (Float8.lerp v v (S754_finite s m e)) v.
Proof.
  intros Hv. unfold Float8.lerp. pose proof (float8mi_self v Hv) as Z.
  destruct (float8mi v v) as [sz|?| |? ? ?]; try discriminate.
  destruct v as [[|]|?| |sv mv ev]; try discriminate; destruct s, sz; same_or_zero.
Qed.

Lemma proportion_finite (r : Z) :
  r = 1 \/ r = 2 \/ r = 3 ->
  exists m e, float8_of_numeric (r # 4) = S754_finite false m e.
Proof.
  intros [-> | [-> | ->]]; do 2 eexists; vm_compute; reflexivity.
Qed.

Lemma classify_constant (v : float8) :
  is_finite v = true -> Float8.classify v v v = Normal.
Proof.
  intros Hv. unfold Float8.classify, float8gt, Float8.lower_bound, Float8.upper_bound.
  pose proof (float8mi_self v Hv) as Z.
  destruct (float8mi v v) as [sz|?| |? ? ?]; try discriminate.
  change (float8_of_numeric 1.5) with (S754_finite false 6755399441055744 (-52)).
  assert (L : float8lt v (float8mi v (float8mul (S754_finite false 6755399441055744 (-52))
                                                (S754_zero sz))) = false).
  { rewrite (float8lt_same v v _ v); [apply float8lt_irrefl | apply same_float8_refl |].
    destruct v as [[|]|?| |sv mv ev]; try discriminate; destruct sz; same_or_zero. }
  assert (U : float8lt (float8pl v (float8mul (S754_finite false 6755399441055744 (-52))
                                              (S754_zero sz))) v = false).
  { rewrite (float8lt_same _ v v v); [apply float8lt_irrefl | | apply same_float8_refl].
    destruct v as [[|]|?| |sv mv ev]; try discriminate; destruct sz; same_or_zero. }
  now rewrite L, U.
Qed.

Lemma percentile_cont_constant_float8 (quarters : Z) (l : list float8) (v : float8) :
  quarters = 1 \/ quarters = 3 -> l <> [] -> (forall x, In x l -> x = v) ->
  is_finite v = true ->
  same_float8 (Float8.percentile_cont quarters l) v.
Proof.
  intros Hq Hne Hall Hv. unfold Float8.percentile_cont.
  set (sorted := order_by float8_cmp l).
  assert (Hlen : length sorted = length l) by apply order_by_length.
  assert (Hnth : forall i, (i < length l)%nat -> nth i sorted S754_nan = v).
  { intros i Hi. apply Hall. apply (order_by_In float8_cmp).
    apply nth_In. fold sorted. lia. }
  assert (Hpos : (0 < length l)%nat) by (destruct l; [congruence | simpl; lia]).
  set (n := Z.of_nat (length l)) in *.
  assert (Hn : 1 <= n) by lia.
  pose proof (Z.div_mod (quarters * (n - 1)) 4 ltac:(lia)) as D.
  pose proof (Z.mod_pos_bound (quarters * (n - 1)) 4 ltac:(lia)) as B.
  destruct (Z.eqb_spec ((quarters * (n - 1)) mod 4) 0) as [E|N].
  - left. apply Hnth. unfold n in *. nia.
  - destruct (proportion_finite ((quarters * (n - 1)) mod 4)) as [m [e ->]]; [lia|].
    rewrite !Hnth by (unfold n in *; nia). now apply lerp_self.
Qed.


(** The whole numbers of quarters of [Float8.percentile_cont] are the
    position, the rows and the proportion that the database computes in
    double precision: checked for the two percentiles of query 2 on every
    group of up to 2000 rows. *)
Lemma positions_in_double_precision :
  forallb (fun N => position_agrees 1 (Z.of_nat N) && position_agrees 3 (Z.of_nat N))
          (seq 1 2000)
  = true.
Proof. vm_compute. reflexivity. Qed.

(** C1 as stated fails: in the history 5.8, 4.6, 5.8, 7.0 of one sensor the
    quartiles are 5.5 and 6.1, so that 4.6 and 7.0 are the two bounds
    [q1 - 1.5 * IQR] and [q3 + 1.5 * IQR] themselves and neither reading is
    beyond its bound; yet the statement, which computes the bounds in
    double precision, returns Possible slowdown for 4.6 and Abnormal high
    speed for 7.0.  In double precision the lower bound is the double next
    above the double of 4.6 (4.6000000000000005) and the upper bound the
    double next below 7.0 (6.999999999999999). *)
Lemma fence_readings_are_not_normal :
  let history := reading_speeds 1 fence_sample in
  let lo := percentile_cont (25 # 100) history in
  let hi := percentile_cont (75 # 100) history in
  (lo == 5.5)%Q /\ (hi == 6.1)%Q
  /\ (lo - 1.5 * (hi - lo) == 4.6)%Q
  /\ (hi + 1.5 * (hi - lo) == 7.0)%Q
  /\ ~ (4.6 < lo - 1.5 * (hi - lo))%Q
  /\ ~ (hi + 1.5 * (hi - lo) < 7.0)%Q
  /\ float8_of_numeric 4.6 = S754_finite false 5179139571476070 (-50)
  /\ Float8.lower_bound (Float8.percentile_cont 1 (Float8.reading_speeds 1 fence_sample))
                        (Float8.percentile_cont 3 (Float8.reading_speeds 1 fence_sample))
     = S754_finite false 5179139571476071 (-50)
  /\ float8_of_numeric 7.0 = S754_finite false 7881299347898368 (-50)
  /\ Float8.upper_bound (Float8.percentile_cont 1 (Float8.reading_speeds 1 fence_sample))
                        (Float8.percentile_cont 3 (Float8.reading_speeds 1 fence_sample))
     = S754_finite false 7881299347898367 (-50)
  /\ map (fun row => (oc_speed row, oc_traffic_status row))
         (Float8.query2 fence_sample two_sensors)
     = [ (5.8, Normal); (4.6, Possible_slowdown); (5.8, Normal);
         (7.0, Abnormal_high_speed) ]%Q.
Proof.
  repeat split; try (vm_compute; reflexivity); intros H; vm_compute in H; discriminate.
Qed.

(** C1, amended.  Let [sensor_id] be a key of [sensors], the speeds be in
    the range of the doubles and the readings fewer than 2^50.  The rows of
    query 2 are the joined readings, each with the status that the [CASE]
    expression gives the double [v] of its speed against the quartiles [lo]
    and [hi] of the doubles of all readings of its sensor.  The quartiles
    are the values at one and at three quarters of the way through the
    sorted doubles, interpolated between two neighbours as
    [first + proportion * (second - first)] in double precision.  The
    status is Possible slowdown exactly when [v < lo - 1.5 * (hi - lo)],
    otherwise Abnormal high speed exactly when [v > hi + 1.5 * (hi - lo)],
    otherwise Normal, every operation being the one of double precision.
    When all readings of the sensor have one finite double, both quartiles
    are that double, their difference is zero and the reading is Normal.
    Reordering the readings changes the rows at most in their order. *)
Theorem outlier_classification_in_double_precision
        (readings : list SensorReading) (sensors : list Sensor) :
  NoDup (map s_sensor_id sensors) ->
  Forall (fun r => in_float8_range (speed r) = true) readings ->
  Z.of_nat (length readings) < 2 ^ 50 ->
  (forall row, In row (Float8.query2 readings sensors) <->
     exists r s, In r readings /\ In s sensors /\ s_sensor_id s = r_sensor_id r
       /\ row = mkOutlier (r_sensor_id r) (location_name s) (record_time r) (speed r)
                  (Float8.classify (float8_of_numeric (speed r))
                     (Float8.percentile_cont 1
                        (Float8.reading_speeds (r_sensor_id r) readings))
                     (Float8.percentile_cont 3
                        (Float8.reading_speeds (r_sensor_id r) readings))))
  /\ (forall r, In r readings ->
        let history := Float8.reading_speeds (r_sensor_id r) readings in
        let n := Z.of_nat (length history) in
        let lo := Float8.percentile_cont 1 history in
        let hi := Float8.percentile_cont 3 history in
        let v := float8_of_numeric (speed r) in
        let spread := float8mul (float8_of_numeric 1.5) (float8mi hi lo) in
        let status := Float8.classify v lo hi in
        (exists sorted,
            Permutation sorted history
            /\ StronglySorted (fun a b => float8_cmp a b <> Gt) sorted
            /\ lo = (if (n - 1) mod 4 =? 0
                     then nth (Z.to_nat ((n - 1) / 4)) sorted S754_nan
                     else float8pl (nth (Z.to_nat ((n - 1) / 4)) sorted S754_nan)
                            (float8mul (float8_of_numeric ((n - 1) mod 4 # 4))
                               (float8mi (nth (Z.to_nat ((n - 1) / 4 + 1)) sorted S754_nan)
                                         (nth (Z.to_nat ((n - 1) / 4)) sorted S754_nan))))
            /\ hi = (if (3 * (n - 1)) mod 4 =? 0
                     then nth (Z.to_nat (3 * (n - 1) / 4)) sorted S754_nan
                     else float8pl (nth (Z.to_nat (3 * (n - 1) / 4)) sorted S754_nan)
                            (float8mul (float8_of_numeric ((3 * (n - 1)) mod 4 # 4))
                               (float8mi
                                  (nth (Z.to_nat (3 * (n - 1) / 4 + 1)) sorted S754_nan)
                                  (nth (Z.to_nat (3 * (n - 1) / 4)) sorted S754_nan)))))
        /\ (status = Possible_slowdown <-> float8lt v (float8mi lo spread) = true)
        /\ (status = Abnormal_high_speed <->
            float8lt v (float8mi lo spread) = false
            /\ float8gt v (float8pl hi spread) = true)
        /\ (status = Normal <->
            float8lt v (float8mi lo spread) = false
            /\ float8gt v (float8pl hi spread) = false)
        /\ ((forall r', In r' readings -> r_sensor_id r' = r_sensor_id r ->
                        float8_of_numeric (speed r') = v) ->
            is_finite v = true ->
            same_float8 lo v /\ same_float8 hi v
            /\ is_zero (float8mi hi lo) = true /\ status = Normal))
  /\ (forall readings', Permutation readings readings' ->
        Permutation (Float8.query2 readings sensors) (Float8.query2 readings' sensors)).
Proof.
  intros Hkey _ _. split; [|split].
  - intros row. unfold Float8.query2.
    rewrite order_by_In, (classified_rows_float8 sensors Hkey).
    rewrite in_map_iff. split.
    + intros [[r s] [<- Hj]]. apply join_sensors_In in Hj. cbn [r_ s_ fst snd] in Hj.
      destruct Hj as [Hr [Hs E]]. exists r, s. repeat split; try assumption.
      unfold Float8.classified_by_history. cbn [r_ s_ fst snd]. now rewrite E.
    + intros [r [s [Hr [Hs [E ->]]]]]. exists (r, s). split.
      * unfold Float8.classified_by_history. cbn [r_ s_ fst snd]. now rewrite E.
      * apply join_sensors_In. cbn [r_ s_ fst snd]. auto.
  - intros r Hr history n lo hi v spread status.
    assert (Hin : In v history).
    { unfold v, history, Float8.reading_speeds.
      apply (in_map (fun r => float8_of_numeric (speed r))), filter_In.
      split; [exact Hr | apply Z.eqb_refl]. }
    assert (Hne : history <> []) by (intros E; rewrite E in Hin; exact Hin).
    split; [|split; [|split; [|split]]].
    + exists (order_by float8_cmp history). split; [apply order_by_perm|]. split.
      * apply (sorted_impl (le_of float8_cmp)).
        -- intros a b H G. unfold le_of, leb_of in H. now rewrite G in H.
        -- exact (order_by_lawful float8_cmp history).
      * split; unfold lo, hi, Float8.percentile_cont, Float8.lerp; fold n;
          rewrite ?Z.mul_1_l; reflexivity.
    + unfold status, Float8.classify, Float8.lower_bound. fold spread.
      destruct (float8lt v (float8mi lo spread)); [tauto|].
      destruct (float8gt v (Float8.upper_bound lo hi)); split; intros; discriminate.
    + unfold status, Float8.classify, Float8.lower_bound, Float8.upper_bound. fold spread.
      destruct (float8lt v (float8mi lo spread)).
      * split; [discriminate | intros [? _]; discriminate].
      * destruct (float8gt v (float8pl hi spread)); [tauto|].
        split; [discriminate | intros [_ ?]; discriminate].
    + unfold status, Float8.classify, Float8.lower_bound, Float8.upper_bound. fold spread.
      destruct (float8lt v (float8mi lo spread)).
      * split; [discriminate | intros [? _]; discriminate].
      * destruct (float8gt v (float8pl hi spread)); [|tauto].
        split; [discriminate | intros [_ ?]; discriminate].
    + intros Hsame Hv.
      assert (Hc : forall x, In x history -> x = v).
      { intros x Hx. unfold history, Float8.reading_speeds in Hx. apply in_map_iff in Hx.
        destruct Hx as [r' [<- Hr']]. apply filter_In in Hr'. destruct Hr' as [Hr' E].
        apply Z.eqb_eq in E. now apply Hsame. }
      assert (E1 : same_float8 lo v)
        by (apply percentile_cont_constant_float8; auto).
      assert (E3 : same_float8 hi v)
        by (apply percentile_cont_constant_float8; auto).
      split; [exact E1|]. split; [exact E3|]. split.
      * pose proof (float8mi_same hi v lo v E3 E1) as S.
        pose proof (float8mi_self v Hv) as Z.
        destruct S as [->|[S _]]; assumption.
      * unfold status. rewrite (classify_same v lo v hi v E1 E3).
        now apply classify_constant.
  - intros readings' Hp. unfold Float8.query2.
    rewrite !order_by_perm, !(classified_rows_float8 sensors Hkey).
    rewrite (map_ext _ _ (fun j => classified_by_history_float8_perm readings readings' j Hp)).
    apply Permutation_map. unfold join_sensors. now apply Permutation_flat_map.
Qed.

(** On [fence_sample]: the reading at speed 4.6 is a Possible slowdown
    because its double is below the lower bound computed in double
    precision, and reading the sample backwards gives the same rows. *)
Lemma outlier_classification_in_double_precision_witness :
  let history := Float8.reading_speeds 1 fence_sample in
  let lo := Float8.percentile_cont 1 history in
  let hi := Float8.percentile_cont 3 history in
  let v := float8_of_numeric 4.6 in
  let spread := float8mul (float8_of_numeric 1.5) (float8mi hi lo) in
  (Float8.classify v lo hi = Possible_slowdown <-> float8lt v (float8mi lo spread) = true)
  /\ Float8.classify v lo hi = Possible_slowdown
  /\ Permutation (Float8.query2 fence_sample two_sensors)
                 (Float8.query2 (rev fence_sample) two_sensors).
Proof.
  intros history lo hi v spread.
  assert (Hkey : NoDup (map s_sensor_id two_sensors)).
  { repeat constructor; simpl; intuition discriminate. }
  assert (Hrange : Forall (fun r => in_float8_range (speed r) = true) fence_sample).
  { repeat (apply Forall_cons; [vm_compute; reflexivity|]). apply Forall_nil. }
  assert (Hlen : Z.of_nat (length fence_sample) < 2 ^ 50) by (vm_compute; reflexivity).
  destruct (outlier_classification_in_double_precision fence_sample two_sensors
              Hkey Hrange Hlen) as [_ [H P]].
  destruct (H (mkReading 1 60 4.6%Q 60)) as [_ [H1 _]].
  { vm_compute. right. now left. }
  split; [exact H1|]. split; [vm_compute; reflexivity|].
  apply P. apply Permutation_rev.
Defined.
